(** * PDF-SYSTEM: the chunking, embedding and retrieval core, embedded in Rocq

    The development follows the Python sources module by module:

    - [PyStr]            the fragment of Python's [str] and [re] the
                         services use;
    - [PdfService]       [app/services/pdf_service.py]: [clean_text] and
                         [split_text_into_chunks];
    - [Py]               results and exceptions, floats, numpy arrays,
                         [json], [list.sort];
    - [EmbeddingService] [app/services/embedding_service.py];
    - [Models], [PdfStore]  [app/models/models.py] and [save_pdf_to_db];
    - [QaService]        [app/services/qa_service.py] and the [/search]
                         route of [app/main.py];
    - [AzureClient], [GeminiService]  the configuration check and the
                         keyword retrieval of [answer_question_with_ai];
    - [Sample]           concrete collaborators on which the model runs;
    - [PyStrExt], [AzureUrl]  the request URL of
                         [app/services/azure_openai_client.py];
    - [PdfExtract], [Summary]  [extract_text_from_pdf] and
                         [generate_summary];
    - [AnswerFormat], [Sampling]  the formatting helpers and the
                         sampling of [app/services/gemini_service.py];
    - [Routes]           the routes of [app/main.py] on the tables, the
                         uploaded files and the response cache.

    Text is a list of Unicode code points.  What the interpreter and
    numpy decide (which characters are printable, how [str.lower] maps
    them, how floating-point kernels round) is a parameter of the
    definitions that depend on it.

    Definitions come first; the lemmas and the theorems follow. *)

From Stdlib Require Import String Ascii.
From Stdlib Require Import List ZArith Lia Bool.
From Stdlib Require Import SpecFloat DecimalString Permutation Sorted.
Import ListNotations.

Set Implicit Arguments.

(* ================================================================== *)
(** * Part I: definitions                                              *)
(* ================================================================== *)

(** ** Python strings

    A Python [str] is a sequence of Unicode code points; [ord] is the
    identity on this representation and [len] is the list length. *)

Module PyStr.

Definition char := Z.
Definition text := list char.

Definition NL : char := 10%Z.   (* '\n' *)
Definition SP : char := 32%Z.   (* ' '  *)
Definition BACKTICK : char := 96%Z.

(** An ASCII literal as a [str]. *)
Definition py (s : string) : text :=
  map (fun a => Z.of_N (N_of_ascii a)) (list_ascii_of_string s).

Definition len (s : text) : Z := Z.of_nat (length s).

Definition len_words (l : list text) : Z := Z.of_nat (length l).

Definition is_empty (s : text) : bool :=
  match s with [] => true | _ :: _ => false end.

(** [a == b]. *)
Fixpoint text_eqb (a b : text) : bool :=
  match a, b with
  | [], [] => true
  | x :: a', y :: b' => (x =? y)%Z && text_eqb a' b'
  | _, _ => false
  end.

(** [str.isspace] on one character, which is also the class [\s] of
    [re] on [str] patterns: the code points CPython lists as
    whitespace. *)
Definition isspace (c : char) : bool :=
  ((9 <=? c) && (c <=? 13) || (28 <=? c) && (c <=? 32)
   || (c =? 133) || (c =? 160) || (c =? 5760)
   || (8192 <=? c) && (c <=? 8202)
   || (c =? 8232) || (c =? 8233) || (c =? 8239) || (c =? 8287)
   || (c =? 12288))%Z.

(** [s.lstrip()], [s.rstrip()], [s.strip()]. *)
Fixpoint lstrip (s : text) : text :=
  match s with
  | [] => []
  | c :: r => if isspace c then lstrip r else s
  end.

Fixpoint rstrip (s : text) : text :=
  match s with
  | [] => []
  | c :: r =>
      match rstrip r with
      | [] => if isspace c then [] else [c]
      | t => c :: t
      end
  end.

Definition strip (s : text) : text := rstrip (lstrip s).

(** [s.startswith(p)]. *)
Fixpoint startswith (p s : text) : bool :=
  match p, s with
  | [], _ => true
  | _ :: _, [] => false
  | a :: p', b :: s' => (a =? b)%Z && startswith p' s'
  end.

(** [sub in s]. *)
Fixpoint contains (sub s : text) : bool :=
  startswith sub s ||
  match s with
  | [] => false
  | _ :: r => contains sub r
  end.

(** [s.count(sub)] for a non-empty [sub]: occurrences are counted from
    the left and do not overlap; [skip] is the number of characters
    still covered by the occurrence found last. *)
Fixpoint count_from (sub s : text) (skip : nat) : Z :=
  match s with
  | [] => 0%Z
  | _ :: r =>
      match skip with
      | S k => count_from sub r k
      | O => if startswith sub s
             then (1 + count_from sub r (length sub - 1))%Z
             else count_from sub r 0
      end
  end.

Definition count (sub s : text) : Z := count_from sub s 0.

(** [sep.join(parts)]. *)
Fixpoint join (sep : text) (parts : list text) : text :=
  match parts with
  | [] => []
  | [p] => p
  | p :: rest => p ++ sep ++ join sep rest
  end.

(** [s[i:j]] for [0 <= i]; an upper bound beyond the end is clamped. *)
Definition slice (s : text) (i j : Z) : text :=
  firstn (Z.to_nat (j - i)) (skipn (Z.to_nat i) s).

(** [range(0, stop, step)] for a positive [step]. *)
Definition range0 (stop step : Z) : list Z :=
  map (fun k => (Z.of_nat k * step)%Z)
      (seq 0 (Z.to_nat ((stop + step - 1) / step))).

(** [s.split()]: the maximal runs of non-whitespace characters.
    [split_go s] is the run that starts [s] (empty when [s] starts with
    whitespace) and the runs that follow it. *)
Fixpoint split_go (s : text) : text * list text :=
  match s with
  | [] => ([], [])
  | c :: r =>
      let '(w, ws) := split_go r in
      if isspace c then ([], if is_empty w then ws else w :: ws)
      else (c :: w, ws)
  end.

Definition split (s : text) : list text :=
  let '(w, ws) := split_go s in
  if is_empty w then ws else w :: ws.

(** [re.sub(c{2,}, c, s)] for a single character [c]: every run of two
    or more [c] is replaced by one [c]. *)
Fixpoint sub_runs (c : char) (s : text) : text :=
  match s with
  | [] => []
  | x :: r =>
      match r with
      | y :: _ => if ((x =? c) && (y =? c))%Z then sub_runs c r
                  else x :: sub_runs c r
      | [] => [x]
      end
  end.

(** The number of characters a greedy [\s*\n] consumes at the head of
    [s]: whitespace up to and including the last newline of the
    leading whitespace run, when that run has a newline. *)
Fixpoint ws_newline (s : text) : option nat :=
  match s with
  | [] => None
  | c :: r =>
      if isspace c then
        match ws_newline r with
        | Some n => Some (S n)
        | None => if (c =? NL)%Z then Some 1%nat else None
        end
      else None
  end.

(** [re.split(r'\n\s*\n', s)]: [re_split_go s skip] is the piece that
    starts [s] and the pieces that follow it; [skip] counts the
    characters of the current match still to be dropped. *)
Fixpoint re_split_go (s : text) (skip : nat) : text * list text :=
  match s with
  | [] => ([], [])
  | c :: r =>
      match skip with
      | S k => re_split_go r k
      | O =>
          match (if (c =? NL)%Z then ws_newline r else None) with
          | Some n => let '(p, ps) := re_split_go r n in ([], p :: ps)
          | None => let '(p, ps) := re_split_go r 0 in (c :: p, ps)
          end
      end
  end.

Definition re_split_blank (s : text) : list text :=
  let '(p, ps) := re_split_go s 0 in p :: ps.

(** The printable characters of the ASCII and Latin-1 blocks, as
    [str.isprintable] classifies them.  The full table of the
    interpreter is a parameter of the services below; this one
    instantiates it where a computation needs a concrete table. *)
Definition isprintable_latin1 (c : char) : bool :=
  ((32 <=? c) && (c <=? 126) || (161 <=? c) && (c <=? 255) && negb (c =? 173))%Z.

(** [has_run c s]: two adjacent occurrences of [c] somewhere in [s]. *)
Fixpoint has_run (c : char) (s : text) : bool :=
  match s with
  | [] => false
  | x :: r =>
      match r with
      | [] => false
      | y :: _ => ((x =? c) && (y =? c))%Z || has_run c r
      end
  end.

End PyStr.

Import PyStr.

(** ** app/services/pdf_service.py: text cleaning and chunking *)

Module PdfService.

Definition MAX_CHUNK_SIZE : Z := 3000.
Definition MIN_CHUNK_SIZE : Z := 300.
Definition CHUNK_OVERLAP : Z := 300.

Definition code_block_marker : text := [BACKTICK; BACKTICK; BACKTICK].
Definition blank_line : text := [NL; NL].

Section Unicode.

(** [str.isprintable] on one character. *)
Variable isprintable : char -> bool.

Definition clean_text (t : text) : text :=
  let t := sub_runs NL t in
  let t := sub_runs SP t in
  let t := filter (fun c => isprintable c || (c =? NL)%Z) t in
  strip t.

(** [paragraphs = re.split(...)] followed by the comprehension
    [[p.strip() for p in paragraphs if p.strip()]]. *)
Definition paragraphs_of (t : text) : list text :=
  map strip (filter (fun p => negb (is_empty (strip p))) (re_split_blank t)).

(** The loop state: [chunks], [current_chunk], [in_code_block]. *)
Record loop_state := LoopState {
  chunks : list text;
  current_chunk : text;
  in_code_block : bool
}.

Definition flush_or_append (st : loop_state) (icb : bool) (paragraph : text)
  : loop_state :=
  if ((len (current_chunk st) + len paragraph >? MAX_CHUNK_SIZE)
      && (len (current_chunk st) >=? MIN_CHUNK_SIZE))%Z
  then LoopState (chunks st ++ [strip (current_chunk st)]) paragraph icb
  else LoopState (chunks st)
                 (if is_empty (current_chunk st) then paragraph
                  else current_chunk st ++ blank_line ++ paragraph)
                 icb.

(** One iteration of [for paragraph in paragraphs]. *)
Definition loop_body (st : loop_state) (paragraph : text) : loop_state :=
  let icb :=
    if contains code_block_marker paragraph then
      let markers := count code_block_marker paragraph in
      if negb (in_code_block st) && (markers mod 2 =? 1)%Z then true
      else if in_code_block st && (markers mod 2 =? 1)%Z then false
      else in_code_block st
    else in_code_block st in
  if icb || contains code_block_marker paragraph
  then flush_or_append st icb paragraph
  else flush_or_append st icb paragraph.

(** The paragraph pass, up to and including "add the last chunk if
    it's not empty". *)
Definition paragraph_chunks (t : text) : list text :=
  let st := fold_left loop_body (paragraphs_of t) (LoopState [] [] false) in
  if is_empty (current_chunk st) then chunks st
  else chunks st ++ [strip (current_chunk st)].

(** The state of the loop after the paragraphs [done]. *)
Definition regroups (st : loop_state) (done : list text) : Prop :=
  strip (current_chunk st) = current_chunk st
  /\ (done = [] -> chunks st = [] /\ current_chunk st = [])
  /\ (done <> [] ->
      current_chunk st <> []
      /\ join blank_line (chunks st ++ [current_chunk st]) = join blank_line done).

(** The character-based fallback: the bounds [i] and
    [min(i + MAX_CHUNK_SIZE, len(text))] of the slice taken at loop
    index [i0], and the slice. *)
Definition window_bounds (n i0 : Z) : Z * Z :=
  let i := if (i0 >? 0)%Z then (i0 - CHUNK_OVERLAP)%Z else i0 in
  (i, Z.min (i + MAX_CHUNK_SIZE) n).

Definition window (t : text) (i0 : Z) : text :=
  let '(i, j) := window_bounds (len t) i0 in slice t i j.

Definition character_chunks (t : text) : list text :=
  map (window t) (range0 (len t) (MAX_CHUNK_SIZE - CHUNK_OVERLAP)).

Definition split_text_into_chunks (t0 : text) : list text :=
  let t := clean_text t0 in
  if (len t <=? MAX_CHUNK_SIZE)%Z then [t]
  else
    let cs := paragraph_chunks t in
    match cs with
    | [] => character_chunks t
    | _ :: _ => cs
    end.

End Unicode.

End PdfService.

Import PdfService.

(** ** Python results and numpy arrays *)

Module Py.

(** The exceptions the modelled code can raise. *)
Inductive exn :=
| ValueError
| ZeroDivisionError
| OverflowError
| IndexError
| AzureOpenAIConfigError (message : text)
| RuntimeError (message : text).

(** A call either returns a value or raises. *)
Inductive result (A : Type) :=
| Ok (a : A)
| Raise (e : exn).

Arguments Ok {A} a.
Arguments Raise {A} e.

Definition bind {A B : Type} (r : result A) (k : A -> result B) : result B :=
  match r with
  | Ok a => k a
  | Raise e => Raise e
  end.

(** [[f(x) for x in xs]] where [f] may raise: the first exception
    aborts the loop. *)
Fixpoint traverse {A B : Type} (f : A -> result B) (xs : list A)
  : result (list B) :=
  match xs with
  | [] => Ok []
  | x :: rest =>
      bind (f x) (fun y => bind (traverse f rest) (fun ys => Ok (y :: ys)))
  end.

(** [str(n)] for an [int]. *)
Definition str_of_int (n : Z) : text := py (NilEmpty.string_of_int (Z.to_int n)).

(** A floating-point number: numpy's [float32] and Python's [float]
    (binary64) values are both [spec_float]s; [0.0] is the positive zero. *)
Definition float := spec_float.
Definition zero : float := S754_zero false.

(** [x > y] and [x == y] on floats. *)
Definition float_gt (x y : float) : bool := SFltb y x.
Definition float_eq (x y : float) : bool := SFeqb x y.

Inductive dtype := float32 | float64.

(** A one-dimensional [numpy.ndarray]. *)
Record ndarray := NdArray { dt : dtype; data : list float }.

(** [len(l)] for a list of floats. *)
Definition len_float (l : list float) : Z := Z.of_nat (length l).

(** [a.tolist()] and [np.array(l)] for a list of Python floats. *)
Definition tolist (a : ndarray) : list float := data a.
Definition np_array (l : list float) : ndarray := NdArray float64 l.

(** [np.zeros(n, dtype=np.float32)]. *)
Definition np_zeros (n : Z) : result ndarray :=
  if (n <? 0)%Z then Raise ValueError
  else Ok (NdArray float32 (repeat zero (Z.to_nat n))).

(** The numeric kernels of numpy and of the interpreter.  Their
    rounding and their order of summation are those of the installed
    numpy; the services are modelled over any such kernels. *)
Record Numpy := {
  (** [x + ord / 1000.0] stored back into a [float32] cell *)
  iadd_ord : float -> Z -> float;
  (** [np.linalg.norm(a)] *)
  linalg_norm : ndarray -> float;
  (** one cell of [a / s] for an array [a] of the given dtype *)
  divide : dtype -> float -> float -> float;
  (** [np.dot(a, b)] on arrays of equal length *)
  dot : ndarray -> ndarray -> float;
  (** [x * y] and [x / y] on scalars *)
  scalar_mul : float -> float -> float;
  scalar_div : float -> float -> float;
  (** [int(x * 100)] *)
  int_times_100 : float -> result Z
}.

(** [json.dumps] and [json.loads] on lists of floats: [loads] is [None]
    where [json.loads] raises or does not yield a list of numbers, and a
    dumped list loads back unchanged. *)
Record Json := {
  dumps : list float -> text;
  loads : text -> option (list float);
  loads_dumps : forall l, loads (dumps l) = Some l
}.

(** [enumerate(l)]. *)
Definition enumerate {A : Type} (l : list A) : list (Z * A) :=
  combine (map Z.of_nat (seq 0 (length l))) l.

(** [l.sort(key=key, reverse=True)] for keys compared by [ltb]: the
    stable arrangement by descending key.  An element is inserted in
    front of the first element whose key is not greater than its own,
    so elements with equal keys keep their order. *)
Section Sort.

Variables (A K : Type) (ltb : K -> K -> bool) (key : A -> K).

Fixpoint insert_reverse (x : A) (l : list A) : list A :=
  match l with
  | [] => [x]
  | y :: r => if ltb (key x) (key y) then y :: insert_reverse x r
              else x :: y :: r
  end.

Definition sort_reverse (l : list A) : list A :=
  fold_right insert_reverse [] l.

(** No element is followed by one with a greater key. *)
Definition descending (l : list A) : Prop :=
  StronglySorted (fun a b => ltb (key a) (key b) = false) l.

End Sort.

(** [a] occurs in [l] at an earlier position than [b]. *)
Definition before {A : Type} (a b : A) (l : list A) : Prop :=
  exists l1 l2 l3, l = l1 ++ a :: l2 ++ b :: l3.

Definition is_nan (x : float) : bool :=
  match x with
  | S754_nan => true
  | _ => false
  end.

(** [l[i] = v] for an index in range. *)
Fixpoint set_item {A : Type} (l : list A) (i : nat) (v : A) : list A :=
  match l, i with
  | [], _ => []
  | _ :: r, O => v :: r
  | x :: r, S k => x :: set_item r k v
  end.

End Py.

Import Py.

(** ** app/services/embedding_service.py *)

Module EmbeddingService.

Definition DEFAULT_EMBEDDING_DIM : Z := 128.

(** The module-level configuration read from the environment at
    import. *)
Record config := Config {
  EMBEDDING_DIM : Z;
  USE_EXTERNAL_EMBEDDINGS : bool
}.

Definition default_config : config := Config DEFAULT_EMBEDDING_DIM false.

Section Kernels.

Variable np : Numpy.

(** [for i, char in enumerate(text)]: [i] is the index of the head of
    [chars]. *)
Fixpoint accumulate (embedding_dim : Z) (chars : text) (i : Z) (embedding : list float)
  : result (list float) :=
  match chars with
  | [] => Ok embedding
  | c :: rest =>
      if (embedding_dim =? 0)%Z then Raise ZeroDivisionError
      else
        let idx := Z.to_nat (i mod embedding_dim) in
        accumulate embedding_dim rest (i + 1)
          (set_item embedding idx (iadd_ord np (nth idx embedding zero) c))
  end.

(** The body of [for text in texts]. *)
Definition simple_embedding (embedding_dim : Z) (t : text) : result ndarray :=
  bind (np_zeros embedding_dim) (fun embedding =>
  bind (accumulate embedding_dim t 0 (data embedding)) (fun cells =>
  let embedding := NdArray float32 cells in
  let norm := linalg_norm np embedding in
  Ok (if float_gt norm zero
      then NdArray float32 (map (fun x => divide np float32 x norm) cells)
      else embedding))).

Definition get_simple_embeddings (texts : list text) (embedding_dim : Z)
  : result (list ndarray) :=
  traverse (simple_embedding embedding_dim) texts.

Definition get_external_embeddings (texts : list text) (embedding_dim : Z)
  : result (list ndarray) :=
  get_simple_embeddings texts embedding_dim.

Definition get_embeddings (cfg : config) (texts : list text) (embedding_dim : option Z)
  : result (list ndarray) :=
  let dim := match embedding_dim with
             | Some d => if (d =? 0)%Z then EMBEDDING_DIM cfg else d
             | None => EMBEDDING_DIM cfg
             end in
  if USE_EXTERNAL_EMBEDDINGS cfg then
    match get_external_embeddings texts dim with
    | Ok r => Ok r
    | Raise _ => get_simple_embeddings texts dim
    end
  else get_simple_embeddings texts dim.

Definition cosine_similarity (a b : ndarray) : result float :=
  let norm_a := linalg_norm np a in
  let norm_b := linalg_norm np b in
  if float_eq norm_a zero || float_eq norm_b zero then Ok zero
  else if (length (data a) =? length (data b))%nat
       then Ok (scalar_div np (dot np a b) (scalar_mul np norm_a norm_b))
       else Raise ValueError.

End Kernels.

(** The embedder as the specification words it: start from zeros, add
    [ord(char)/1000.0] at position [i mod D] for the character at
    position [i], then divide by the Euclidean norm unless the norm is
    zero. *)
Section Reference.

Variable np : Numpy.
Variable D : Z.

Definition add_at (v : list float) (i : Z) (c : char) : list float :=
  let idx := Z.to_nat (i mod D) in
  set_item v idx (iadd_ord np (nth idx v zero) c).

Definition spec_sums (t : text) : list float :=
  fold_left (fun v ic => add_at v (fst ic) (snd ic))
            (combine (map Z.of_nat (seq 0 (length t))) t)
            (repeat zero (Z.to_nat D)).

(** The norm of the sums is a number that is zero or greater than
    zero (it is not a NaN). *)
Definition ordinary_norm (t : text) : bool :=
  let norm := linalg_norm np (NdArray float32 (spec_sums t)) in
  Bool.eqb (float_gt norm zero) (negb (float_eq norm zero)).

Definition spec_embed (t : text) : list float :=
  let v := spec_sums t in
  let norm := linalg_norm np (NdArray float32 v) in
  if float_eq norm zero then v
  else map (fun x => divide np float32 x norm) v.

End Reference.

End EmbeddingService.

Import EmbeddingService.

(** ** app/models/models.py and the database session *)

Module Models.

Record PDF := MkPDF {
  pdf_id : Z;
  original_filename : text;
  stored_filename : text
}.

Record PDFContent := MkPDFContent {
  content_pdf_id : Z;
  text_content : text
}.

Record PDFChunk := MkPDFChunk {
  chunk_id : Z;
  chunk_pdf_id : Z;
  chunk_text : text;
  chunk_index : Z;
  embedding : text   (* JSON string of embedding vector *)
}.

(** The three tables, each in row order. *)
Record Db := MkDb {
  pdfs : list PDF;
  pdf_contents : list PDFContent;
  pdf_chunks : list PDFChunk
}.

Definition empty_db : Db := MkDb [] [] [].

(** The next value of an autoincremented primary key. *)
Definition next_id (ids : list Z) : Z := (1 + fold_right Z.max 0 ids)%Z.

(** [db.query(PDF).filter(PDF.id == id).first()] and its analogue on
    the contents. *)
Definition find_pdf (db : Db) (id : Z) : option PDF :=
  find (fun p => (pdf_id p =? id)%Z) (pdfs db).

Definition find_content (db : Db) (id : Z) : option PDFContent :=
  find (fun c => (content_pdf_id c =? id)%Z) (pdf_contents db).

Definition chunks_of (db : Db) (id : Z) : list PDFChunk :=
  filter (fun c => (chunk_pdf_id c =? id)%Z) (pdf_chunks db).

End Models.

Import Models.

(** ** app/services/pdf_service.py: persistence *)

Module PdfStore.

Section Collaborators.

Variable js : Json.

(** The two calls [save_pdf_to_db] guards with [try]:
    [split_text_into_chunks(text_content)] and [get_embeddings(chunks)]. *)
Variable chunker : text -> result (list text).
Variable embedder : list text -> result (list ndarray).

(** [json.dumps([0.0] * 10)], the placeholder embedding. *)
Definition placeholder_embedding : text := dumps js (repeat zero 10).

(** The [PDFChunk] rows added for a document, as (text, index,
    embedding) before their keys are assigned. *)
Definition chunk_rows (text_content : text) : list (text * Z * text) :=
  match chunker text_content with
  | Ok chunks =>
      match embedder chunks with
      | Ok embeddings =>
          map (fun ice => let '(i, (chunk, e)) := ice in
                          (chunk, i, dumps js (tolist e)))
              (enumerate (combine chunks embeddings))
      | Raise _ =>
          map (fun ic => (snd ic, fst ic, placeholder_embedding))
              (enumerate chunks)
      end
  | Raise _ =>
      [(if (len text_content >? 1000)%Z then slice text_content 0 1000
        else text_content,
        0%Z, placeholder_embedding)]
  end.

(** The rows with their keys, assigned in order from [first]. *)
Fixpoint add_chunks (pdf : Z) (first : Z) (rows : list (text * Z * text))
  : list PDFChunk :=
  match rows with
  | [] => []
  | (t, i, e) :: rest =>
      MkPDFChunk first pdf t i e :: add_chunks pdf (first + 1) rest
  end.

(** The text stored for a document: a placeholder replaces an empty or
    blank extraction. *)
Definition stored_text (original_filename text_content : text) : text :=
  if is_empty text_content || is_empty (strip text_content)
  then py "No text could be extracted from this file: " ++ original_filename
  else text_content.

(** The chunks a call adds to the table. *)
Definition new_chunks (db : Db) (original_filename text_content : text)
  : list PDFChunk :=
  add_chunks (next_id (map pdf_id (pdfs db)))
             (next_id (map chunk_id (pdf_chunks db)))
             (chunk_rows (stored_text original_filename text_content)).

Definition save_pdf_to_db (db : Db) (original_filename stored_filename text_content : text)
  : Db * Z :=
  let id := next_id (map pdf_id (pdfs db)) in
  let pdf := MkPDF id original_filename stored_filename in
  let pdf_content :=
    MkPDFContent id (stored_text original_filename text_content) in
  (MkDb (pdfs db ++ [pdf])
        (pdf_contents db ++ [pdf_content])
        (pdf_chunks db ++ new_chunks db original_filename text_content),
   id).

End Collaborators.

(** The function as the application wires it: the chunker and the
    embedder of the services above. *)
Definition app_chunker (isprintable : char -> bool) : text -> result (list text) :=
  fun t => Ok (split_text_into_chunks isprintable t).

Definition app_embedder (np : Numpy) (cfg : config) : list text -> result (list ndarray) :=
  fun chunks => get_embeddings np cfg chunks None.

Definition save_pdf_to_db_app (isprintable : char -> bool) (np : Numpy)
  (cfg : config) (js : Json) :=
  save_pdf_to_db js (app_chunker isprintable) (app_embedder np cfg).

(** The dimension a stored embedding deserializes to. *)
Definition stored_dimension (js : Json) (c : PDFChunk) : option Z :=
  option_map len_float (loads js (embedding c)).

End PdfStore.

Import PdfStore.

(** ** app/services/qa_service.py and the [/search] route of app/main.py *)

Module QaService.

Definition TOP_K_CHUNKS : nat := 3.

(** The literal [0.3], a binary64 number. *)
Definition threshold : float := S754_finite false 5404319552844595 (-54).

Definition no_pdf_content : text :=
  py "No PDF content available to answer questions. Please upload a PDF first.".

Definition no_relevant_information : text :=
  py "I couldn't find any relevant information in the uploaded PDFs.".

Section Services.

Variable np : Numpy.
Variable cfg : config.
Variable js : Json.

(** The body of [for chunk in chunks] with its [try]: the embedding is
    parsed and scored, and a chunk for which either step raises is
    logged and skipped. *)
Definition score_chunk (question_embedding : ndarray) (chunk : PDFChunk)
  : option float :=
  match loads js (embedding chunk) with
  | None => None
  | Some l =>
      match cosine_similarity np question_embedding (np_array l) with
      | Ok score => Some score
      | Raise _ => None
      end
  end.

Definition score_chunks (question_embedding : ndarray) (chunks : list PDFChunk)
  : list (PDFChunk * float) :=
  flat_map (fun chunk => match score_chunk question_embedding chunk with
                         | Some score => [(chunk, score)]
                         | None => []
                         end) chunks.

(** [chunk_scores.sort(key=lambda x: x[1], reverse=True)] followed by
    [chunk_scores[:TOP_K_CHUNKS]]. *)
Definition rank (chunk_scores : list (PDFChunk * float)) : list (PDFChunk * float) :=
  sort_reverse SFltb snd chunk_scores.

Definition top_chunks_of (question_embedding : ndarray) (chunks : list PDFChunk)
  : list (PDFChunk * float) :=
  firstn TOP_K_CHUNKS (rank (score_chunks question_embedding chunks)).

Definition answer_body (best_chunk : PDFChunk) (confidence : Z) : text :=
  [NL; NL] ++ chunk_text best_chunk ++ [NL; NL] ++ py "Source: PDF #"
  ++ str_of_int (chunk_pdf_id best_chunk) ++ [NL] ++ py "Confidence: "
  ++ str_of_int confidence ++ py "%".

Definition generate_answer (question : text) (top_chunks : list (PDFChunk * float))
  : result text :=
  match top_chunks with
  | [] => Raise IndexError
  | (best_chunk, best_score) :: _ =>
      bind (int_times_100 np best_score) (fun confidence =>
      Ok (if (confidence >=? 70)%Z then
            py "Based on the PDF content, I found this information:"
            ++ answer_body best_chunk confidence
          else if (confidence >=? 40)%Z then
            py "I'm not entirely sure, but here's what I found in the PDF:"
            ++ answer_body best_chunk confidence
          else
            py "I couldn't find a definitive answer, but this might be relevant:"
            ++ answer_body best_chunk confidence))
  end.

Definition answer_question (db : Db) (question : text) : result text :=
  bind (get_embeddings np cfg [question] None) (fun embeddings =>
  match embeddings with
  | [] => Raise IndexError
  | question_embedding :: _ =>
      match pdf_chunks db with
      | [] => Ok no_pdf_content
      | chunks =>
          match top_chunks_of question_embedding chunks with
          | [] => Ok no_relevant_information
          | top_chunks => generate_answer question top_chunks
          end
      end
  end).

(** *** The [/search] route *)

Record search_result := MkSearchResult {
  result_pdf_id : Z;
  result_pdf_name : text;
  result_chunk_index : Z;
  result_chunk_text : text;
  result_score : float
}.

Inductive search_response :=
| BadRequest (message : text)
| NoDocuments
| Found (top_results : list search_result) (total_results : Z)
| ServerError (e : exn).

Definition search_result_of (db : Db) (chunk : PDFChunk) (score : float)
  : search_result :=
  MkSearchResult
    (chunk_pdf_id chunk)
    (match find_pdf db (chunk_pdf_id chunk) with
     | Some pdf => original_filename pdf
     | None => py "PDF #" ++ str_of_int (chunk_pdf_id chunk)
     end)
    (chunk_index chunk)
    (if (len (chunk_text chunk) >? 200)%Z
     then slice (chunk_text chunk) 0 200 ++ py "..."
     else chunk_text chunk)
    score.

Definition search_results (db : Db) (query_embedding : ndarray)
  : list search_result :=
  flat_map (fun chunk =>
              match score_chunk query_embedding chunk with
              | Some score =>
                  if float_gt score threshold
                  then [search_result_of db chunk score] else []
              | None => []
              end) (pdf_chunks db).

Definition rank_results (results : list search_result) : list search_result :=
  sort_reverse SFltb result_score results.

Definition search_pdfs (db : Db) (query : text) : search_response :=
  if is_empty query || (len query <? 3)%Z
  then BadRequest (py "Search query must be at least 3 characters")
  else
    match get_embeddings np cfg [query] None with
    | Raise e => ServerError e
    | Ok [] => ServerError IndexError
    | Ok (query_embedding :: _) =>
        match pdf_chunks db with
        | [] => NoDocuments
        | _ :: _ =>
            let results := rank_results (search_results db query_embedding) in
            Found (firstn 10 results) (Z.of_nat (length results))
        end
    end.

End Services.

End QaService.

Import QaService.

(** ** app/services/azure_openai_client.py *)

Module AzureClient.

Section Environment.

(** [os.environ.get]. *)
Variable environ : text -> option text.

Fixpoint _env_first (names : list text) : option text :=
  match names with
  | [] => None
  | name :: rest =>
      match environ name with
      | Some val => if is_empty (strip val) then _env_first rest
                    else Some (strip val)
      | None => _env_first rest
      end
  end.

Record azure_config := MkAzureConfig {
  api_key : text;
  base_url : text;
  api_version : text;
  deployment : text
}.

(** [not v] for an optional string. *)
Definition falsy (v : option text) : bool :=
  match v with
  | None => true
  | Some s => is_empty s
  end.

(** The string held by a variable known not to be [None]. *)
Definition value (v : option text) : text :=
  match v with
  | Some s => s
  | None => []
  end.

(** [a or b]. *)
Definition py_or (a b : option text) : option text :=
  if falsy a then b else a.

Definition config_error_message (missing : list text) : text :=
  py "Missing required Azure OpenAI env var(s): " ++ join (py ", ") missing.

Definition _get_azure_config : result azure_config :=
  let api_key :=
    _env_first [py "LLM_API_KEY"; py "AZURE_OPENAI_API_KEY"; py "OPENAI_API_KEY"] in
  let base_url :=
    _env_first [py "LLM_AZURE_BASE_URL"; py "AZURE_OPENAI_ENDPOINT";
                py "AZURE_OPENAI_BASE_URL"] in
  let api_version :=
    py_or (_env_first [py "LLM_AZURE_API_VERSION"; py "AZURE_OPENAI_API_VERSION"])
          (Some (py "2024-02-01")) in
  let deployment :=
    _env_first [py "LLM_AZURE_DEPLOYMENT"; py "AZURE_OPENAI_DEPLOYMENT"] in
  let missing :=
    map fst (filter (fun kv => falsy (snd kv))
                    [(py "LLM_API_KEY", api_key);
                     (py "LLM_AZURE_BASE_URL", base_url);
                     (py "LLM_AZURE_DEPLOYMENT", deployment)]) in
  match missing with
  | _ :: _ => Raise (AzureOpenAIConfigError (config_error_message missing))
  | [] => Ok (MkAzureConfig (value api_key) (value base_url)
                            (value api_version) (value deployment))
  end.

(** The HTTP exchange of [chat_completion_sync], from the configuration
    and the prompt to the completion text. *)
Variable post : azure_config -> text -> result text.

Definition chat_completion_sync (prompt : text) : result text :=
  bind _get_azure_config (fun cfg => post cfg prompt).

End Environment.

End AzureClient.

Import AzureClient.

(** ** app/services/gemini_service.py: [answer_question_with_ai] *)

Module GeminiService.

Inductive sources :=
| SourceLabel (label : text)
| SourceTitles (titles : list text).

(** The dictionaries the function returns: [success] true with an
    answer, or [success] false with a message. *)
Inductive response :=
| Success (answer : text) (src : sources) (sources_count : Z)
          (is_conversational : bool) (previous_answer : text)
| Failure (message : text).

Definition services_not_available : text :=
  py "AI services not available. Configure LLM_API_KEY, LLM_AZURE_BASE_URL, and LLM_AZURE_DEPLOYMENT.".

Definition followup_apology : text :=
  py "I apologize, but I'm having trouble generating a better answer. Let me try a different approach to help you with your question.".

Definition pdf_not_found (id : Z) : text :=
  py "The requested PDF (ID: " ++ str_of_int id ++ py ") was not found.".

Definition pdf_without_content (id : Z) : text :=
  py "The PDF (ID: " ++ str_of_int id ++ py ") has no extractable content.".

Definition no_pdfs_uploaded : text :=
  py "No PDFs have been uploaded. Please upload PDFs first to enable document-based answers.".

Definition no_pdf_content_available : text :=
  py "No PDF content available to answer questions. Please upload PDFs with text content.".

Definition stop_words : list text :=
  map py ["the"; "a"; "is"; "are"; "in"; "on"; "of"; "and"; "or"; "to"; "for";
          "with"; "about"; "what"; "how"; "why"; "when"; "where"; "who";
          "which"]%string.

Definition not_found_phrases : list text :=
  map py ["i don't have enough information"; "i cannot find"; "not contain";
          "does not contain"; "doesn't contain"; "not in the provided";
          "not mentioned"; "not included"; "no information about";
          "cannot answer"]%string.

Definition chunk_delimiter : text := [NL; NL] ++ py "---" ++ [NL; NL].

Definition exn_message (e : exn) : text :=
  match e with
  | AzureOpenAIConfigError m | RuntimeError m => m
  | ValueError => py "ValueError"
  | ZeroDivisionError => py "division by zero"
  | OverflowError => py "OverflowError"
  | IndexError => py "list index out of range"
  end.

Section Service.

Variable environ : text -> option text.
Variable post : azure_config -> text -> result text.

(** [str.lower]. *)
Variable lower : text -> text.

(** The prompt templates and the helpers of the module that the
    retrieval does not depend on: formatting of an answer, the
    general-knowledge handlers used when no document exists, and the
    second and third answer passes over sampled document text. *)
Variable followup_prompt : text -> text -> text.
Variable chunks_prompt : text -> text -> list text -> text.
Variable format_code_blocks : text -> text.
Variable add_thinking_effect : text -> text.
Variable clean_response : text -> text -> text.
Variable detect_simplification_request : text -> bool.
Variable simplify_complex_answer : text -> text -> text.
Variable is_tech_question : text -> bool.
Variable handle_tech_question : text -> option response.
Variable handle_conversational_query : text -> option response.
Variable full_content_answer : text -> list text -> list text -> bool -> result text.

Definition _llm_configured : bool :=
  let api_key := py_or (py_or (environ (py "LLM_API_KEY"))
                              (environ (py "AZURE_OPENAI_API_KEY")))
                       (environ (py "OPENAI_API_KEY")) in
  let base_url := py_or (py_or (environ (py "LLM_AZURE_BASE_URL"))
                               (environ (py "AZURE_OPENAI_ENDPOINT")))
                        (environ (py "AZURE_OPENAI_BASE_URL")) in
  let deployment := py_or (environ (py "LLM_AZURE_DEPLOYMENT"))
                          (environ (py "AZURE_OPENAI_DEPLOYMENT")) in
  negb (falsy api_key) && negb (falsy base_url) && negb (falsy deployment).

Definition llm_available : bool := _llm_configured.

(** A required setting is absent: each of its accepted variables is
    unset or empty. *)
Definition setting_absent (names : list text) : bool :=
  forallb (fun name => falsy (environ name)) names.

Definition unconfigured : bool :=
  setting_absent [py "LLM_API_KEY"; py "AZURE_OPENAI_API_KEY"; py "OPENAI_API_KEY"]
  || setting_absent [py "LLM_AZURE_BASE_URL"; py "AZURE_OPENAI_ENDPOINT";
                     py "AZURE_OPENAI_BASE_URL"]
  || setting_absent [py "LLM_AZURE_DEPLOYMENT"; py "AZURE_OPENAI_DEPLOYMENT"].

Definition _llm_generate (prompt : text) : result text :=
  chat_completion_sync environ post prompt.

Definition generate_followup_answer (question previous_answer : text) : text :=
  match _llm_generate (followup_prompt question previous_answer) with
  | Ok improved_answer => add_thinking_effect (format_code_blocks improved_answer)
  | Raise _ => followup_apology
  end.

(** *** Keyword-overlap retrieval *)

Definition extract_keywords (question : text) : list text :=
  filter (fun word => negb (existsb (text_eqb word) stop_words)
                      && (len word >? 2)%Z)
         (split (lower question)).

(** [any(keyword in chunk_text for keyword in keywords)] on the
    lower-cased chunk text. *)
Definition any_keyword (keywords : list text) (chunk_text : text) : bool :=
  existsb (fun keyword => contains keyword (lower chunk_text)) keywords.

Definition relevant_chunks_of (keywords : list text) (chunks : list PDFChunk)
  : list (text * Z) :=
  map (fun chunk => (chunk_text chunk, chunk_pdf_id chunk))
      (filter (fun chunk => any_keyword keywords (chunk_text chunk)) chunks).

(** The sort key [sum(keyword in chunk[0].lower() for keyword in keywords)]. *)
Definition relevance (keywords : list text) (chunk : text * Z) : Z :=
  fold_right Z.add 0%Z
    (map (fun keyword => Z.b2z (contains keyword (lower (fst chunk)))) keywords).

Definition ranked_chunks (keywords : list text) (relevant_chunks : list (text * Z))
  : list (text * Z) :=
  sort_reverse Z.ltb (relevance keywords) relevant_chunks.

Definition top_chunks (keywords : list text) (relevant_chunks : list (text * Z))
  : list text :=
  map fst (firstn 8 (ranked_chunks keywords relevant_chunks)).

Definition combined_content (keywords : list text) (relevant_chunks : list (text * Z))
  : text :=
  join chunk_delimiter (top_chunks keywords relevant_chunks).

(** The chunks in scope: those of one document, or all of them. *)
Definition scope_chunks (db : Db) (pdf_id : option Z) : list PDFChunk :=
  match pdf_id with
  | Some id => chunks_of db id
  | None => pdf_chunks db
  end.

(** The primary context built for a question and a scope. *)
Definition primary_context (db : Db) (question : text) (pdf_id : option Z) : text :=
  let keywords := extract_keywords question in
  combined_content keywords (relevant_chunks_of keywords (scope_chunks db pdf_id)).

(** The keywords of the list found in a chunk text, and the number of
    distinct ones among them. *)
Definition matching_keywords (keywords : list text) (chunk_text : text) : list text :=
  filter (fun keyword => contains keyword (lower chunk_text)) keywords.

Fixpoint distinct (l : list text) : list text :=
  match l with
  | [] => []
  | x :: r => if existsb (text_eqb x) r then distinct r else x :: distinct r
  end.

Definition distinct_matches (keywords : list text) (chunk : text * Z) : Z :=
  Z.of_nat (length (distinct (matching_keywords keywords (fst chunk)))).

(** *** The answer passes *)

Definition info_not_found (answer : text) : bool :=
  existsb (fun phrase => contains phrase (lower answer)) not_found_phrases.

(** The [try] block: the first pass over the keyword context, then the
    passes over sampled text. *)
Definition answer_text_of (question : text) (keywords : list text)
  (pdf_contents pdf_titles : list text) (relevant_chunks : list (text * Z))
  : result text :=
  match relevant_chunks with
  | _ :: _ =>
      let prompt :=
        chunks_prompt question (combined_content keywords relevant_chunks) pdf_titles in
      match _llm_generate prompt with
      | Ok chunks_answer =>
          if info_not_found chunks_answer
          then full_content_answer question pdf_contents pdf_titles true
          else Ok chunks_answer
      | Raise _ => full_content_answer question pdf_contents pdf_titles true
      end
  | [] => full_content_answer question pdf_contents pdf_titles false
  end.

Definition many_words_and_question_mark (question : text) : bool :=
  (len_words (split question) >? 3)%Z && contains (py "?") question.

Definition finish (question answer_text : text) (pdf_titles : list text) : response :=
  let answer_text := format_code_blocks (clean_response answer_text question) in
  let answer_text :=
    if many_words_and_question_mark question
    then add_thinking_effect answer_text else answer_text in
  let n := Z.of_nat (length pdf_titles) in
  if detect_simplification_request question
  then Success (simplify_complex_answer answer_text question)
               (SourceTitles pdf_titles) n false answer_text
  else Success answer_text (SourceTitles pdf_titles) n false answer_text.

(** The handlers tried when there is nothing to search. *)
Definition without_documents (question message : text) : response :=
  match (if is_tech_question question then handle_tech_question question
         else None) with
  | Some tech_response => tech_response
  | None =>
      match handle_conversational_query question with
      | Some conversational_response => conversational_response
      | None => Failure message
      end
  end.

Definition answer_from_documents (question : text) (keywords : list text)
  (pdf_contents pdf_titles : list text) (relevant_chunks : list (text * Z))
  : response :=
  match pdf_contents with
  | [] => without_documents question no_pdf_content_available
  | _ :: _ =>
      match answer_text_of question keywords pdf_contents pdf_titles relevant_chunks with
      | Ok answer_text => finish question answer_text pdf_titles
      | Raise (AzureOpenAIConfigError _) => Failure services_not_available
      | Raise e => Failure (py "Error generating answer: " ++ exn_message e)
      end
  end.

Definition answer_question_with_ai (db : Db) (question : text) (pdf_id : option Z)
  (is_followup : bool) (previous_answer : option text) : response :=
  if is_followup && negb (falsy previous_answer) then
    let improved_answer := generate_followup_answer question (value previous_answer) in
    Success improved_answer (SourceLabel (py "Follow-up Enhancement")) 0 true
            improved_answer
  else if negb llm_available then Failure services_not_available
  else
    let keywords := extract_keywords question in
    match pdf_id with
    | Some id =>
        match find_pdf db id with
        | None => Failure (pdf_not_found id)
        | Some pdf =>
            match find_content db id with
            | None => Failure (pdf_without_content id)
            | Some pdf_content =>
                if is_empty (text_content pdf_content)
                then Failure (pdf_without_content id)
                else
                  answer_from_documents question keywords
                    [text_content pdf_content] [original_filename pdf]
                    (relevant_chunks_of keywords (chunks_of db id))
            end
        end
    | None =>
        match pdfs db with
        | [] => without_documents question no_pdfs_uploaded
        | all_pdfs =>
            let with_content :=
              flat_map (fun pdf =>
                          match find_content db (Models.pdf_id pdf) with
                          | Some c => if is_empty (text_content c) then []
                                      else [(text_content c, original_filename pdf)]
                          | None => []
                          end) all_pdfs in
            answer_from_documents question keywords
              (map fst with_content) (map snd with_content)
              (relevant_chunks_of keywords (pdf_chunks db))
        end
    end.

End Service.

End GeminiService.

Import GeminiService.

(** ** Concrete collaborators

    Instances of the parameters above, on which the model runs: IEEE-754
    kernels that sum from left to right, a serializer with the
    round-trip property, and the ASCII part of [str.lower]. *)

Module Sample.

Definition of_Z64 (z : Z) : float := binary_normalize 53 1024 z 0 false.

(** A binary64 number rounded to binary32. *)
Definition to32 (x : float) : float :=
  match x with
  | S754_finite s m e => binary_normalize 24 128 (cond_Zopp s (Zpos m)) e s
  | _ => x
  end.

Definition prec_of (d : dtype) : Z :=
  match d with float32 => 24%Z | float64 => 53%Z end.

Definition emax_of (d : dtype) : Z :=
  match d with float32 => 128%Z | float64 => 1024%Z end.

Definition sample_iadd_ord (x : float) (c : Z) : float :=
  SFadd 24 128 x (to32 (SFdiv 53 1024 (of_Z64 c) (of_Z64 1000))).

Definition sample_norm (a : ndarray) : float :=
  let p := prec_of (dt a) in
  let e := emax_of (dt a) in
  SFsqrt p e (fold_left (fun acc x => SFadd p e acc (SFmul p e x x)) (data a) zero).

Definition sample_dot (a b : ndarray) : float :=
  fold_left (fun acc xy => SFadd 53 1024 acc (SFmul 53 1024 (fst xy) (snd xy)))
            (combine (data a) (data b)) zero.

Definition sample_int_times_100 (x : float) : result Z :=
  match SFmul 53 1024 x (of_Z64 100) with
  | S754_nan => Raise ValueError
  | S754_infinity _ => Raise OverflowError
  | S754_zero _ => Ok 0%Z
  | S754_finite s m e =>
      Ok (cond_Zopp s (if (0 <=? e)%Z then Zpos m * 2 ^ e
                       else Zpos m / 2 ^ (- e)))%Z
  end.

Definition sample_numpy : Numpy :=
  {| iadd_ord := sample_iadd_ord;
     linalg_norm := sample_norm;
     divide := fun d x s => SFdiv (prec_of d) (emax_of d) x s;
     dot := sample_dot;
     scalar_mul := SFmul 53 1024;
     scalar_div := SFdiv 53 1024;
     int_times_100 := sample_int_times_100 |}.

(** The serializer writes four numbers per float. *)
Definition encode_float (x : float) : text :=
  match x with
  | S754_zero s => [0; Z.b2z s; 0; 0]
  | S754_infinity s => [1; Z.b2z s; 0; 0]
  | S754_nan => [2; 0; 0; 0]
  | S754_finite s m e => [3; Z.b2z s; Zpos m; e]
  end%Z.

Definition decode_float (tag s m e : Z) : option float :=
  match tag, m with
  | 0, _ => Some (S754_zero (s =? 1))
  | 1, _ => Some (S754_infinity (s =? 1))
  | 2, _ => Some S754_nan
  | 3, Zpos p => Some (S754_finite (s =? 1) p e)
  | _, _ => None
  end%Z.

Definition sample_dumps (l : list float) : text := flat_map encode_float l.

Fixpoint sample_loads (t : text) : option (list float) :=
  match t with
  | [] => Some []
  | tag :: s :: m :: e :: rest =>
      match decode_float tag s m e, sample_loads rest with
      | Some x, Some l => Some (x :: l)
      | _, _ => None
      end
  | _ => None
  end.

Lemma sample_loads_dumps (l : list float) : sample_loads (sample_dumps l) = Some l.
Proof.
  induction l as [|x l IH]; [reflexivity|].
  destruct x as [s|s| |s m e]; simpl; rewrite IH; try reflexivity;
    destruct s; reflexivity.
Qed.

Definition sample_json : Json :=
  {| dumps := sample_dumps; loads := sample_loads;
     loads_dumps := sample_loads_dumps |}.

Definition lower_ascii (s : text) : text :=
  map (fun c => if ((65 <=? c) && (c <=? 90))%Z then (c + 32)%Z else c) s.

(** An environment with no variable set, an environment whose API key
    is a blank string, a generator that echoes its prompt, and trivial
    helpers. *)
Definition empty_environ : text -> option text := fun _ => None.

Definition blank_key_environ : text -> option text :=
  fun name =>
    if text_eqb name (py "LLM_API_KEY") then Some (py " ")
    else if text_eqb name (py "LLM_AZURE_BASE_URL") then Some (py "https://example.test")
    else if text_eqb name (py "LLM_AZURE_DEPLOYMENT") then Some (py "gpt")
    else None.

Definition echo : azure_config -> text -> result text := fun _ prompt => Ok prompt.

Definition sample_answer_question_with_ai (environ : text -> option text) :=
  answer_question_with_ai environ echo lower_ascii
    (fun question previous_answer => question ++ previous_answer)
    (fun question context _ => question ++ context)
    (fun answer => answer) (fun answer => answer) (fun answer _ => answer)
    (fun _ => false) (fun answer _ => answer)
    (fun _ => false) (fun _ => None) (fun _ => None)
    (fun question _ _ _ => Ok question).

End Sample.

Import Sample.

(** ** Inputs of the examples *)

(** ["A" * 4000]. *)
Definition A4000 : text := repeat 65%Z 4000.

(** ["a" * 2000 + "\n \n" + "b" * 2000]. *)
Definition two_paragraphs : text :=
  repeat 97%Z 2000 ++ [NL; SP; NL] ++ repeat 98%Z 2000.

(** ["a\n\r\nb"]. *)
Definition crlf_text : text := py "a" ++ [NL; 13%Z; NL] ++ py "b".

Definition sample_texts : list text := [py "ab"; []; py "hello world"; py "ab"].

(** An embedding backend that raises. *)
Definition failing_embedder : list text -> result (list ndarray) :=
  fun _ => Raise (RuntimeError (py "embedding backend unavailable")).

(** A first document saved by the application with the default
    configuration, and a second one saved while the embedder raises. *)
Definition db_after_first_save : Db :=
  fst (save_pdf_to_db_app isprintable_latin1 sample_numpy default_config
         sample_json empty_db (py "a.pdf") (py "stored-a") (py "hello world")).

Definition db_after_second_save : Db :=
  fst (save_pdf_to_db sample_json (app_chunker isprintable_latin1)
         failing_embedder db_after_first_save
         (py "b.pdf") (py "stored-b") (py "second document")).

(** Three chunks, the first and the third with the same embedding. *)
Definition tie_db : Db :=
  MkDb [] []
    [MkPDFChunk 1 1 (py "first") 0 (sample_dumps [Sample.of_Z64 1; Sample.of_Z64 2]);
     MkPDFChunk 2 1 (py "second") 1 (sample_dumps [Sample.of_Z64 2; Sample.of_Z64 1]);
     MkPDFChunk 3 2 (py "third") 0 (sample_dumps [Sample.of_Z64 1; Sample.of_Z64 2])].

Definition two_dimensions : config := Config 2 false.

(** Two chunks whose stored embeddings are not serialized vectors. *)
Definition unparsable_db : Db :=
  MkDb [] []
    [MkPDFChunk 1 1 (py "first") 0 (py "not json");
     MkPDFChunk 2 1 (py "second") 1 (py "[")].

(** A question that repeats a keyword, and two chunks: one holds the
    repeated keyword, the other the two remaining keywords. *)
Definition tax_question : text := py "tax tax tax growth profit".

Definition tax_db : Db :=
  MkDb [] []
    [MkPDFChunk 1 1 (py "Tax law") 0 [];
     MkPDFChunk 2 1 (py "growth and profit") 1 []].

(* ------------------------------------------------------------------ *)
(** ** Further code of the services and of the routes                  *)
(* ------------------------------------------------------------------ *)

(** ** Python strings: separators, suffixes, searches and URL quoting *)

Module PyStrExt.

Definition SLASH : char := 47%Z.
Definition TAB : char := 9%Z.
Definition DOT : char := 46%Z.

(** [s.endswith(suf)]. *)
Definition endswith (suf s : text) : bool :=
  (length suf <=? length s)%nat
  && text_eqb (skipn (length s - length suf) s) suf.

(** [s[-n:]] and [s[:-n]] for a positive [n]. *)
Definition last_chars (n : nat) (s : text) : text := skipn (length s - n) s.
Definition drop_last (n : nat) (s : text) : text := firstn (length s - n) s.

(** [s.find(sub)]: the index of the first occurrence of [sub], [-1]
    when there is none; [find_from sub s i] searches [s], whose head has
    index [i]. *)
Fixpoint find_from (sub s : text) (i : Z) : Z :=
  if startswith sub s then i
  else match s with
       | [] => (-1)%Z
       | _ :: r => find_from sub r (i + 1)
       end.

Definition str_find (sub s : text) : Z := find_from sub s 0.

(** [s.rstrip(chars)]: the longest suffix made of characters of [chars]
    is removed. *)
Fixpoint rstrip_chars (chars s : text) : text :=
  match s with
  | [] => []
  | c :: r =>
      match rstrip_chars chars r with
      | [] => if existsb (Z.eqb c) chars then [] else [c]
      | t => c :: t
      end
  end.

(** [s.split(sep)] for a non-empty [sep]: the pieces between the
    occurrences of [sep], found from the left without overlap.
    [split_on_go sep s skip] is the piece that starts [s] and the pieces
    that follow it; [skip] counts the characters of the separator found
    last that are still to be dropped. *)
Fixpoint split_on_go (sep s : text) (skip : nat) : text * list text :=
  match s with
  | [] => ([], [])
  | c :: r =>
      match skip with
      | S k => split_on_go sep r k
      | O =>
          if startswith sep s
          then let '(p, ps) := split_on_go sep r (length sep - 1) in ([], p :: ps)
          else let '(p, ps) := split_on_go sep r 0 in (c :: p, ps)
      end
  end.

Definition split_on (sep s : text) : list text :=
  let '(p, ps) := split_on_go sep s 0 in p :: ps.

(** [s.encode('utf-8')], one character at a time.  A surrogate code
    point has no encoding: [UnicodeEncodeError], a [ValueError].  Every
    [str] is made of code points below [0x110000]. *)
Definition utf8_char (c : char) : result (list Z) :=
  (if c <? 0 then Raise ValueError
   else if c <? 128 then Ok [c]
   else if c <? 2048 then Ok [192 + c / 64; 128 + c mod 64]
   else if c <? 65536 then
     if (55296 <=? c) && (c <=? 57343) then Raise ValueError
     else Ok [224 + c / 4096; 128 + (c / 64) mod 64; 128 + c mod 64]
   else if c <? 1114112 then
     Ok [240 + c / 262144; 128 + (c / 4096) mod 64; 128 + (c / 64) mod 64;
         128 + c mod 64]
   else Raise ValueError)%Z.

Definition utf8_encode (s : text) : result (list Z) :=
  bind (traverse utf8_char s) (fun chunks => Ok (concat chunks)).

(** [urllib.parse.quote_plus(s)]: the bytes of the UTF-8 encoding, the
    unreserved ones ([A-Za-z0-9_.-~]) as they are, a space as [+], any
    other byte as [%XX] in upper-case hexadecimal. *)
Definition unreserved (b : Z) : bool :=
  ((65 <=? b) && (b <=? 90) || (97 <=? b) && (b <=? 122)
   || (48 <=? b) && (b <=? 57)
   || (b =? 95) || (b =? 46) || (b =? 45) || (b =? 126))%Z.

Definition hex_digit (d : Z) : char :=
  (if d <? 10 then 48 + d else 55 + d)%Z.

Definition quote_byte (b : Z) : text :=
  if unreserved b then [b]
  else if (b =? 32)%Z then [43%Z]
  else [37%Z; hex_digit (b / 16); hex_digit (b mod 16)].

Definition quote_plus (s : text) : result text :=
  bind (utf8_encode s) (fun bytes => Ok (flat_map quote_byte bytes)).

(** [re.findall(r'\b[a-zA-Z]{4,}\b', s)].  [\w] is a parameter: the
    characters [str.isalnum] accepts, and the underscore.  At a position
    that a word boundary precedes, the longest run of ASCII letters is
    tried first and shortened until a word boundary follows it; the scan
    resumes after a match, or one character further. *)
Section Words.

Variable isalnum : char -> bool.

Definition isword (c : char) : bool := isalnum c || (c =? 95)%Z.

Definition ascii_letter (c : char) : bool :=
  ((65 <=? c) && (c <=? 90) || (97 <=? c) && (c <=? 122))%Z.

(** A word boundary between a character that is a word character or
    not ([before]) and the head of [s]. *)
Definition boundary (before : bool) (s : text) : bool :=
  xorb before (match s with [] => false | c :: _ => isword c end).

(** The length of the match of [[a-zA-Z]{4,}\b] at the head of [s]:
    [letters_match s] is the greatest length [k >= 1] of a run of
    letters at the head of [s] after which a word boundary follows,
    when there is one. *)
Fixpoint letters_match (s : text) : option nat :=
  match s with
  | [] => None
  | c :: r =>
      if ascii_letter c then
        match letters_match r with
        | Some k => Some (S k)
        | None => if boundary (isword c) r then Some 1%nat else None
        end
      else None
  end.

(** [findall_go s before skip]: the matches found in [s]; [before]
    tells whether the character in front of [s] is a word character and
    [skip] counts the characters of the match found last that are still
    to be passed. *)
Fixpoint findall_go (s : text) (before : bool) (skip : nat) : list text :=
  match s with
  | [] => []
  | c :: r =>
      match skip with
      | S k => findall_go r (isword c) k
      | O =>
          match (if boundary before s then letters_match s else None) with
          | Some k =>
              if (4 <=? k)%nat
              then firstn k s :: findall_go r (isword c) (k - 1)
              else findall_go r (isword c) 0
          | None => findall_go r (isword c) 0
          end
      end
  end.

Definition findall_words (s : text) : list text := findall_go s false 0.

(** [re.sub(r'\W+', '', s)]. *)
Definition sub_nonword (s : text) : text := filter isword s.

End Words.

(** [str.isalnum] on the ASCII block. *)
Definition isalnum_ascii (c : char) : bool :=
  ascii_letter c || ((48 <=? c) && (c <=? 57))%Z.

End PyStrExt.

Import PyStrExt.

(** ** app/services/azure_openai_client.py: the request URL *)

Module AzureUrl.

Definition deployments_path : text := py "/openai/deployments/".

(** [urllib.parse.urlencode] on a dictionary of strings. *)
Definition urlencode (query : list (text * text)) : result text :=
  bind (traverse (fun kv =>
                    bind (quote_plus (fst kv)) (fun k =>
                    bind (quote_plus (snd kv)) (fun v =>
                    Ok (k ++ py "=" ++ v)))) query)
       (fun pairs => Ok (join (py "&") pairs)).

(** The resource root the function derives from [base_url]: the value
    of [base] when the path is built. *)
Definition normalised_base (base_url : text) : text :=
  let base := rstrip_chars (py "/") (strip base_url) in
  let base := if contains deployments_path base
              then hd [] (split_on deployments_path base)
              else base in
  let base := if endswith (py "/openai") base
              then drop_last (length (py "/openai")) base
              else base in
  base.

Definition _build_azure_chat_completions_url (base_url deployment api_version : text)
  : result text :=
  let base := normalised_base base_url in
  let path := base ++ deployments_path ++ deployment ++ py "/chat/completions" in
  bind (urlencode [(py "api-version", api_version)]) (fun query =>
  Ok (path ++ py "?" ++ query)).

(** A resource root in normal form: no surrounding whitespace, no
    trailing slash, no "/openai" at its end, and "/openai/deployments/"
    appended to it occurs there for the first time. *)
Definition resource_root (root : text) : bool :=
  text_eqb (strip root) root
  && text_eqb (rstrip_chars (py "/") root) root
  && negb (endswith (py "/openai") root)
  && (str_find deployments_path (root ++ deployments_path) =? len root)%Z.

(** The URL [chat_completion_sync] posts to, from the configuration. *)
Definition request_url (cfg : azure_config) : result text :=
  _build_azure_chat_completions_url (base_url cfg) (deployment cfg) (api_version cfg).

End AzureUrl.

Import AzureUrl.

(** ** app/services/pdf_service.py: [extract_text_from_pdf] *)

Module PdfExtract.

(** A call that returns, or raises an exception other than
    [ImportError]; the handlers read [str(e)] only. *)
Inductive attempt (A : Type) :=
| Done (a : A)
| Threw (str_e : text).

Arguments Done {A} a.
Arguments Threw {A} str_e.

(** What the function finds on disk and in the PDF libraries. *)
Record pdf_file := {
  file_path : text;
  (** [os.path.exists(file_path)] *)
  file_exists : bool;
  (** [os.path.getsize(file_path)] *)
  getsize : attempt Z;
  (** [None] when [import PyPDF2] fails; else what [PdfReader] yields:
      for each page, what its [extract_text()] returns *)
  PyPDF2 : option (attempt (list (attempt (option text))));
  (** the same for [pdfplumber] *)
  pdfplumber : option (attempt (list (attempt (option text))))
}.

(** [os.path.basename]. *)
Definition basename (p : text) : text :=
  last (split_on [SLASH] p) [].

Definition fence : text := py "```".

(** The test that opens a code block: an indented line, or one that
    holds one of the characters [{}[]()<>;:=]. *)
Definition looks_like_code (line : text) : bool :=
  startswith (py "    ") line || startswith [TAB] line
  || existsb (fun c => contains [c] line) (py "{}[]()<>;:=").

(** One iteration of [for line in lines], on [processed_lines] and
    [in_code_block]. *)
Definition mark_line (st : list text * bool) (line : text) : list text * bool :=
  let '(processed_lines, in_code_block) := st in
  let '(processed_lines, in_code_block) :=
    if looks_like_code line then
      if negb in_code_block then (processed_lines ++ [fence], true)
      else (processed_lines, in_code_block)
    else if in_code_block && is_empty (strip line)
         then (processed_lines ++ [fence], false)
         else (processed_lines, in_code_block) in
  (processed_lines ++ [line], in_code_block).

(** The lines of a page with the code-block markers added. *)
Definition processed_lines_of (page_text : text) : list text :=
  let '(processed_lines, in_code_block) :=
    fold_left mark_line (split_on [NL] page_text) ([], false) in
  if in_code_block then processed_lines ++ [fence] else processed_lines.

(** What a page with text adds to [text]. *)
Definition page_block (page_text : text) : text :=
  join [NL] (processed_lines_of page_text) ++ [NL; NL].

(** [for page_num in range(num_pages)]: the text gathered from the
    pages, unless an [extract_text()] raises. *)
Fixpoint pages_text (pages : list (attempt (option text))) (text_so_far : text)
  : attempt text :=
  match pages with
  | [] => Done text_so_far
  | Threw m :: _ => Threw m
  | Done page_text :: rest =>
      match page_text with
      | Some t =>
          if negb (is_empty t) && negb (is_empty (strip t))
          then pages_text rest (text_so_far ++ page_block t)
          else pages_text rest text_so_far
      | None => pages_text rest text_so_far
      end
  end.

(** [all_text += page.extract_text() or ""] over the pages of
    [pdfplumber]. *)
Fixpoint plumber_text (pages : list (attempt (option text))) (all_text : text)
  : attempt text :=
  match pages with
  | [] => Done all_text
  | Threw m :: _ => Threw m
  | Done page_text :: rest =>
      plumber_text rest (all_text ++ match page_text with
                                     | Some t => t
                                     | None => []
                                     end)
  end.

Definition no_extractable_text (f : pdf_file) : text :=
  py "No extractable text found in " ++ basename (file_path f).

Definition pypdf2_error (str_e : text) : text :=
  py "Error extracting text with PyPDF2: " ++ str_e.

Definition extract_text_from_pdf (f : pdf_file) : text :=
  if negb (file_exists f) then py "File not found"
  else
    match getsize f with
    | Threw m => py "Error processing file: " ++ m
    | Done file_size =>
        if (file_size =? 0)%Z then py "Empty file"
        else
          match PyPDF2 f with
          | None =>
              py "Cannot extract text: PyPDF2 not installed. This is a PDF document: "
              ++ basename (file_path f) ++ py "."
          | Some (Threw m) => pypdf2_error m
          | Some (Done pages) =>
              if (Z.of_nat (length pages) =? 0)%Z
              then py "PDF has no pages."
              else
                match pages_text pages [] with
                | Threw m => pypdf2_error m
                | Done text =>
                    if is_empty (strip text) then
                      match pdfplumber f with
                      | None => no_extractable_text f
                      | Some (Threw m) => pypdf2_error m
                      | Some (Done plumber_pages) =>
                          match plumber_text plumber_pages [] with
                          | Threw m => pypdf2_error m
                          | Done all_text =>
                              if is_empty (strip all_text)
                              then no_extractable_text f
                              else all_text
                          end
                      end
                    else text
                end
          end
    end.

End PdfExtract.

Import PdfExtract.

(** ** app/services/pdf_service.py: the queries and [generate_summary] *)

Module Summary.

(** [order_by(PDFChunk.chunk_index)]: ascending, rows with the same
    index in table order. *)
Definition order_by_chunk_index (rows : list PDFChunk) : list PDFChunk :=
  sort_reverse Z.gtb chunk_index rows.

Definition get_all_pdfs (db : Db) : list PDF := pdfs db.

Definition get_pdf_by_id (db : Db) (pdf_id : Z) : option PDF := find_pdf db pdf_id.

Definition get_pdf_chunks (db : Db) (pdf_id : Z) : list PDFChunk :=
  order_by_chunk_index (chunks_of db pdf_id).

(** The dictionary [generate_summary] returns: a failure with its
    message; the metadata alone, when the document has no chunks (the
    text is then "No content available for summarization"); or the
    metadata with the text summary, the content length and the
    keywords. *)
Record metadata := MkMetadata {
  meta_pdf_id : Z;
  meta_filename : text;
  meta_upload_date : option text;
  meta_total_chunks : Z
}.

Inductive summary :=
| NoSummary (message : text)
| NoContent (meta : metadata) (text_summary : text)
| FullSummary (meta : metadata) (text_summary : text) (content_length : Z)
              (keywords : list text).

Definition success (s : summary) : bool :=
  match s with
  | NoSummary _ => false
  | _ => true
  end.

Definition ignored_words : list text :=
  map py ["this"; "that"; "with"; "from"; "have"; "were"; "they"; "what";
          "when"; "where"; "their"]%string.

Section Unicode.

Variable lower : text -> text.
Variable isalnum : char -> bool.

(** [pdf.upload_time.isoformat() if pdf.upload_time else None]. *)
Variable upload_date : PDF -> option text.

(** The sentences taken from one chunk. *)
Definition chunk_sentences (chunk_text : text) : list text :=
  firstn 2
    (map (fun s => strip s ++ py ".")
         (filter (fun s => (len (strip s) >? 10)%Z)
                 (split_on (py ". ") chunk_text))).

Definition sentences_of (chunks : list PDFChunk) : list text :=
  flat_map (fun chunk => chunk_sentences (chunk_text chunk)) chunks.

Definition simplified (sentence : text) : text :=
  sub_nonword isalnum (lower sentence).

(** One iteration of [for sentence in sentences], on [seen] and
    [unique_sentences]. *)
Definition keep_unique (st : list text * list text) (sentence : text)
  : list text * list text :=
  let '(seen, unique_sentences) := st in
  if negb (existsb (text_eqb (simplified sentence)) seen)
     && (len (simplified sentence) >? 20)%Z
  then (simplified sentence :: seen, unique_sentences ++ [sentence])
  else (seen, unique_sentences).

Definition unique_sentences_of (sentences : list text) : list text :=
  snd (fold_left keep_unique sentences ([], [])).

(** The text summary of a document whose chunks are [first :: rest]. *)
Definition text_summary_of (first : PDFChunk) (rest : list PDFChunk) : text :=
  match firstn 5 (unique_sentences_of (sentences_of (first :: rest))) with
  | [] => slice (chunk_text first) 0 300 ++ py "..."
  | summary_sentences => join (py " ") summary_sentences
  end.

(** [word_freq[word] = word_freq.get(word, 0) + 1] on a dictionary in
    insertion order. *)
Fixpoint count_word (word : text) (word_freq : list (text * Z)) : list (text * Z) :=
  match word_freq with
  | [] => [(word, 1%Z)]
  | (w, n) :: rest =>
      if text_eqb w word then (w, (n + 1)%Z) :: rest
      else (w, n) :: count_word word rest
  end.

Definition word_freq_of (words : list text) : list (text * Z) :=
  fold_left (fun word_freq word =>
               if negb (existsb (text_eqb word) ignored_words)
               then count_word word word_freq else word_freq)
            words [].

Definition keywords_of (text_content : text) : list text :=
  let words := findall_words isalnum (lower text_content) in
  let sorted_words := sort_reverse Z.ltb snd (word_freq_of words) in
  map fst (firstn 10 sorted_words).

Definition generate_summary (db : Db) (pdf_id : Z) : summary :=
  match find_pdf db pdf_id with
  | None => NoSummary (py "PDF not found")
  | Some pdf =>
      match find_content db pdf_id with
      | None => NoSummary (py "PDF content not found")
      | Some pdf_content =>
          let chunks := order_by_chunk_index (chunks_of db pdf_id) in
          let meta := MkMetadata pdf_id (original_filename pdf) (upload_date pdf)
                                 (Z.of_nat (length chunks)) in
          match chunks with
          | [] => NoContent meta (py "No content available for summarization")
          | first :: rest =>
              FullSummary meta (text_summary_of first rest)
                          (len (text_content pdf_content))
                          (keywords_of (text_content pdf_content))
          end
      end
  end.

End Unicode.

End Summary.

Import Summary.

(** ** app/services/gemini_service.py: formatting of an answer *)

Module AnswerFormat.

Definition code_fence : text := py "```".

Definition code_indicators : list text :=
  map py ["```"; "def "; "class "; "import "; "function"; "<html>"; "SELECT ";
          "CREATE TABLE"]%string.

Definition code_line_indicators : list text :=
  map py ["def "; "class "; "import "; "from "; "    "]%string
  ++ [[TAB]] ++ map py ["#"; "function"; "<"; "var "; "const "]%string.

Definition copy_note : text :=
  [NL; NL] ++ py "*You can copy and use this code directly in your project.*".

Definition is_code_line (line : text) : bool :=
  existsb (fun indicator => contains indicator line) code_line_indicators.

(** The fence that opens a block, with the language guessed from the
    line. *)
Definition opening_fence (line : text) : text :=
  if contains (py "def ") line || contains (py "class ") line
     || contains (py "import ") line
  then py "```python"
  else if contains (py "<html>") line || contains (py "<div") line
  then py "```html"
  else if contains (py "function") line || contains (py "var ") line
          || contains (py "const ") line
  then py "```javascript"
  else if contains (py "SELECT ") line || contains (py "CREATE TABLE") line
  then py "```sql"
  else code_fence.

(** The test that ends a block after a line. *)
Definition ends_block (line : text) : bool :=
  (is_empty (strip line)
   || endswith (py ".") (strip line) || endswith (py ":") (strip line)
   || endswith (py "?") (strip line))
  && negb (startswith (py "    ") line || startswith [TAB] line).

(** One iteration of [for line in lines], on [formatted_lines] and
    [in_code_block]. *)
Definition format_line (st : list text * bool) (line : text) : list text * bool :=
  let '(formatted_lines, in_code_block) := st in
  let '(formatted_lines, in_code_block) :=
    if is_code_line line && negb in_code_block
    then (formatted_lines ++ [opening_fence line], true)
    else (formatted_lines, in_code_block) in
  let formatted_lines := formatted_lines ++ [line] in
  if in_code_block && ends_block line
  then (formatted_lines ++ [code_fence], false)
  else (formatted_lines, in_code_block).

Definition formatted_lines_of (lines : list text) : list text :=
  let '(formatted_lines, in_code_block) := fold_left format_line lines ([], false) in
  if in_code_block then formatted_lines ++ [code_fence] else formatted_lines.

Definition format_code_blocks (answer : text) : text :=
  let has_code := existsb (fun indicator => contains indicator answer) code_indicators in
  if has_code then
    let answer :=
      if negb (contains code_fence answer)
      then join [NL] (formatted_lines_of (split_on [NL] answer))
      else answer in
    if contains code_fence answer then answer ++ copy_note else answer
  else answer.

Definition thinking_phrases : list text :=
  map py ["Let me think about this...";
          "Analyzing your question...";
          "Searching my knowledge base...";
          "Processing information...";
          "Let me gather the relevant details...";
          "I'm considering the best way to explain this..."]%string.

Definition simplification_phrases : list text :=
  map py ["explain simply"; "simpler explanation"; "easier to understand";
          "simplify"; "make it simple"; "explain in simple terms";
          "explain like i'm"; "eli5"; "dumb it down"; "easier format";
          "don't understand"; "confused"; "make it easier"; "clarity";
          "clearer explanation"; "layman's terms"; "in plain english";
          "more details"; "example"; "diagram"; "more deatiles"; "samjhao";
          "I don't get it"; "exapmle"; "digram"; "can you explain";
          "give me more"; "detail about"; "details about"; "give example";
          "what do you mean"; "not clear"; "unclear"; "confusing";
          "this doesn't make sense"; "lost me"; "too complicated";
          "too complex"; "hard to follow"; "difficult to understand";
          "what is that"; "what are you talking about"; "huh"; "what";
          "not sure what"; "not sure I understand"; "what exactly is";
          "can you clarify"; "need clarification"; "I'm confused"]%string.

Definition hindi_phrases : list text :=
  map py ["samjh nehi"; "samajh nehi"; "samajh nahi"; "samjh nahi";
          "samjhao"; "batao"; "samajh me nahi"; "aur batao";
          "aur detail"; "ache se"; "kya matlab"; "matlab kya hai"]%string.

Definition tech_terms : list text :=
  map py ["flask"; "python"; "django"; "api"; "web"; "framework"; "html"; "css";
          "javascript"; "react"; "node"; "express"; "database"; "sql"; "nosql";
          "mongodb"; "programming"; "code"; "software"; "development"; "git";
          "docker"; "cloud"; "aws"; "azure"; "devops"; "frontend"; "backend";
          "fullstack"; "algorithm"; "data structure"; "api"; "rest";
          "graphql"]%string.

Definition simplification_note : text :=
  [NL; NL] ++ py "(I've simplified this explanation to make it more accessible. Let me know if you need any part explained differently or in more detail.)".

Section Helpers.

Variable environ : text -> option text.
Variable post : azure_config -> text -> result text.
Variable lower : text -> text.

(** [random.choice]. *)
Variable choice : list text -> text.

(** The prompt of [simplify_complex_answer], from the answer and the
    query. *)
Variable simplify_prompt : text -> text -> text.

Definition add_thinking_effect (answer : text) : text :=
  let paragraphs := split_on [NL; NL] answer in
  if (len_words paragraphs >? 1)%Z
  then choice thinking_phrases ++ [NL; NL] ++ answer
  else answer.

Definition detect_simplification_request (t : text) : bool :=
  let text_lower := lower t in
  existsb (fun phrase => contains phrase text_lower) simplification_phrases
  || existsb (fun phrase => contains phrase text_lower) hindi_phrases.

Definition is_tech_question (t : text) : bool :=
  let lower_text := lower t in
  if startswith (py "what is") lower_text || startswith (py "explain") lower_text
     || startswith (py "how does") lower_text
     || startswith (py "tell me about") lower_text
  then existsb (fun term => contains term lower_text) tech_terms
  else false.

Definition _llm_generate_sync (prompt : text) : result text :=
  chat_completion_sync environ post prompt.

Definition simplify_complex_answer (complex_answer user_query : text) : text :=
  match _llm_generate_sync (simplify_prompt complex_answer user_query) with
  | Ok simplified_answer => simplified_answer ++ simplification_note
  | Raise _ => complex_answer
  end.

End Helpers.

End AnswerFormat.

Import AnswerFormat.

(** ** app/services/gemini_service.py: the sampled context of the second
    answer pass *)

Module Sampling.

Definition ellipsis_line : text := [NL] ++ py "..." ++ [NL].

(** The sample taken from one document. *)
Definition sample_of (content : text) : text :=
  if (len content >? 8000)%Z then
    let beginning := slice content 0 3000 in
    let middle_start := Z.max 0 (len content / 2 - 1500) in
    let middle := slice content middle_start (middle_start + 3000) in
    let ending := last_chars 2000 content in
    beginning ++ ellipsis_line ++ middle ++ ellipsis_line ++ ending
  else content.

Definition full_context (pdf_contents : list text) : text :=
  join chunk_delimiter (map sample_of pdf_contents).

End Sampling.

Import Sampling.

(** ** app/main.py: the routes over the services *)

Module Routes.

(** The body of a [JSONResponse]: a failure with its message, the
    dictionary of [answer_question_with_ai], the answer of the standard
    QA, the acknowledgement of a deletion, or a summary. *)
Inductive content :=
| Message (message : text)
| Service (answer_data : response)
| StandardQA (question answer : text)
| Deleted (message : text) (id : Z)
| SummaryContent (s : summary).

Record JSONResponse := MkResponse {
  status_code : Z;
  body : content
}.

(** A [pdf_id] as the JSON body carries it: a number or a string. *)
Inductive json_id :=
| IdInt (n : Z)
| IdStr (s : text).

(** The database session and the files under [app/static/uploads/]. *)
Record storage := MkStorage {
  database : Db;
  uploads : list text
}.

Definition upload_path (stored_filename : text) : text :=
  py "app/static/uploads/" ++ stored_filename.

(** [db.delete(pdf)]: the row goes, and with it the rows its
    relationships cascade to. *)
Definition db_delete (pdf : PDF) (db : Db) : Db :=
  MkDb (filter (fun p => negb (Models.pdf_id p =? Models.pdf_id pdf)%Z) (pdfs db))
       (filter (fun c => negb (content_pdf_id c =? Models.pdf_id pdf)%Z) (pdf_contents db))
       (filter (fun c => negb (chunk_pdf_id c =? Models.pdf_id pdf)%Z) (pdf_chunks db)).

(** [DELETE /pdf/{pdf_id}]. *)
Definition delete_pdf (st : storage) (pdf_id : Z) : storage * JSONResponse :=
  let db := database st in
  match find_pdf db pdf_id with
  | None => (st, MkResponse 404 (Message (py "PDF not found")))
  | Some pdf =>
      let file_path := upload_path (stored_filename pdf) in
      let filename := original_filename pdf in
      let db := MkDb (pdfs db)
                     (filter (fun c => negb (content_pdf_id c =? pdf_id)%Z)
                             (pdf_contents db))
                     (pdf_chunks db) in
      let db := MkDb (pdfs db) (pdf_contents db)
                     (filter (fun c => negb (chunk_pdf_id c =? pdf_id)%Z)
                             (pdf_chunks db)) in
      let db := db_delete pdf db in
      let files :=
        if existsb (text_eqb file_path) (uploads st)
        then filter (fun f => negb (text_eqb f file_path)) (uploads st)
        else uploads st in
      let db := match find_pdf db pdf_id with
                | Some remaining => db_delete remaining db
                | None => db
                end in
      (MkStorage db files,
       MkResponse 200
         (Deleted (py "PDF '" ++ filename ++ py "' successfully deleted") pdf_id))
  end.

(** [GET /pdf/{pdf_id}/summary]. *)
Definition get_pdf_summary (lower : text -> text) (isalnum : char -> bool)
  (upload_date : PDF -> option text) (db : Db) (pdf_id : Z) : JSONResponse :=
  let summary := generate_summary lower isalnum upload_date db pdf_id in
  if negb (success summary) then MkResponse 404 (SummaryContent summary)
  else MkResponse 200 (SummaryContent summary).

(** The status of a failure of the service, in [/ask-ai] and in
    [/follow-up]. *)
Definition no_content_message (lower : text -> text) (message : text) : bool :=
  contains (py "no content") (lower message)
  || contains (py "no pdf content") (lower message).

Definition ask_ai_failure_status (lower : text -> text) (message : text) : Z :=
  if no_content_message lower message then 404%Z
  else if contains (py "not available") message then 503%Z
  else 500%Z.

Definition followup_failure_status (lower : text -> text) (message : text) : Z :=
  if no_content_message lower message then 404%Z else 500%Z.

Definition tech_keywords : list text :=
  map py ["flask"; "python"; "django"; "framework"; "web development"; "api"]%string.

(** [recent_responses]: the dictionary from cache keys to a response
    and its timestamp, in insertion order. *)
Definition cache := list (text * (response * float)).

(** [recent_responses[key] = entry]. *)
Fixpoint cache_set (key : text) (entry : response * float) (c : cache) : cache :=
  match c with
  | [] => [(key, entry)]
  | (k, e) :: rest =>
      if text_eqb k key then (k, entry) :: rest
      else (k, e) :: cache_set key entry rest
  end.

(** [recent_responses[key]] when [key in recent_responses]. *)
Definition cache_get (key : text) (c : cache) : option (response * float) :=
  option_map snd (find (fun ke => text_eqb (fst ke) key) c).

(** [(now - timestamp) < limit] on the floats of [time.time()]. *)
Definition younger (now timestamp : float) (limit : Z) : bool :=
  SFltb (SFsub 53 1024 now timestamp) (binary_normalize 53 1024 limit 0 false).

(** The three readings of [time.time()] a request may take. *)
Record clock := MkClock {
  at_lookup : float;
  at_store : float;
  at_cleanup : float
}.

Definition cache_key (question : text) (pdf_id : option json_id) : text :=
  question ++ py ":" ++ match pdf_id with
                        | Some (IdInt n) => str_of_int n
                        | Some (IdStr s) => s
                        | None => py "all"
                        end.

(** The cached response that is returned at once. *)
Definition cached_response (c : cache) (clk : clock) (key : text) : option response :=
  match cache_get key c with
  | Some (cached, timestamp) =>
      if younger (at_lookup clk) timestamp 300 then Some cached else None
  | None => None
  end.

(** What remains of the cache after an answer is stored. *)
Definition store_and_clean (c : cache) (clk : clock) (key : text)
  (answer_data : response) : cache :=
  filter (fun ke => younger (at_cleanup clk) (snd (snd ke)) 600)
         (cache_set key (answer_data, at_store clk) c).

Section Service.

Variable np : Numpy.
Variable cfg : config.
Variable js : Json.
Variable environ : text -> option text.
Variable post : azure_config -> text -> result text.
Variable lower : text -> text.
Variable choice : list text -> text.

(** The prompt templates, and the helpers of the service that stay
    parameters: [clean_response], the general-knowledge handlers and the
    answer passes over sampled text. *)
Variable followup_prompt : text -> text -> text.
Variable chunks_prompt : text -> text -> list text -> text.
Variable simplify_prompt : text -> text -> text.
Variable clean_response : text -> text -> text.
Variable handle_tech_question : text -> option response.
Variable handle_conversational_query : text -> option response.
Variable full_content_answer : text -> list text -> list text -> bool -> result text.

(** [answer_question_with_ai] as the module wires it. *)
Definition ai : Db -> text -> option Z -> bool -> option text -> response :=
  answer_question_with_ai environ post lower followup_prompt chunks_prompt
    format_code_blocks (add_thinking_effect choice) clean_response
    (detect_simplification_request lower)
    (simplify_complex_answer environ post simplify_prompt)
    (is_tech_question lower) handle_tech_question handle_conversational_query
    full_content_answer.

(** [int(s)] on a string: [None] where it raises [ValueError]. *)
Variable int_of_str : text -> option Z.

(** [int(pdf_id)]. *)
Definition py_int (v : json_id) : option Z :=
  match v with
  | IdInt n => Some n
  | IdStr s => int_of_str s
  end.

(** The conversion of an optional [pdf_id]: [None] where it raises. *)
Definition converted (pdf_id : option json_id) : option (option Z) :=
  match pdf_id with
  | None => Some None
  | Some v => option_map Some (py_int v)
  end.

Definition invalid_id : JSONResponse :=
  MkResponse 400 (Message (py "Invalid PDF ID format")).

Definition no_question : JSONResponse :=
  MkResponse 400 (Message (py "No question provided")).

(** [POST /ask]. *)
Definition ask_question (db : Db) (question : text) (pdf_id : option json_id)
  : JSONResponse :=
  if is_empty question then no_question
  else
    match converted pdf_id with
    | None => invalid_id
    | Some pdf_id =>
        match ai db question pdf_id false None with
        | Success _ _ _ _ _ as answer_data => MkResponse 200 (Service answer_data)
        | Failure _ =>
            match answer_question np cfg js db question with
            | Ok answer => MkResponse 200 (StandardQA question answer)
            | Raise e =>
                MkResponse 500
                  (Message (py "Error processing question: " ++ exn_message e))
            end
        end
    end.

(** [POST /follow-up]; [timed_out] tells whether the service took more
    than the 60 seconds [asyncio.wait_for] grants it. *)
Definition ask_followup_question (db : Db) (question previous_answer : text)
  (pdf_id : option json_id) (timed_out : bool) : JSONResponse :=
  if is_empty question then no_question
  else if is_empty previous_answer
  then MkResponse 400 (Message (py "Previous answer not provided"))
  else
    match converted pdf_id with
    | None => invalid_id
    | Some pdf_id =>
        if timed_out
        then MkResponse 504
               (Message (py "Request timed out. The server took too long to process your follow-up question. Please try again."))
        else
          match ai db question pdf_id true (Some previous_answer) with
          | Failure message as answer_data =>
              MkResponse (followup_failure_status lower message) (Service answer_data)
          | answer_data => MkResponse 200 (Service answer_data)
          end
    end.

(** The checks of [/ask-ai] on the requested document: the response
    that ends the request, if any. *)
Definition ask_ai_checks (st : storage) (question : text) (pdf_id : option Z)
  : option JSONResponse :=
  let db := database st in
  let is_tech_question :=
    existsb (fun keyword => contains keyword (lower question)) tech_keywords in
  let on_document :=
    match pdf_id with
    | Some id =>
        match find_pdf db id with
        | None =>
            if is_tech_question then None
            else Some (MkResponse 404 (Message (pdf_not_found id)))
        | Some pdf =>
            let no_text :=
              match find_content db id with
              | None => true
              | Some content => is_empty (text_content content)
              end in
            if no_text && negb is_tech_question
            then Some (MkResponse 400 (Message (pdf_without_content id)))
            else if negb (existsb (text_eqb (upload_path (stored_filename pdf)))
                                  (uploads st))
                    && negb is_tech_question
            then Some (MkResponse 404
                         (Message (py "The PDF file is missing from storage.")))
            else None
        end
    | None => None
    end in
  match on_document with
  | Some r => Some r
  | None =>
      match pdf_id with
      | None =>
          if negb is_tech_question && (Z.of_nat (length (pdfs db)) =? 0)%Z
          then Some (MkResponse 404
                       (Message (py "No PDFs available. Please upload PDFs first.")))
          else None
      | Some _ => None
      end
  end.

(** [POST /ask-ai], on the cache. *)
Definition ask_question_ai (recent_responses : cache) (clk : clock) (st : storage)
  (question : text) (pdf_id : option json_id) (timed_out : bool)
  : cache * JSONResponse :=
  let key := cache_key question pdf_id in
  match cached_response recent_responses clk key with
  | Some cached => (recent_responses, MkResponse 200 (Service cached))
  | None =>
      if is_empty question then (recent_responses, no_question)
      else
        let question := join (py " ") (split question) in
        match converted pdf_id with
        | None => (recent_responses, invalid_id)
        | Some pdf_id =>
            match ask_ai_checks st question pdf_id with
            | Some r => (recent_responses, r)
            | None =>
                if timed_out
                then (recent_responses,
                      MkResponse 504
                        (Message (py "Request timed out. The server took too long to process your question. Please try again.")))
                else
                  match ai (database st) question pdf_id false None with
                  | Failure message as answer_data =>
                      (recent_responses,
                       MkResponse (ask_ai_failure_status lower message)
                                  (Service answer_data))
                  | answer_data =>
                      (store_and_clean recent_responses clk key answer_data,
                       MkResponse 200 (Service answer_data))
                  end
            end
        end
  end.

End Service.

End Routes.

Import Routes.

(** ** The settings of the client and the constraints of the schema *)

Module Settings.

(** The variables [_get_azure_config] and [_llm_configured] read for
    each setting, in order of priority. *)
Definition api_key_names : list text :=
  [py "LLM_API_KEY"; py "AZURE_OPENAI_API_KEY"; py "OPENAI_API_KEY"].

Definition base_url_names : list text :=
  [py "LLM_AZURE_BASE_URL"; py "AZURE_OPENAI_ENDPOINT"; py "AZURE_OPENAI_BASE_URL"].

Definition api_version_names : list text :=
  [py "LLM_AZURE_API_VERSION"; py "AZURE_OPENAI_API_VERSION"].

Definition deployment_names : list text :=
  [py "LLM_AZURE_DEPLOYMENT"; py "AZURE_OPENAI_DEPLOYMENT"].

(** An environment with the three required settings. *)
Definition configured_environ : text -> option text :=
  fun name =>
    if text_eqb name (py "LLM_API_KEY") then Some (py " secret ")
    else if text_eqb name (py "AZURE_OPENAI_ENDPOINT")
    then Some (py "https://example.test/openai/")
    else if text_eqb name (py "LLM_AZURE_DEPLOYMENT") then Some (py "gpt")
    else None.

End Settings.

Import Settings.

Module Schema.

(** The foreign keys of app/models/models.py: the rows of
    [pdf_contents] and [pdf_chunks] refer to a row of [pdfs]. *)
Definition foreign_keys (db : Db) : Prop :=
  Forall (fun c => In (content_pdf_id c) (map pdf_id (pdfs db))) (pdf_contents db)
  /\ Forall (fun c => In (chunk_pdf_id c) (map pdf_id (pdfs db))) (pdf_chunks db).

(** The primary keys: no two rows of [pdfs], and no two rows of
    [pdf_chunks], have the same [id]. *)
Definition primary_keys (db : Db) : Prop :=
  NoDup (map pdf_id (pdfs db)) /\ NoDup (map chunk_id (pdf_chunks db)).

End Schema.

Import Schema.
(** How often a word occurs in a list of words. *)
Module Frequency.

Definition occurrences (word : text) (words : list text) : Z :=
  len_words (filter (text_eqb word) words).

End Frequency.

Import Frequency.

(** ** Concrete collaborators of the routes *)

Module SampleRoutes.

(** A choice that takes the first phrase, prompts that concatenate
    their arguments, handlers that decline, a third pass that repeats
    the question, and an [int] that rejects every string. *)
Definition first_choice : list text -> text := fun phrases => hd [] phrases.

Definition two_part_prompt : text -> text -> text := fun a b => a ++ [NL] ++ b.

Definition context_prompt : text -> text -> list text -> text :=
  fun question context _ => question ++ [NL] ++ context.

Definition keep_answer : text -> text -> text := fun answer _ => answer.

Definition decline : text -> option response := fun _ => None.

Definition repeat_question : text -> list text -> list text -> bool -> result text :=
  fun question _ _ _ => Ok question.

Definition reject_strings : text -> option Z := fun _ => None.

Definition sample_ask (environ : text -> option text) :=
  ask_question sample_numpy two_dimensions sample_json environ echo lower_ascii
    first_choice two_part_prompt context_prompt two_part_prompt keep_answer
    decline decline repeat_question reject_strings.

Definition sample_follow_up (environ : text -> option text) :=
  ask_followup_question environ echo lower_ascii first_choice two_part_prompt
    context_prompt two_part_prompt keep_answer decline decline repeat_question
    reject_strings.

Definition sample_ask_ai (environ : text -> option text) :=
  ask_question_ai environ echo lower_ascii first_choice two_part_prompt
    context_prompt two_part_prompt keep_answer decline decline repeat_question
    reject_strings.

(** A store with the first document and its file; three readings of
    the clock at second 1000 and a lookup at second 1100. *)
Definition first_store : storage :=
  MkStorage db_after_first_save [upload_path (py "stored-a")].

Definition at_second (n : Z) : float := binary_normalize 53 1024 n 0 false.

Definition first_clock : clock :=
  MkClock (at_second 1000) (at_second 1000) (at_second 1000).

Definition later_clock : clock :=
  MkClock (at_second 1100) (at_second 1100) (at_second 1100).

End SampleRoutes.

Import SampleRoutes.

(** ** Shapes of chunks *)

Module ChunkShape.

(** A chunk without surrounding whitespace that is not empty. *)
Definition tidy (c : text) : Prop := strip c = c /\ c <> [].

(** The size a chunk can reach when no paragraph is longer than [L]:
    a chunk grows while it fits in [MAX_CHUNK_SIZE] or is shorter than
    [MIN_CHUNK_SIZE], each time by a separator of two characters and a
    paragraph. *)
Definition bound (L : Z) : Z := Z.max (MAX_CHUNK_SIZE + 2) (L + MIN_CHUNK_SIZE + 1).

End ChunkShape.

Import ChunkShape.

(** ** The embedder as the specification words it

    Initialize a zero vector of length D; for each character at
    position i of the text, add [ord(char)/1000.0] to [vector[i mod D]];
    then divide the vector by its Euclidean norm, unless the norm is
    zero.  The definition goes cell by cell and uses neither the loop of
    the service nor the assignment to an index: cell j starts at zero
    and receives, in the order of the text, one addition for each
    character whose position is j modulo D. *)

Module EmbeddingReference.

(** [ord(char) / 1000.0]: the quotient of two Python floats, a binary64
    division; a code point converts to a float without rounding. *)
Definition ord_over_1000 (c : char) : float :=
  SFdiv 53 1024 (binary_normalize 53 1024 c 0 false)
                (binary_normalize 53 1024 1000 0 false).

Section Reference.

(** What [cell += value] leaves in a [float32] cell, the Euclidean norm
    of a vector and the quotient of a cell by the norm, as numpy
    computes them. *)
Variable plus : float -> float -> float.
Variable norm : list float -> float.
Variable quotient : float -> float -> float.

Variable D : Z.

(** The characters whose position is [j] modulo [D], in the order of
    the text. *)
Definition characters_at (j : Z) (t : text) : list char :=
  map snd (filter (fun ic => (fst ic mod D =? j)%Z) (enumerate t)).

Definition reference_cell (t : text) (j : Z) : float :=
  fold_left (fun cell c => plus cell (ord_over_1000 c)) (characters_at j t) zero.

Definition reference_sums (t : text) : list float :=
  map (reference_cell t) (map Z.of_nat (seq 0 (Z.to_nat D))).

Definition reference_embed (t : text) : list float :=
  let v := reference_sums t in
  if float_eq (norm v) zero then v
  else map (fun x => quotient x (norm v)) v.

(** The norm of the sums is a number that is zero or greater than zero
    (it is not a NaN). *)
Definition norm_is_a_number (t : text) : bool :=
  Bool.eqb (float_gt (norm (reference_sums t)) zero)
           (negb (float_eq (norm (reference_sums t)) zero)).

End Reference.

(** Addition in binary32 of a binary64 value rounded to binary32. *)
Definition plus_binary32 (x value : float) : float :=
  SFadd 24 128 x
    (match value with
     | S754_finite s m e => binary_normalize 24 128 (cond_Zopp s (Zpos m)) e s
     | _ => value
     end).

End EmbeddingReference.

Import EmbeddingReference.

(* ================================================================== *)
(** * Part II: lemmas and theorems                                     *)
(* ================================================================== *)

(** ** Python strings: stripping *)

Module PyStrFacts.

Lemma lstrip_app_nonspace (l m : text) (c : char) :
  isspace c = false -> lstrip (l ++ c :: m) = lstrip l ++ c :: m.
Proof.
  intros Hc. induction l as [|x l IH]; simpl.
  - now rewrite Hc.
  - destruct (isspace x); [exact IH | reflexivity].
Qed.

Lemma lstrip_split (s : text) :
  exists p, s = p ++ lstrip s /\ forallb isspace p = true.
Proof.
  induction s as [|c r [p [Hp Hall]]]; simpl.
  - now exists [].
  - destruct (isspace c) eqn:Hc.
    + exists (c :: p). simpl. rewrite Hc, Hall. split; [now f_equal | reflexivity].
    + now exists [].
Qed.

Lemma rstrip_split (s : text) :
  exists q, s = rstrip s ++ q /\ forallb isspace q = true.
Proof.
  induction s as [|c r [q [Hq Hall]]]; simpl.
  - now exists [].
  - destruct (rstrip r) as [|x t].
    + simpl in Hq. subst q. destruct (isspace c) eqn:Hc.
      * exists (c :: r). simpl. now rewrite Hc, Hall.
      * now exists r.
    + exists q. simpl in *. now rewrite <- Hq.
Qed.

(** [strip] cuts a whitespace prefix and a whitespace suffix. *)
Lemma strip_split (s : text) :
  exists p q, s = p ++ strip s ++ q
              /\ forallb isspace p = true /\ forallb isspace q = true.
Proof.
  unfold strip. destruct (lstrip_split s) as [p [Hp Hpa]].
  destruct (rstrip_split (lstrip s)) as [q [Hq Hqa]].
  exists p, q. repeat split; trivial. now rewrite <- Hq.
Qed.

Lemma lstrip_head (s : text) :
  match lstrip s with [] => True | c :: _ => isspace c = false end.
Proof.
  induction s as [|c r IH]; simpl; trivial.
  destruct (isspace c) eqn:Hc; trivial.
Qed.

Lemma lstrip_fixed (s : text) :
  match s with [] => True | c :: _ => isspace c = false end -> lstrip s = s.
Proof. destruct s as [|c r]; simpl; trivial. now intros ->. Qed.

Lemma lstrip_idem (s : text) : lstrip (lstrip s) = lstrip s.
Proof. apply lstrip_fixed, lstrip_head. Qed.

Lemma rstrip_cons_nonspace (c : char) (r : text) :
  isspace c = false -> rstrip (c :: r) = c :: rstrip r.
Proof. intros Hc. simpl. rewrite Hc. now destruct (rstrip r). Qed.

Lemma rstrip_idem (s : text) : rstrip (rstrip s) = rstrip s.
Proof.
  induction s as [|c r IH]; [reflexivity|]. simpl.
  destruct (rstrip r) as [|x t] eqn:E.
  - destruct (isspace c) eqn:Hc; simpl; [reflexivity | now rewrite Hc].
  - change (rstrip (c :: x :: t)) with
      (match rstrip (x :: t) with
       | [] => if isspace c then [] else [c]
       | u => c :: u
       end).
    now rewrite IH.
Qed.

Lemma lstrip_rstrip_fixed (t : text) :
  lstrip t = t -> lstrip (rstrip t) = rstrip t.
Proof.
  intros H. pose proof (lstrip_head t) as Hh. rewrite H in Hh.
  destruct t as [|c r]; [reflexivity|].
  rewrite rstrip_cons_nonspace by exact Hh. simpl. now rewrite Hh.
Qed.

Lemma strip_idem (s : text) : strip (strip s) = strip s.
Proof.
  unfold strip at 1. unfold strip.
  rewrite (lstrip_rstrip_fixed (lstrip_idem s)). apply rstrip_idem.
Qed.

Lemma lstrip_length (s : text) : (length (lstrip s) <= length s)%nat.
Proof.
  destruct (lstrip_split s) as [p [Hp _]].
  rewrite Hp at 2. rewrite length_app. lia.
Qed.

Lemma strip_length (s : text) : (length (strip s) <= length s)%nat.
Proof.
  destruct (strip_split s) as [p [q [H _]]].
  rewrite H at 2. rewrite !length_app. lia.
Qed.

Lemma strip_Forall (P : char -> Prop) (s : text) :
  Forall P s -> Forall P (strip s).
Proof.
  destruct (strip_split s) as [p [q [H _]]].
  intros HF. rewrite H in HF.
  apply Forall_app in HF as [_ HF]. now apply Forall_app in HF as [HF _].
Qed.

(** Stripping removes whitespace only. *)
Lemma filter_nonspace_all_space (p : text) :
  forallb isspace p = true -> filter (fun c => negb (isspace c)) p = [].
Proof.
  induction p as [|c p IH]; simpl; trivial.
  intros H. apply andb_prop in H as [-> H]. simpl. auto.
Qed.

Lemma strip_nonspace (s : text) :
  filter (fun c => negb (isspace c)) (strip s)
  = filter (fun c => negb (isspace c)) s.
Proof.
  destruct (strip_split s) as [p [q [H [Hp Hq]]]].
  rewrite H at 2. rewrite !filter_app.
  rewrite (filter_nonspace_all_space _ Hp), (filter_nonspace_all_space _ Hq).
  now rewrite app_nil_r.
Qed.

(** *** Collapsing runs *)

Lemma sub_runs_head (c x : char) (r : text) :
  exists t, sub_runs c (x :: r) = x :: t.
Proof.
  revert x. induction r as [|y r IH]; intros x.
  - now exists [].
  - simpl. destruct ((x =? c) && (y =? c))%Z eqn:E.
    + apply andb_prop in E as [Ex Ey].
      apply Z.eqb_eq in Ex, Ey. subst x y. apply (IH c).
    + eexists. reflexivity.
Qed.

Lemma sub_runs_cons2 (c x y : char) (r : text) :
  sub_runs c (x :: y :: r)
  = if ((x =? c) && (y =? c))%Z then sub_runs c (y :: r)
    else x :: sub_runs c (y :: r).
Proof. reflexivity. Qed.

Lemma has_run_cons2 (c x y : char) (r : text) :
  has_run c (x :: y :: r) = ((x =? c) && (y =? c))%Z || has_run c (y :: r).
Proof. reflexivity. Qed.

Lemma sub_runs_keeps_no_run (c d : char) (s : text) :
  has_run d s = false -> has_run d (sub_runs c s) = false.
Proof.
  induction s as [|x r IH]; [reflexivity|].
  destruct r as [|y r]; [reflexivity|].
  rewrite has_run_cons2, sub_runs_cons2. intros H.
  apply orb_false_iff in H as [Hxy Hr]. specialize (IH Hr).
  destruct ((x =? c) && (y =? c))%Z; [exact IH|].
  destruct (sub_runs_head c y r) as [t Ht]. rewrite Ht in *.
  rewrite has_run_cons2, Hxy. exact IH.
Qed.

Lemma sub_runs_no_run (c : char) (s : text) : has_run c (sub_runs c s) = false.
Proof.
  induction s as [|x r IH]; [reflexivity|].
  destruct r as [|y r]; [reflexivity|].
  rewrite sub_runs_cons2.
  destruct ((x =? c) && (y =? c))%Z eqn:E; [exact IH|].
  destruct (sub_runs_head c y r) as [t Ht]. rewrite Ht in *.
  rewrite has_run_cons2, E. exact IH.
Qed.

Lemma sub_runs_fixed (c : char) (s : text) :
  has_run c s = false -> sub_runs c s = s.
Proof.
  induction s as [|x r IH]; [reflexivity|].
  destruct r as [|y r]; [reflexivity|].
  rewrite has_run_cons2, sub_runs_cons2. intros H.
  apply orb_false_iff in H as [-> Hr]. now rewrite (IH Hr).
Qed.

Lemma sub_runs_incl (c : char) (s : text) : incl (sub_runs c s) s.
Proof.
  induction s as [|x r IH]; [apply incl_refl|].
  destruct r as [|y r]; [apply incl_refl|].
  rewrite sub_runs_cons2. destruct ((x =? c) && (y =? c))%Z.
  - now apply incl_tl.
  - now apply incl_cons; [left | apply incl_tl].
Qed.

Lemma sub_runs_length (c : char) (s : text) :
  (length (sub_runs c s) <= length s)%nat.
Proof.
  induction s as [|x r IH]; [reflexivity|].
  destruct r as [|y r]; [reflexivity|].
  rewrite sub_runs_cons2. destruct ((x =? c) && (y =? c))%Z.
  - simpl in *. lia.
  - change (S (length (sub_runs c (y :: r))) <= S (length (y :: r)))%nat. lia.
Qed.

(** Only copies of [c] are dropped. *)
Lemma sub_runs_filter (c : char) (f : char -> bool) (s : text) :
  f c = false -> filter f (sub_runs c s) = filter f s.
Proof.
  intros Hc. induction s as [|x r IH]; [reflexivity|].
  destruct r as [|y r]; [reflexivity|].
  rewrite sub_runs_cons2. destruct ((x =? c) && (y =? c))%Z eqn:E.
  - apply andb_prop in E as [Ex _]. apply Z.eqb_eq in Ex. subst x.
    rewrite IH. simpl. now rewrite Hc.
  - change (filter f (x :: sub_runs c (y :: r)))
      with (if f x then x :: filter f (sub_runs c (y :: r))
            else filter f (sub_runs c (y :: r))).
    rewrite IH. reflexivity.
Qed.

Lemma has_run_app_l (c : char) (p q : text) :
  has_run c (p ++ q) = false -> has_run c p = false.
Proof.
  induction p as [|x p IH]; [reflexivity|].
  destruct p as [|y p]; [reflexivity|].
  simpl app. rewrite !has_run_cons2. intros H.
  apply orb_false_iff in H as [-> H]. simpl. now apply IH.
Qed.

Lemma has_run_app_r (c : char) (p q : text) :
  has_run c (p ++ q) = false -> has_run c q = false.
Proof.
  induction p as [|x p IH]; [trivial|].
  intros H. apply IH. simpl app in H.
  destruct (p ++ q) as [|y t]; [reflexivity|].
  rewrite has_run_cons2 in H. now apply orb_false_iff in H as [_ H].
Qed.

Lemma strip_keeps_no_run (c : char) (s : text) :
  has_run c s = false -> has_run c (strip s) = false.
Proof.
  destruct (strip_split s) as [p [q [H _]]]. intros Hs. rewrite H in Hs.
  apply has_run_app_r in Hs. now apply has_run_app_l in Hs.
Qed.

End PyStrFacts.

Import PyStrFacts.

(** ** [clean_text] *)

Module CleanTextFacts.

Section Unicode.

Variable isprintable : char -> bool.

Local Abbreviation kept := (fun c : char => isprintable c || (c =? NL)%Z).
Local Abbreviation clean := (clean_text isprintable).

Lemma filter_fixed (f : char -> bool) (s : text) :
  forallb f s = true -> filter f s = s.
Proof.
  induction s as [|c s IH]; simpl; trivial.
  intros H. apply andb_prop in H as [-> H]. now rewrite IH.
Qed.

Lemma filter_length_le (f : char -> bool) (s : text) :
  (length (filter f s) <= length s)%nat.
Proof. induction s as [|c s IH]; simpl; [|destruct (f c); simpl]; lia. Qed.

Lemma forallb_incl (f : char -> bool) (s t : text) :
  incl t s -> forallb f s = true -> forallb f t = true.
Proof.
  intros Hi Hs. rewrite forallb_forall in *. intros x Hx. apply Hs, Hi, Hx.
Qed.

(** A text without runs, without dropped characters and without
    whitespace margins is left alone. *)
Lemma clean_text_fixed (s : text) :
  has_run NL s = false -> has_run SP s = false ->
  forallb kept s = true -> strip s = s -> clean s = s.
Proof.
  intros Hn Hs Hk Hst. unfold clean_text.
  now rewrite (sub_runs_fixed _ _ Hn), (sub_runs_fixed _ _ Hs), (filter_fixed _ _ Hk).
Qed.

Lemma clean_text_kept (x : text) : forallb kept (clean x) = true.
Proof.
  unfold clean_text. apply forallb_forall. rewrite <- Forall_forall.
  apply strip_Forall. rewrite Forall_forall. intros c Hc.
  now apply filter_In in Hc.
Qed.

Lemma clean_text_stripped (x : text) : strip (clean x) = clean x.
Proof. unfold clean_text. apply strip_idem. Qed.

Lemma clean_text_no_runs (x : text) :
  forallb kept x = true ->
  has_run NL (clean x) = false /\ has_run SP (clean x) = false.
Proof.
  intros Hk. unfold clean_text.
  assert (Hf : forallb kept (sub_runs SP (sub_runs NL x)) = true).
  { apply forallb_incl with (s := x); [|exact Hk].
    eapply incl_tran; apply sub_runs_incl. }
  rewrite (filter_fixed _ _ Hf).
  split; apply strip_keeps_no_run.
  - apply sub_runs_keeps_no_run, sub_runs_no_run.
  - apply sub_runs_no_run.
Qed.

Lemma clean_text_idempotent_kept (x : text) :
  forallb kept x = true -> clean (clean x) = clean x.
Proof.
  intros Hk. destruct (clean_text_no_runs x Hk) as [Hn Hs].
  apply clean_text_fixed; auto using clean_text_kept, clean_text_stripped.
Qed.

Lemma clean_text_length (x : text) : (len (clean x) <= len x)%Z.
Proof.
  unfold len, clean_text. apply inj_le.
  eapply Nat.le_trans; [apply strip_length|].
  eapply Nat.le_trans; [apply filter_length_le|].
  eapply Nat.le_trans; apply sub_runs_length.
Qed.

(** Only the table's values on the characters of the text matter. *)
Lemma clean_text_ext (isprintable' : char -> bool) (x : text) :
  (forall c, In c x -> isprintable c = isprintable' c) ->
  clean x = clean_text isprintable' x.
Proof.
  intros H. unfold clean_text. f_equal. apply filter_ext_in.
  intros c Hc. rewrite H; [reflexivity|].
  now apply sub_runs_incl, sub_runs_incl in Hc.
Qed.

(** What survives cleaning, whitespace aside: the printable characters
    that are not whitespace, in order. *)
Lemma clean_text_content (x : text) :
  filter (fun c => negb (isspace c)) (clean x)
  = filter (fun c => negb (isspace c) && isprintable c) x.
Proof.
  unfold clean_text. rewrite strip_nonspace.
  transitivity (filter (fun c => negb (isspace c) && isprintable c)
                       (sub_runs SP (sub_runs NL x))).
  - generalize (sub_runs SP (sub_runs NL x)). intros l.
    induction l as [|c l IH]; simpl; trivial.
    destruct (Z.eqb_spec c NL) as [->|_].
    + rewrite orb_true_r. simpl. exact IH.
    + rewrite orb_false_r. destruct (isprintable c); simpl.
      * rewrite andb_true_r. destruct (isspace c); simpl; now rewrite IH.
      * rewrite andb_false_r. exact IH.
  - rewrite !sub_runs_filter; reflexivity.
Qed.

End Unicode.

End CleanTextFacts.

Import CleanTextFacts.

(** ** [split_text_into_chunks] *)

Module ChunkerFacts.

(** The characters of a list of strings that are not whitespace. *)
Local Abbreviation nonspace := (filter (fun c : char => negb (isspace c))).
Local Abbreviation content l := (nonspace (concat l)).

Lemma ws_newline_spec (s : text) (n : nat) :
  ws_newline s = Some n -> forallb isspace (firstn n s) = true.
Proof.
  revert n. induction s as [|c r IH]; intros n; simpl; [discriminate|].
  destruct (isspace c) eqn:Hc; [|discriminate].
  destruct (ws_newline r) as [m|].
  - intros [= <-]. simpl. now rewrite Hc, IH.
  - destruct (c =? NL)%Z; [|discriminate].
    intros [= <-]. simpl. now rewrite Hc.
Qed.

Lemma nonspace_skip (s : text) (n : nat) :
  forallb isspace (firstn n s) = true -> nonspace (skipn n s) = nonspace s.
Proof.
  intros H. rewrite <- (firstn_skipn n s) at 2.
  now rewrite filter_app, (filter_nonspace_all_space _ H).
Qed.

(** The separators that [re.split] consumes are whitespace. *)
Lemma re_split_go_content (s : text) :
  forall skip,
    forallb isspace (firstn skip s) = true ->
    content (fst (re_split_go s skip) :: snd (re_split_go s skip)) = nonspace s.
Proof.
  induction s as [|c r IH]; intros skip Hsk; [reflexivity|].
  destruct skip as [|k].
  - simpl re_split_go.
    destruct (Z.eqb_spec c NL) as [->|_].
    + destruct (ws_newline r) as [n|] eqn:E.
      * apply ws_newline_spec in E. specialize (IH n E).
        destruct (re_split_go r n) as [p ps]. exact IH.
      * specialize (IH 0%nat eq_refl).
        destruct (re_split_go r 0) as [p ps]. simpl in *. exact IH.
    + specialize (IH 0%nat eq_refl).
      destruct (re_split_go r 0) as [p ps]. simpl in *.
      destruct (negb (isspace c)); [now f_equal | exact IH].
  - simpl in Hsk. apply andb_prop in Hsk as [Hc Hk].
    simpl re_split_go. rewrite (IH k Hk). simpl. now rewrite Hc.
Qed.

Lemma re_split_blank_content (s : text) :
  content (re_split_blank s) = nonspace s.
Proof.
  unfold re_split_blank. pose proof (re_split_go_content s 0 eq_refl) as H.
  now destruct (re_split_go s 0).
Qed.

Lemma strip_pieces_content (l : list text) :
  content (map strip (filter (fun p => negb (is_empty (strip p))) l))
  = content l.
Proof.
  induction l as [|p l IH]; [reflexivity|].
  simpl filter. simpl concat. rewrite filter_app.
  destruct (strip p) as [|c q] eqn:E; simpl negb; cbv iota.
  - rewrite IH, <- (strip_nonspace p), E. reflexivity.
  - simpl map. simpl concat. rewrite filter_app, E, <- E, strip_nonspace.
    f_equal. exact IH.
Qed.

Lemma paragraphs_content (t : text) : content (paragraphs_of t) = nonspace t.
Proof.
  unfold paragraphs_of. now rewrite strip_pieces_content, re_split_blank_content.
Qed.

Lemma paragraphs_nonempty (t : text) :
  Forall (fun p => p <> []) (paragraphs_of t).
Proof.
  unfold paragraphs_of. apply Forall_forall. intros p Hp.
  apply in_map_iff in Hp as [q [<- Hq]]. apply filter_In in Hq as [_ Hq].
  now destruct (strip q).
Qed.

Lemma content_snoc (l : list text) (s : text) :
  content (l ++ [s]) = content l ++ nonspace s.
Proof. now rewrite concat_app, filter_app; simpl; rewrite app_nil_r. Qed.

Lemma flush_or_append_content (st : loop_state) (icb : bool) (p : text) :
  let st' := flush_or_append st icb p in
  content (chunks st') ++ nonspace (current_chunk st')
  = (content (chunks st) ++ nonspace (current_chunk st)) ++ nonspace p.
Proof.
  unfold flush_or_append.
  destruct ((len (current_chunk st) + len p >? MAX_CHUNK_SIZE)
            && (len (current_chunk st) >=? MIN_CHUNK_SIZE))%Z; simpl.
  - now rewrite content_snoc, strip_nonspace.
  - destruct (current_chunk st) as [|c q]; simpl is_empty; cbv iota.
    + now rewrite app_nil_r.
    + rewrite <- app_assoc. f_equal. now rewrite !filter_app.
Qed.

Lemma loop_body_content (st : loop_state) (p : text) :
  let st' := loop_body st p in
  content (chunks st') ++ nonspace (current_chunk st')
  = (content (chunks st) ++ nonspace (current_chunk st)) ++ nonspace p.
Proof.
  unfold loop_body.
  match goal with |- context [if ?b then flush_or_append _ ?i _ else _] =>
    destruct b; apply flush_or_append_content end.
Qed.

Lemma loop_content (ps : list text) (st : loop_state) :
  let st' := fold_left loop_body ps st in
  content (chunks st') ++ nonspace (current_chunk st')
  = (content (chunks st) ++ nonspace (current_chunk st)) ++ content ps.
Proof.
  revert st. induction ps as [|p ps IH]; intros st; simpl.
  - now rewrite app_nil_r.
  - rewrite IH, loop_body_content, filter_app. now rewrite <- !app_assoc.
Qed.

Lemma paragraph_chunks_content (t : text) :
  content (paragraph_chunks t) = nonspace t.
Proof.
  unfold paragraph_chunks.
  pose proof (loop_content (paragraphs_of t) (LoopState [] [] false)) as H.
  simpl in H. rewrite paragraphs_content in H.
  destruct (current_chunk _) as [|c q] eqn:E; simpl is_empty; cbv iota.
  - now rewrite app_nil_r in H.
  - now rewrite content_snoc, strip_nonspace.
Qed.

Lemma strip_head (s : text) :
  match strip s with [] => True | c :: _ => isspace c = false end.
Proof.
  unfold strip. pose proof (lstrip_head s) as H.
  destruct (lstrip s) as [|c r]; [exact I|].
  now rewrite rstrip_cons_nonspace.
Qed.

(** *** The chunks regroup the paragraphs *)

Lemma join_snoc (sep : text) (l : list text) (x : text) :
  l <> [] -> join sep (l ++ [x]) = join sep l ++ sep ++ x.
Proof.
  induction l as [|a l IH]; [contradiction|]. intros _.
  destruct l as [|b l]; [reflexivity|].
  change (join sep ((a :: b :: l) ++ [x]))
    with (a ++ sep ++ join sep ((b :: l) ++ [x])).
  rewrite IH by discriminate.
  change (join sep (a :: b :: l)) with (a ++ sep ++ join sep (b :: l)).
  now rewrite <- !app_assoc.
Qed.

Lemma join_snoc_app (sep : text) (l : list text) (x y : text) :
  join sep (l ++ [x ++ y]) = join sep (l ++ [x]) ++ y.
Proof.
  destruct l as [|a l]; [reflexivity|].
  rewrite !join_snoc by discriminate. now rewrite <- !app_assoc.
Qed.

Lemma stripped_head (x : text) :
  strip x = x -> match x with [] => True | c :: _ => isspace c = false end.
Proof. intros H. rewrite <- H. apply strip_head. Qed.

Lemma stripped_rstrip (x : text) : strip x = x -> rstrip x = x.
Proof.
  intros H. pose proof (@stripped_head x H) as Hh.
  unfold strip in H. now rewrite (@lstrip_fixed x Hh) in H.
Qed.

Lemma rstrip_app_fixed (a b : text) :
  rstrip b = b -> b <> [] -> rstrip (a ++ b) = a ++ b.
Proof.
  intros Hb Hne. induction a as [|c a IH]; [exact Hb|].
  simpl. rewrite IH. destruct (a ++ b) eqn:E; [|reflexivity].
  apply app_eq_nil in E as [_ E]. contradiction.
Qed.

Lemma stripped_app (x m y : text) :
  strip x = x -> x <> [] -> strip y = y -> y <> [] ->
  strip (x ++ m ++ y) = x ++ m ++ y.
Proof.
  intros Hx Hxne Hy Hyne. unfold strip.
  pose proof (@stripped_head x Hx) as Hh.
  destruct x as [|c x]; [contradiction|].
  rewrite (@lstrip_fixed ((c :: x) ++ m ++ y)) by exact Hh.
  rewrite app_assoc. apply rstrip_app_fixed; [now apply stripped_rstrip | exact Hyne].
Qed.

Lemma loop_body_regroups (st : loop_state) (done : list text) (p : text) :
  strip p = p -> p <> [] ->
  regroups st done -> regroups (loop_body st p) (done ++ [p]).
Proof.
  intros Hp Hpne [Hst [Hnil Hcons]].
  assert (H : forall icb, regroups (flush_or_append st icb p) (done ++ [p])).
  { intros icb. unfold flush_or_append.
    destruct ((len (current_chunk st) + len p >? MAX_CHUNK_SIZE)
              && (len (current_chunk st) >=? MIN_CHUNK_SIZE))%Z eqn:E.
    - assert (Hd : done <> []).
      { intros Hd. destruct (Hnil Hd) as [_ Hc]. rewrite Hc in E.
        apply andb_prop in E as [_ E]. discriminate. }
      destruct (Hcons Hd) as [Hcur Hjoin].
      split; [exact Hp|]. split; [now destruct done|]. intros _.
      split; [exact Hpne|]. simpl chunks. simpl current_chunk.
      rewrite Hst.
      rewrite (@join_snoc blank_line (chunks st ++ [current_chunk st]) p)
        by (now destruct (chunks st)).
      rewrite (@join_snoc blank_line done p Hd). now rewrite Hjoin.
    - simpl chunks. simpl current_chunk.
      destruct (current_chunk st) as [|c cur] eqn:Ecur; simpl is_empty; cbv iota.
      + assert (Hd : done = []).
        { destruct done; [reflexivity|]. now destruct Hcons. }
        destruct (Hnil Hd) as [Hch _]. subst done. rewrite Hch.
        split; [exact Hp|]. split; [discriminate|]. intros _. now split.
      + assert (Hd : done <> []).
        { intros Hd. now destruct (Hnil Hd). }
        destruct (Hcons Hd) as [_ Hjoin].
        split; [apply stripped_app; trivial; discriminate|].
        split; [now destruct done|]. intros _.
        split; [discriminate|]. simpl chunks. simpl current_chunk.
        change (c :: cur ++ NL :: NL :: p) with ((c :: cur) ++ blank_line ++ p).
        rewrite join_snoc_app, Hjoin.
        now rewrite (@join_snoc blank_line done p Hd). }
  unfold loop_body.
  match goal with |- context [if ?b then flush_or_append _ ?i _ else _] =>
    destruct b; apply H end.
Qed.

Lemma loop_regroups (ps : list text) :
  forall (st : loop_state) (done : list text),
    Forall (fun p => strip p = p /\ p <> []) ps ->
    regroups st done -> regroups (fold_left loop_body ps st) (done ++ ps).
Proof.
  induction ps as [|p ps IH]; intros st done Hps Hst; simpl.
  - now rewrite app_nil_r.
  - inversion Hps as [|? ? [Hp Hpne] Hrest]; subst.
    replace (done ++ p :: ps) with ((done ++ [p]) ++ ps)
      by now rewrite <- app_assoc.
    apply IH; [exact Hrest | now apply loop_body_regroups].
Qed.

Lemma paragraphs_stripped (t : text) :
  Forall (fun p => strip p = p /\ p <> []) (paragraphs_of t).
Proof.
  pose proof (paragraphs_nonempty t) as Hne. rewrite Forall_forall in *.
  intros p Hp. split; [|now apply Hne].
  unfold paragraphs_of in Hp. apply in_map_iff in Hp as [q [<- _]].
  apply strip_idem.
Qed.

(** The chunks, joined by blank lines, are the paragraphs joined by
    blank lines: the pass regroups the paragraphs and changes none. *)
Lemma paragraph_chunks_join (t : text) :
  join blank_line (paragraph_chunks t) = join blank_line (paragraphs_of t).
Proof.
  unfold paragraph_chunks.
  assert (H0 : regroups (LoopState [] [] false) []) by (repeat split; congruence).
  pose proof (@loop_regroups (paragraphs_of t) (LoopState [] [] false) []
                (paragraphs_stripped t) H0) as [Hst [Hnil Hcons]].
  simpl app in *.
  destruct (current_chunk (fold_left loop_body (paragraphs_of t)
                             (LoopState [] [] false))) as [|c cur] eqn:Ec;
    simpl is_empty; cbv iota.
  - destruct (paragraphs_of t) as [|p ps] eqn:E.
    + now destruct (Hnil eq_refl) as [-> _].
    + destruct Hcons as [Hcur _]; [discriminate | contradiction].
  - rewrite Hst. destruct (paragraphs_of t) as [|p ps] eqn:E.
    + now destruct (Hnil eq_refl) as [_ Hcur].
    + now destruct Hcons as [_ Hjoin]; [discriminate|].
Qed.

Section Unicode.

Variable isprintable : char -> bool.

Local Abbreviation clean := (clean_text isprintable).
Local Abbreviation chunk := (split_text_into_chunks isprintable).

(** The paragraph pass always yields a chunk for a non-empty cleaned
    text, so the character-based fallback is never entered. *)
Lemma paragraph_chunks_clean_nonempty (t0 : text) :
  clean t0 <> [] -> paragraph_chunks (clean t0) <> [].
Proof.
  intros Hne Hnil.
  pose proof (paragraph_chunks_content (clean t0)) as H.
  rewrite Hnil in H. simpl in H.
  pose proof (strip_head (clean t0)) as Hh.
  rewrite clean_text_stripped in Hh.
  destruct (clean t0) as [|c r]; [contradiction|].
  simpl in H. rewrite Hh in H. discriminate.
Qed.

Lemma split_text_into_chunks_paragraph_pass (t0 : text) :
  chunk t0 = if (len (clean t0) <=? MAX_CHUNK_SIZE)%Z then [clean t0]
             else paragraph_chunks (clean t0).
Proof.
  unfold split_text_into_chunks.
  destruct (len (clean t0) <=? MAX_CHUNK_SIZE)%Z eqn:E; [reflexivity|].
  destruct (paragraph_chunks (clean t0)) eqn:P; [|reflexivity].
  exfalso. revert P. apply paragraph_chunks_clean_nonempty.
  intros Hnil. rewrite Hnil in E. discriminate.
Qed.

Lemma split_text_into_chunks_content (t0 : text) :
  content (chunk t0) = nonspace (clean t0).
Proof.
  rewrite split_text_into_chunks_paragraph_pass.
  destruct (len (clean t0) <=? MAX_CHUNK_SIZE)%Z.
  - simpl. now rewrite app_nil_r.
  - apply paragraph_chunks_content.
Qed.

Lemma split_text_into_chunks_ext (isprintable' : char -> bool) (t0 : text) :
  (forall c, In c t0 -> isprintable c = isprintable' c) ->
  chunk t0 = split_text_into_chunks isprintable' t0.
Proof.
  intros H. unfold split_text_into_chunks.
  now rewrite (clean_text_ext isprintable isprintable' t0 H).
Qed.

End Unicode.

End ChunkerFacts.

Import ChunkerFacts.

(** ** Sorting in reverse order *)

Module SortFacts.

Section Generic.

Variables (A K : Type) (ltb : K -> K -> bool) (key : A -> K).

Local Abbreviation ins := (insert_reverse ltb key).
Local Abbreviation sort := (sort_reverse ltb key).

Lemma insert_reverse_perm (x : A) (l : list A) : Permutation (x :: l) (ins x l).
Proof.
  induction l as [|y r IH]; simpl; [reflexivity|].
  destruct (ltb (key x) (key y)); [|reflexivity].
  rewrite perm_swap. now apply perm_skip.
Qed.

Lemma sort_reverse_perm (l : list A) : Permutation l (sort l).
Proof.
  induction l as [|x l IH]; simpl; [reflexivity|].
  rewrite <- insert_reverse_perm. now apply perm_skip.
Qed.

Lemma sort_reverse_length (l : list A) : length (sort l) = length l.
Proof. symmetry. apply Permutation_length, sort_reverse_perm. Qed.

Section Ordered.

(** The keys on which [ltb] behaves as a strict weak order. *)
Variable regular : K -> Prop.
Hypothesis asym : forall a b, ltb a b = true -> ltb b a = false.
Hypothesis ntrans :
  forall a b c, regular b -> ltb a b = false -> ltb b c = false -> ltb a c = false.

Lemma insert_reverse_descending (x : A) (l : list A) :
  Forall (fun y => regular (key y)) l ->
  descending ltb key l -> descending ltb key (ins x l).
Proof.
  unfold descending. induction l as [|y r IH]; intros Hreg Hs; simpl.
  - repeat constructor.
  - inversion Hreg as [|? ? Hy Hr]; subst.
    inversion Hs as [|? ? Hsr Hyr]; subst.
    destruct (ltb (key x) (key y)) eqn:E.
    + constructor; [now apply IH|].
      apply (Permutation_Forall (insert_reverse_perm x r)).
      constructor; [now apply asym | exact Hyr].
    + constructor; [exact Hs|].
      constructor; [exact E|].
      eapply Forall_impl; [|exact Hyr]. intros z Hz.
      now apply ntrans with (b := key y).
Qed.

Lemma sort_reverse_descending (l : list A) :
  Forall (fun y => regular (key y)) l -> descending ltb key (sort l).
Proof.
  induction l as [|x l IH]; intros Hreg; simpl.
  - constructor.
  - inversion Hreg; subst. apply insert_reverse_descending; [|now apply IH].
    now apply (Permutation_Forall (sort_reverse_perm l)).
Qed.

End Ordered.

Section Stable.

(** [same a s]: the key [a] equals the key [s]. *)
Variable same : K -> K -> bool.
Hypothesis same_not_lt :
  forall a b s, same a s = true -> same b s = true -> ltb a b = false.

Lemma insert_reverse_same (s : K) (x : A) (l : list A) :
  filter (fun y => same (key y) s) (ins x l)
  = filter (fun y => same (key y) s) (x :: l).
Proof.
  induction l as [|y r IH]; [reflexivity|].
  simpl insert_reverse. destruct (ltb (key x) (key y)) eqn:E; [|reflexivity].
  simpl filter in *. rewrite IH.
  destruct (same (key x) s) eqn:Ex, (same (key y) s) eqn:Ey; try reflexivity.
  now rewrite (same_not_lt Ex Ey) in E.
Qed.

(** The elements with a given key come out in their input order. *)
Lemma sort_reverse_stable (s : K) (l : list A) :
  filter (fun y => same (key y) s) (sort l) = filter (fun y => same (key y) s) l.
Proof.
  induction l as [|x l IH]; [reflexivity|].
  simpl sort_reverse. rewrite insert_reverse_same. simpl. now rewrite IH.
Qed.

End Stable.

End Generic.

(** *** Order of occurrence *)

Lemma before_filter (A : Type) (f : A -> bool) (a b : A) (l : list A) :
  before a b (filter f l) -> before a b l.
Proof.
  intros [l1 [l2 [l3 H]]]. revert l1 H.
  induction l as [|x l IH]; intros l1 H; simpl in H.
  - now destruct l1.
  - destruct (f x).
    + destruct l1 as [|y l1]; simpl in H; injection H as -> H.
      * assert (Hb : In b l).
        { assert (Hin : In b (filter f l)) by (rewrite H; apply in_elt).
          now apply filter_In in Hin. }
        apply in_split in Hb as [m1 [m2 ->]]. now exists [], m1, m2.
      * destruct (IH l1 H) as [k1 [k2 [k3 ->]]]. now exists (y :: k1), k2, k3.
    + destruct (IH l1 H) as [k1 [k2 [k3 ->]]]. now exists (x :: k1), k2, k3.
Qed.

Lemma filter_before (A : Type) (f : A -> bool) (a b : A) (l : list A) :
  f a = true -> f b = true -> before a b l -> before a b (filter f l).
Proof.
  intros Ha Hb [l1 [l2 [l3 ->]]].
  exists (filter f l1), (filter f l2), (filter f l3).
  rewrite filter_app. simpl. rewrite Ha, filter_app. simpl. now rewrite Hb.
Qed.

Lemma before_map (A B : Type) (f : A -> B) (a b : A) (l : list A) :
  before a b l -> before (f a) (f b) (map f l).
Proof.
  intros [l1 [l2 [l3 ->]]]. exists (map f l1), (map f l2), (map f l3).
  now rewrite map_app; simpl; rewrite map_app.
Qed.

(** *** The order of floats *)

Ltac compare_cases :=
  repeat match goal with
  | |- context [Z.compare ?a ?b] =>
      destruct (Z.compare_spec a b); subst
  | |- context [Pos.compare_cont Eq ?a ?b] =>
      change (Pos.compare_cont Eq a b) with (Pos.compare a b);
      destruct (Pos.compare_spec a b); subst
  end; simpl; try congruence; try lia.

Lemma SFltb_asym (a b : float) : SFltb a b = true -> SFltb b a = false.
Proof.
  unfold SFltb, SFcompare.
  destruct a as [[]|[]| |[] m1 e1], b as [[]|[]| |[] m2 e2]; simpl;
    try congruence; compare_cases.
Qed.

Lemma SFltb_ntrans (a b c : float) :
  is_nan b = false ->
  SFltb a b = false -> SFltb b c = false -> SFltb a c = false.
Proof.
  unfold SFltb, SFcompare. intros Hb.
  destruct a as [[]|[]| |[] m1 e1], b as [[]|[]| |[] m2 e2],
           c as [[]|[]| |[] m3 e3]; simpl in *; try congruence; compare_cases.
Qed.

Lemma SFeqb_not_lt (a b s : float) :
  SFeqb a s = true -> SFeqb b s = true -> SFltb a b = false.
Proof.
  unfold SFltb, SFeqb, SFcompare.
  destruct a as [[]|[]| |[] m1 e1], b as [[]|[]| |[] m2 e2],
           s as [[]|[]| |[] m3 e3]; simpl; try congruence; compare_cases.
Qed.

Lemma SFeqb_sym (a b : float) : SFeqb a b = true -> SFeqb b a = true.
Proof.
  unfold SFeqb, SFcompare.
  destruct a as [[]|[]| |[] m1 e1], b as [[]|[]| |[] m2 e2]; simpl;
    try congruence; compare_cases.
Qed.

Lemma SFeqb_right_refl (a b : float) : SFeqb a b = true -> SFeqb b b = true.
Proof.
  unfold SFeqb, SFcompare.
  destruct a as [[]|[]| |[] m1 e1], b as [[]|[]| |[] m2 e2]; simpl;
    try congruence; compare_cases.
Qed.

Lemma float_gt_not_nan (x y : float) : float_gt x y = true -> is_nan x = false.
Proof. unfold float_gt, SFltb, SFcompare. destruct y, x; simpl; congruence. Qed.

(** *** Stable descending order on float keys and on integer keys *)

Section FloatKeys.

Variables (A : Type) (key : A -> float).

Lemma sort_float_descending (l : list A) :
  forallb (fun x => negb (is_nan (key x))) l = true ->
  descending SFltb key (sort_reverse SFltb key l).
Proof.
  intros H. apply sort_reverse_descending with (regular := fun k => is_nan k = false).
  - apply SFltb_asym.
  - apply SFltb_ntrans.
  - apply Forall_forall. intros x Hx. rewrite forallb_forall in H.
    apply negb_true_iff. now apply H.
Qed.

Lemma sort_float_stable (s : float) (l : list A) :
  filter (fun x => SFeqb (key x) s) (sort_reverse SFltb key l)
  = filter (fun x => SFeqb (key x) s) l.
Proof. apply sort_reverse_stable, SFeqb_not_lt. Qed.

Lemma sort_float_before (a b : A) (l : list A) :
  SFeqb (key a) (key b) = true -> before a b l ->
  before a b (sort_reverse SFltb key l).
Proof.
  intros E H.
  apply before_filter with (f := fun x => SFeqb (key x) (key b)).
  rewrite sort_float_stable.
  apply filter_before; [exact E | now apply SFeqb_right_refl with (a := key a) | exact H].
Qed.

End FloatKeys.

Section IntKeys.

Variables (A : Type) (key : A -> Z).

Lemma sort_int_descending (l : list A) :
  descending Z.ltb key (sort_reverse Z.ltb key l).
Proof.
  apply sort_reverse_descending with (regular := fun _ => True).
  - intros a b. rewrite Z.ltb_lt, Z.ltb_ge. lia.
  - intros a b c _. rewrite !Z.ltb_ge. lia.
  - apply Forall_forall. trivial.
Qed.

Lemma sort_int_stable (s : Z) (l : list A) :
  filter (fun x => (key x =? s)%Z) (sort_reverse Z.ltb key l)
  = filter (fun x => (key x =? s)%Z) l.
Proof.
  apply sort_reverse_stable. intros a b k Ha Hb.
  apply Z.eqb_eq in Ha, Hb. apply Z.ltb_ge. lia.
Qed.

Lemma sort_int_before (a b : A) (l : list A) :
  key a = key b -> before a b l -> before a b (sort_reverse Z.ltb key l).
Proof.
  intros E H.
  apply before_filter with (f := fun x => (key x =? key b)%Z).
  rewrite sort_int_stable.
  apply filter_before; [now apply Z.eqb_eq | apply Z.eqb_refl | exact H].
Qed.

End IntKeys.

End SortFacts.

Import SortFacts.

(** ** The embedder *)

Module EmbeddingFacts.

Lemma set_item_length (A : Type) (l : list A) (i : nat) (v : A) :
  length (set_item l i v) = length l.
Proof.
  revert i. induction l as [|x l IH]; intros [|i]; simpl; auto.
Qed.

Lemma traverse_map (A B : Type) (f : A -> result B) (g : A -> B) (xs : list A) :
  (forall x, In x xs -> f x = Ok (g x)) -> traverse f xs = Ok (map g xs).
Proof.
  induction xs as [|x xs IH]; intros H; simpl; [reflexivity|].
  rewrite (H x) by now left. simpl. rewrite IH; [reflexivity|].
  intros y Hy. apply H. now right.
Qed.

Lemma traverse_ok (A B : Type) (f : A -> result B) (P : B -> Prop) (xs : list A) :
  (forall x, In x xs -> exists y, f x = Ok y /\ P y) ->
  exists ys, traverse f xs = Ok ys /\ length ys = length xs /\ Forall P ys.
Proof.
  induction xs as [|x xs IH]; intros H; simpl.
  - now exists [].
  - destruct (H x) as [y [Hy HP]]; [now left|].
    destruct IH as [ys [Hys [Hlen HF]]]; [intros z Hz; apply H; now right|].
    exists (y :: ys). rewrite Hy. simpl. rewrite Hys. simpl.
    repeat split; [now f_equal | now constructor].
Qed.

Section Kernels.

Variable np : Numpy.
Variable D : Z.
Hypothesis D_pos : (0 < D)%Z.

Local Abbreviation step := (fun v (ic : Z * char) => add_at np D v (fst ic) (snd ic)).

Lemma accumulate_fold (chars : text) :
  forall (k : nat) (v : list float),
    accumulate np D chars (Z.of_nat k) v
    = Ok (fold_left step (combine (map Z.of_nat (seq k (length chars))) chars) v).
Proof.
  induction chars as [|c rest IH]; intros k v; simpl; [reflexivity|].
  destruct (Z.eqb_spec D 0) as [E|_]; [lia|].
  replace (Z.of_nat k + 1)%Z with (Z.of_nat (S k)) by lia.
  now rewrite IH.
Qed.

Lemma accumulate_sums (t : text) :
  accumulate np D t 0 (repeat zero (Z.to_nat D)) = Ok (spec_sums np D t).
Proof. exact (accumulate_fold t 0 (repeat zero (Z.to_nat D))). Qed.

Lemma fold_step_length (ics : list (Z * char)) (v : list float) :
  length (fold_left step ics v) = length v.
Proof.
  revert v. induction ics as [|ic ics IH]; intros v; simpl; [reflexivity|].
  rewrite IH. apply set_item_length.
Qed.

Lemma spec_sums_length (t : text) : len_float (spec_sums np D t) = D.
Proof.
  unfold len_float, spec_sums. rewrite fold_step_length, repeat_length. lia.
Qed.

Lemma spec_embed_length (t : text) : len_float (spec_embed np D t) = D.
Proof.
  unfold spec_embed. destruct (float_eq _ _).
  - apply spec_sums_length.
  - unfold len_float. rewrite length_map. apply spec_sums_length.
Qed.

Lemma spec_sums_empty : spec_sums np D [] = repeat zero (Z.to_nat D).
Proof. reflexivity. Qed.

(** The loop body never raises for a positive dimension, and yields a
    [float32] array of that dimension. *)
Lemma simple_embedding_total (t : text) :
  exists v, simple_embedding np D t = Ok v
            /\ dt v = float32 /\ len_float (data v) = D.
Proof.
  unfold simple_embedding, np_zeros.
  destruct (Z.ltb_spec D 0) as [E|_]; [lia|]. simpl.
  rewrite accumulate_sums. simpl.
  destruct (float_gt _ _); eexists; repeat split; simpl.
  - unfold len_float. rewrite length_map. apply spec_sums_length.
  - apply spec_sums_length.
Qed.

Lemma simple_embedding_spec (t : text) :
  ordinary_norm np D t = true ->
  simple_embedding np D t = Ok (NdArray float32 (spec_embed np D t)).
Proof.
  unfold ordinary_norm, simple_embedding, np_zeros, spec_embed. intros Hn.
  destruct (Z.ltb_spec D 0) as [E|_]; [lia|]. simpl.
  rewrite accumulate_sums. simpl. apply eqb_prop in Hn. rewrite Hn.
  now destruct (float_eq _ _).
Qed.

Lemma get_simple_embeddings_total (texts : list text) :
  exists vs, get_simple_embeddings np texts D = Ok vs
             /\ length vs = length texts
             /\ Forall (fun v => dt v = float32 /\ len_float (data v) = D) vs.
Proof.
  apply traverse_ok. intros t _. apply simple_embedding_total.
Qed.

Lemma get_simple_embeddings_spec (texts : list text) :
  forallb (ordinary_norm np D) texts = true ->
  get_simple_embeddings np texts D
  = Ok (map (fun t => NdArray float32 (spec_embed np D t)) texts).
Proof.
  intros H. apply traverse_map. intros t Ht. apply simple_embedding_spec.
  rewrite forallb_forall in H. now apply H.
Qed.

End Kernels.

(** [get_embeddings] with the configured dimension. *)
Lemma get_embeddings_simple (np : Numpy) (cfg : config) (texts : list text) :
  get_embeddings np cfg texts None
  = get_simple_embeddings np texts (EMBEDDING_DIM cfg).
Proof.
  unfold get_embeddings, get_external_embeddings.
  destruct (USE_EXTERNAL_EMBEDDINGS cfg); [|reflexivity].
  now destruct (get_simple_embeddings np texts (EMBEDDING_DIM cfg)).
Qed.

End EmbeddingFacts.

Import EmbeddingFacts.

(** ** Persisted embeddings *)

Module PdfStoreFacts.

Section Collaborators.

Variable js : Json.
Variable chunker : text -> result (list text).
Variable embedder : list text -> result (list ndarray).

Lemma add_chunks_in (pdf first : Z) (rows : list (text * Z * text)) (c : PDFChunk) :
  In c (add_chunks pdf first rows) ->
  chunk_pdf_id c = pdf
  /\ In (chunk_text c, chunk_index c, embedding c) rows.
Proof.
  revert first. induction rows as [|[[t i] e] rows IH]; intros first; simpl.
  - contradiction.
  - intros [<-|H]; simpl; [auto|].
    destruct (IH _ H) as [Hp Hin]. auto.
Qed.

Lemma add_chunks_length (pdf first : Z) (rows : list (text * Z * text)) :
  length (add_chunks pdf first rows) = length rows.
Proof.
  revert first. induction rows as [|[[t i] e] rows IH]; intros first; simpl;
    [reflexivity | now rewrite IH].
Qed.

Lemma placeholder_dimension :
  loads js (placeholder_embedding js) = Some (repeat zero 10).
Proof. apply loads_dumps. Qed.

Lemma stored_dimension_dumps (c : PDFChunk) (l : list float) :
  embedding c = dumps js l -> stored_dimension js c = Some (len_float l).
Proof. unfold stored_dimension. intros ->. now rewrite loads_dumps. Qed.

(** A row written on a degradation path carries the placeholder. *)
Lemma chunk_rows_embedding_failure (t : text) (chunks : list text) (e : exn) :
  chunker t = Ok chunks -> embedder chunks = Raise e ->
  chunk_rows js chunker embedder t
  = map (fun ic => (snd ic, fst ic, placeholder_embedding js)) (enumerate chunks).
Proof. unfold chunk_rows. now intros -> ->. Qed.

Lemma chunk_rows_chunking_failure (t : text) (e : exn) :
  chunker t = Raise e ->
  chunk_rows js chunker embedder t
  = [(if (len t >? 1000)%Z then slice t 0 1000 else t, 0%Z,
      placeholder_embedding js)].
Proof. unfold chunk_rows. now intros ->. Qed.

Lemma chunk_rows_success (t : text) (chunks : list text) (es : list ndarray)
  (row : text * Z * text) :
  chunker t = Ok chunks -> embedder chunks = Ok es ->
  In row (chunk_rows js chunker embedder t) ->
  exists e, In e es /\ snd row = dumps js (tolist e).
Proof.
  unfold chunk_rows. intros -> ->. intros H.
  apply in_map_iff in H as [[i [chunk e]] [<- Hin]].
  exists e. split; [|reflexivity].
  unfold enumerate in Hin. apply in_combine_r in Hin. now apply in_combine_r in Hin.
Qed.

End Collaborators.

End PdfStoreFacts.

Import PdfStoreFacts.

(** ** Scoring and ranking *)

Module QaFacts.

Section Services.

Variable np : Numpy.
Variable cfg : config.
Variable js : Json.

Lemma score_chunk_unparsable (q : ndarray) (c : PDFChunk) :
  loads js (embedding c) = None -> score_chunk np js q c = None.
Proof. unfold score_chunk. now intros ->. Qed.

Lemma score_chunks_app (q : ndarray) (l1 l2 : list PDFChunk) :
  score_chunks np js q (l1 ++ l2)
  = score_chunks np js q l1 ++ score_chunks np js q l2.
Proof. apply flat_map_app. Qed.

Lemma score_chunks_skip (q : ndarray) (l1 l2 : list PDFChunk) (c : PDFChunk) :
  loads js (embedding c) = None ->
  score_chunks np js q (l1 ++ c :: l2) = score_chunks np js q (l1 ++ l2).
Proof.
  intros H. rewrite !score_chunks_app. f_equal.
  unfold score_chunks at 1. simpl. now rewrite (score_chunk_unparsable q c H).
Qed.

Lemma score_chunks_none (q : ndarray) (chunks : list PDFChunk) :
  Forall (fun c => loads js (embedding c) = None) chunks ->
  score_chunks np js q chunks = [].
Proof.
  induction 1 as [|c l Hc _ IH]; [reflexivity|].
  unfold score_chunks in *. simpl.
  now rewrite (score_chunk_unparsable q c Hc), IH.
Qed.

(** The scored chunks are the chunks that could be scored, in the order
    of the table. *)
Lemma score_chunks_order (q : ndarray) (chunks : list PDFChunk) :
  map fst (score_chunks np js q chunks)
  = filter (fun c => match score_chunk np js q c with
                     | Some _ => true
                     | None => false
                     end) chunks.
Proof.
  induction chunks as [|c l IH]; [reflexivity|].
  unfold score_chunks in *. simpl.
  destruct (score_chunk np js q c); simpl; now rewrite IH.
Qed.

Lemma search_results_no_nan (db : Db) (q : ndarray) :
  forallb (fun r => negb (is_nan (result_score r))) (search_results np js db q)
  = true.
Proof.
  apply forallb_forall. intros r Hr. unfold search_results in Hr.
  apply in_flat_map in Hr as [c [_ Hr]].
  destruct (score_chunk np js q c) as [score|]; [|contradiction].
  destruct (float_gt score threshold) eqn:E; [|contradiction].
  destruct Hr as [<-|[]]. simpl.
  now rewrite (float_gt_not_nan _ _ E).
Qed.

Lemma question_embedding_ok (question : text) :
  (0 < EMBEDDING_DIM cfg)%Z ->
  exists q, get_embeddings np cfg [question] None = Ok [q].
Proof.
  intros HD. rewrite get_embeddings_simple.
  destruct (get_simple_embeddings_total np HD [question]) as [vs [Hvs [Hlen _]]].
  destruct vs as [|q [|]]; try discriminate. now exists q.
Qed.

Lemma answer_question_scored (db : Db) (question : text) (qe : ndarray) :
  get_embeddings np cfg [question] None = Ok [qe] ->
  pdf_chunks db <> [] ->
  answer_question np cfg js db question
  = match top_chunks_of np js qe (pdf_chunks db) with
    | [] => Ok no_relevant_information
    | top_chunks => generate_answer np question top_chunks
    end.
Proof.
  intros Hq Hne. unfold answer_question. rewrite Hq. simpl.
  now destruct (pdf_chunks db).
Qed.

End Services.

End QaFacts.

Import QaFacts.

(** ** The configuration check and the keyword retrieval *)

Module GeminiFacts.

Lemma text_eqb_eq (a b : text) : text_eqb a b = true <-> a = b.
Proof.
  revert b. induction a as [|x a IH]; intros [|y b]; simpl; split;
    try discriminate; try reflexivity.
  - intros H. apply andb_prop in H as [Hx Hab].
    apply Z.eqb_eq in Hx. apply IH in Hab. now subst.
  - intros [= -> ->]. rewrite Z.eqb_refl. now apply IH.
Qed.

Lemma existsb_text_eqb (x : text) (l : list text) :
  existsb (text_eqb x) l = true <-> In x l.
Proof.
  rewrite existsb_exists. split.
  - intros [y [Hy E]]. apply text_eqb_eq in E. now subst.
  - intros H. exists x. split; [exact H | now apply text_eqb_eq].
Qed.

Lemma distinct_NoDup (l : list text) : NoDup l -> distinct l = l.
Proof.
  induction 1 as [|x l Hx _ IH]; [reflexivity|]. simpl.
  destruct (existsb (text_eqb x) l) eqn:E.
  - apply existsb_text_eqb in E. contradiction.
  - now rewrite IH.
Qed.

Section Environment.

Variable environ : text -> option text.

Lemma falsy_py_or (a b : option text) :
  falsy (py_or a b) = falsy a && falsy b.
Proof. unfold py_or. now destruct (falsy a) eqn:E; simpl; [|rewrite E]. Qed.

Lemma llm_available_unconfigured :
  llm_available environ = negb (unconfigured environ).
Proof.
  unfold llm_available, _llm_configured, unconfigured, setting_absent.
  simpl forallb. rewrite !falsy_py_or, !andb_true_r, !negb_orb.
  now rewrite !andb_assoc.
Qed.

Lemma env_first_absent (names : list text) :
  setting_absent environ names = true -> _env_first environ names = None.
Proof.
  unfold setting_absent. induction names as [|n names IH]; [reflexivity|].
  simpl. intros H. apply andb_prop in H as [Hn H].
  destruct (environ n) as [v|]; [|now apply IH].
  destruct v; [|discriminate]. simpl. now apply IH.
Qed.

(** An absent setting makes the client raise its configuration error. *)
Lemma unconfigured_client_raises :
  unconfigured environ = true ->
  exists m, _get_azure_config environ = Raise (AzureOpenAIConfigError m).
Proof.
  unfold unconfigured, _get_azure_config. intros H.
  apply orb_prop in H as [H|H]; [apply orb_prop in H as [H|H]|];
    rewrite (env_first_absent _ H); simpl;
    repeat match goal with
    | |- context [falsy ?x] => destruct (falsy x)
    end; simpl; eexists; reflexivity.
Qed.

End Environment.

Section Retrieval.

Variable lower : text -> text.

Lemma relevance_count (keywords : list text) (chunk : text * Z) :
  relevance lower keywords chunk
  = Z.of_nat (length (matching_keywords lower keywords (fst chunk))).
Proof.
  unfold relevance, matching_keywords.
  induction keywords as [|k ks IH]; [reflexivity|]. simpl.
  rewrite IH. destruct (contains k (lower (fst chunk))); simpl length;
    simpl Z.b2z; lia.
Qed.

Lemma matching_keywords_NoDup (keywords : list text) (t : text) :
  NoDup keywords -> NoDup (matching_keywords lower keywords t).
Proof. apply NoDup_filter. Qed.

Lemma relevance_distinct (keywords : list text) (chunk : text * Z) :
  NoDup keywords ->
  relevance lower keywords chunk = distinct_matches lower keywords chunk.
Proof.
  intros H. unfold distinct_matches.
  rewrite distinct_NoDup by now apply matching_keywords_NoDup.
  apply relevance_count.
Qed.

Lemma extract_keywords_in (question w : text) :
  In w (extract_keywords lower question)
  <-> In w (split (lower question)) /\ ~ In w stop_words /\ (len w > 2)%Z.
Proof.
  unfold extract_keywords. rewrite filter_In, andb_true_iff, negb_true_iff.
  rewrite <- not_true_iff_false, existsb_text_eqb.
  split; intros [H1 [H2 H3]]; repeat split; trivial.
  - apply Z.gtb_lt in H3. lia.
  - apply Z.gtb_lt. lia.
Qed.

(** A kept word is kept as often as the question has it. *)
Lemma count_occ_filter (f : text -> bool) (l : list text) (w : text) :
  f w = true ->
  count_occ (list_eq_dec Z.eq_dec) (filter f l) w
  = count_occ (list_eq_dec Z.eq_dec) l w.
Proof.
  intros Hw. induction l as [|x l IH]; [reflexivity|].
  simpl filter. destruct (list_eq_dec Z.eq_dec x w) as [->|Hne].
  - rewrite Hw. rewrite (count_occ_cons_eq _ (filter f l) eq_refl).
    rewrite (count_occ_cons_eq _ l eq_refl). now f_equal.
  - rewrite (count_occ_cons_neq _ l Hne).
    destruct (f x); [rewrite (count_occ_cons_neq _ _ Hne)|]; exact IH.
Qed.

Lemma extract_keywords_count (question w : text) :
  In w (extract_keywords lower question) ->
  count_occ (list_eq_dec Z.eq_dec) (extract_keywords lower question) w
  = count_occ (list_eq_dec Z.eq_dec) (split (lower question)) w.
Proof.
  unfold extract_keywords. intros Hin. apply filter_In in Hin as [_ Hw].
  now apply count_occ_filter.
Qed.

Lemma relevant_chunks_in (keywords : list text) (chunks : list PDFChunk) (c : PDFChunk) :
  In c chunks ->
  (In (chunk_text c, chunk_pdf_id c) (relevant_chunks_of lower keywords chunks)
   <-> exists k, In k keywords /\ contains k (lower (chunk_text c)) = true).
Proof.
  intros Hc. unfold relevant_chunks_of, any_keyword. rewrite in_map_iff. split.
  - intros [c' [E H]]. apply filter_In in H as [_ H].
    injection E as Et _. rewrite Et in H. now apply existsb_exists in H.
  - intros H. exists c. split; [reflexivity|].
    apply filter_In. split; [exact Hc | now apply existsb_exists].
Qed.

End Retrieval.

End GeminiFacts.

Import GeminiFacts.

(** ** The loop of the embedder, cell by cell *)

Module EmbeddingReferenceFacts.

Lemma nth_set_item (A : Type) (l : list A) (i j : nat) (v d : A) :
  (i < length l)%nat ->
  nth j (set_item l i v) d = if (i =? j)%nat then v else nth j l d.
Proof.
  revert i j. induction l as [|x l IH]; intros i j H; [simpl in H; lia|].
  destruct i as [|i], j as [|j]; cbn [set_item nth Nat.eqb]; try reflexivity.
  apply IH. simpl in H. lia.
Qed.

Lemma fold_left_filter (A B : Type) (p : B -> bool) (f : A -> B -> A)
  (l : list B) (a : A) :
  fold_left (fun x b => if p b then f x b else x) l a
  = fold_left f (filter p l) a.
Proof.
  revert a. induction l as [|b l IH]; intros a; [reflexivity|].
  cbn [fold_left filter]. destruct (p b); cbn [fold_left]; apply IH.
Qed.

Lemma fold_left_map_arg (A B C : Type) (g : B -> C) (f : A -> C -> A)
  (l : list B) (a : A) :
  fold_left (fun x b => f x (g b)) l a = fold_left f (map g l) a.
Proof.
  revert a. induction l as [|b l IH]; intros a; [reflexivity|].
  cbn [fold_left map]. apply IH.
Qed.

Section Kernels.

Variable np : Numpy.
Variable plus : float -> float -> float.
Variable D : Z.
Hypothesis D_pos : (0 < D)%Z.
Hypothesis iadd_ord_plus :
  forall x c, iadd_ord np x c = plus x (ord_over_1000 c).

(** One cell of the vector while the loop runs. *)
Lemma nth_fold_add_at (ics : list (Z * char)) :
  forall (v : list float) (j : nat),
    length v = Z.to_nat D -> (j < Z.to_nat D)%nat ->
    nth j (fold_left (fun v ic => add_at np D v (fst ic) (snd ic)) ics v) zero
    = fold_left (fun cell ic => if (fst ic mod D =? Z.of_nat j)%Z
                                then plus cell (ord_over_1000 (snd ic))
                                else cell)
                ics (nth j v zero).
Proof.
  induction ics as [|[i c] ics IH]; intros v j Hv Hj; [reflexivity|].
  cbn [fold_left fst snd]. rewrite IH; [|unfold add_at; now rewrite set_item_length|exact Hj].
  f_equal. unfold add_at.
  pose proof (Z.mod_pos_bound i D D_pos) as Hm.
  rewrite nth_set_item by lia. rewrite iadd_ord_plus.
  destruct (Nat.eqb_spec (Z.to_nat (i mod D)) j) as [E|E].
  - subst j. rewrite Z2Nat.id by lia. now rewrite Z.eqb_refl.
  - destruct (Z.eqb_spec (i mod D) (Z.of_nat j)) as [E'|_]; [|reflexivity].
    exfalso. apply E. rewrite E'. apply Nat2Z.id.
Qed.

Lemma spec_sums_reference (t : text) :
  spec_sums np D t = reference_sums plus D t.
Proof.
  apply nth_ext with (d := zero) (d' := zero).
  - pose proof (@spec_sums_length np D D_pos t) as H. unfold len_float in H.
    unfold reference_sums. rewrite !length_map, length_seq. lia.
  - intros j Hj.
    pose proof (@spec_sums_length np D D_pos t) as H. unfold len_float in H.
    assert (Hj' : (j < Z.to_nat D)%nat) by lia.
    unfold spec_sums.
    rewrite (@nth_fold_add_at _ (repeat zero (Z.to_nat D)) j (repeat_length _ _) Hj').
    rewrite nth_repeat.
    unfold reference_sums. rewrite map_map.
    rewrite nth_indep with (d' := reference_cell plus D t (Z.of_nat 0))
      by (rewrite length_map, length_seq; exact Hj').
    rewrite (map_nth (fun k => reference_cell plus D t (Z.of_nat k))).
    rewrite seq_nth by exact Hj'. cbn [Nat.add].
    unfold reference_cell, characters_at.
    rewrite <- fold_left_map_arg.
    rewrite <- (fold_left_filter (fun ic : Z * char => (fst ic mod D =? Z.of_nat j)%Z)
                  (fun cell ic => plus cell (ord_over_1000 (snd ic)))).
    reflexivity.
Qed.

Lemma spec_embed_reference (t : text) :
  spec_embed np D t
  = reference_embed plus (fun v => linalg_norm np (NdArray float32 v))
      (divide np float32) D t.
Proof. unfold spec_embed, reference_embed. now rewrite spec_sums_reference. Qed.

Lemma ordinary_norm_reference (t : text) :
  ordinary_norm np D t
  = norm_is_a_number plus (fun v => linalg_norm np (NdArray float32 v)) D t.
Proof. unfold ordinary_norm, norm_is_a_number. now rewrite spec_sums_reference. Qed.

End Kernels.

End EmbeddingReferenceFacts.

Import EmbeddingReferenceFacts.

(* ================================================================== *)
(** * Part III: the claims of the specification                        *)
(* ================================================================== *)

(** ** The dimension of persisted embeddings *)

(** C1, as stated, fails: with the default dimension 128, a document
    saved while the embedder raises gets the placeholder of 10 zeros, so
    the table then holds embeddings of dimensions 128 and 10; with the
    application's own embedder the same happens when the configured
    dimension is 0. *)
Lemma C1_placeholder_has_dimension_10 :
  EMBEDDING_DIM default_config = 128%Z
  /\ map (stored_dimension sample_json) (pdf_chunks db_after_second_save)
     = [Some 128%Z; Some 10%Z]
  /\ map (stored_dimension sample_json)
         (pdf_chunks (fst (save_pdf_to_db_app isprintable_latin1 sample_numpy
                             (Config 0 false) sample_json empty_db
                             (py "a.pdf") (py "stored-a") (py "hello world"))))
     = [Some 10%Z].
Proof. repeat split; vm_compute; reflexivity. Qed.

(** C1 (amended): every chunk [save_pdf_to_db] persists has an
    embedding that deserializes.  With the application's chunker and
    embedder and a positive configured dimension D, every chunk added
    deserializes to a vector of dimension D, so a table whose chunks all
    have dimension D keeps that property.  A chunk written on the
    embedding-failure path or on the chunking-failure path carries the
    placeholder, which deserializes to 10 zeros whatever D is; on the
    chunking-failure path exactly one chunk is written. *)
Theorem C1_persisted_embedding_dimension
  (isprintable : char -> bool) (np : Numpy) (cfg : config) (js : Json)
  (chunker : text -> result (list text))
  (embedder : list text -> result (list ndarray))
  (db : Db) (original_filename stored_filename text_content : text) :
  ((0 < EMBEDDING_DIM cfg)%Z ->
   pdf_chunks (fst (save_pdf_to_db_app isprintable np cfg js db
                      original_filename stored_filename text_content))
   = pdf_chunks db
     ++ new_chunks js (app_chunker isprintable) (app_embedder np cfg) db
          original_filename text_content
   /\ Forall (fun c => stored_dimension js c = Some (EMBEDDING_DIM cfg))
        (new_chunks js (app_chunker isprintable) (app_embedder np cfg) db
           original_filename text_content)
   /\ (Forall (fun c => stored_dimension js c = Some (EMBEDDING_DIM cfg))
         (pdf_chunks db) ->
       Forall (fun c => stored_dimension js c = Some (EMBEDDING_DIM cfg))
         (pdf_chunks (fst (save_pdf_to_db_app isprintable np cfg js db
                             original_filename stored_filename text_content)))))
  /\ (forall chunks e,
        chunker (stored_text original_filename text_content) = Ok chunks ->
        embedder chunks = Raise e ->
        length (new_chunks js chunker embedder db original_filename text_content)
        = length chunks
        /\ Forall (fun c => loads js (embedding c) = Some (repeat zero 10)
                            /\ stored_dimension js c = Some 10%Z)
             (new_chunks js chunker embedder db original_filename text_content))
  /\ (forall e,
        chunker (stored_text original_filename text_content) = Raise e ->
        length (new_chunks js chunker embedder db original_filename text_content)
        = 1%nat
        /\ Forall (fun c => loads js (embedding c) = Some (repeat zero 10)
                            /\ stored_dimension js c = Some 10%Z)
             (new_chunks js chunker embedder db original_filename text_content)).
Proof.
  split; [|split].
  - intros HD. split; [reflexivity|].
    assert (Hnew : Forall (fun c => stored_dimension js c = Some (EMBEDDING_DIM cfg))
                     (new_chunks js (app_chunker isprintable) (app_embedder np cfg)
                        db original_filename text_content));
      [|split; [exact Hnew | intros Hold; apply Forall_app; now split]].
    apply Forall_forall. intros c Hc. unfold new_chunks in Hc.
    apply add_chunks_in in Hc as [_ Hrow].
    unfold app_embedder in Hrow.
    destruct (get_simple_embeddings_total np HD
                (split_text_into_chunks isprintable
                   (stored_text original_filename text_content)))
      as [vs [Hvs [_ Hdim]]].
    eapply chunk_rows_success in Hrow as [v [Hv Hemb]];
      [| reflexivity | cbv beta; rewrite get_embeddings_simple; exact Hvs].
    simpl in Hemb. rewrite (stored_dimension_dumps js c _ Hemb).
    rewrite Forall_forall in Hdim. destruct (Hdim v Hv) as [_ Hlen].
    unfold tolist. now rewrite Hlen.
  - intros chunks e Hc He. unfold new_chunks.
    rewrite (chunk_rows_embedding_failure js chunker embedder _ Hc He).
    split.
    + rewrite add_chunks_length, length_map. unfold enumerate.
      rewrite length_combine, length_map, length_seq. apply Nat.min_id.
    + apply Forall_forall. intros c Hin. apply add_chunks_in in Hin as [_ Hrow].
      apply in_map_iff in Hrow as [ic [Heq _]]. injection Heq as _ _ Hemb.
      unfold stored_dimension. rewrite <- Hemb, placeholder_dimension.
      split; reflexivity.
  - intros e Hc. unfold new_chunks.
    rewrite (chunk_rows_chunking_failure js chunker embedder _ Hc).
    split; [reflexivity|].
    repeat constructor; simpl; unfold stored_dimension; simpl;
      rewrite placeholder_dimension; reflexivity.
Qed.

Lemma C1_persisted_embedding_dimension_witness :
  (0 < EMBEDDING_DIM default_config)%Z
  /\ Forall (fun c => stored_dimension sample_json c = Some (EMBEDDING_DIM default_config))
       (new_chunks sample_json (app_chunker isprintable_latin1)
          (app_embedder sample_numpy default_config) empty_db
          (py "a.pdf") (py "hello world"))
  /\ app_chunker isprintable_latin1 (stored_text (py "a.pdf") (py "hello world"))
     = Ok [py "hello world"]
  /\ failing_embedder [py "hello world"]
     = Raise (RuntimeError (py "embedding backend unavailable"))
  /\ Forall (fun c => loads sample_json (embedding c) = Some (repeat zero 10)
                      /\ stored_dimension sample_json c = Some 10%Z)
       (new_chunks sample_json (app_chunker isprintable_latin1) failing_embedder
          empty_db (py "a.pdf") (py "hello world")).
Proof.
  split; [reflexivity|]. split; [|split; [reflexivity|split; [reflexivity|]]].
  - exact (proj1 (proj2 (proj1 (C1_persisted_embedding_dimension
                                  isprintable_latin1 sample_numpy default_config
                                  sample_json (app_chunker isprintable_latin1)
                                  failing_embedder empty_db (py "a.pdf")
                                  (py "stored-a") (py "hello world"))
                               eq_refl))).
  - exact (proj2 (proj1 (proj2 (C1_persisted_embedding_dimension
                                  isprintable_latin1 sample_numpy default_config
                                  sample_json (app_chunker isprintable_latin1)
                                  failing_embedder empty_db (py "a.pdf")
                                  (py "stored-a") (py "hello world")))
                    [py "hello world"]
                    (RuntimeError (py "embedding backend unavailable"))
                    eq_refl eq_refl)).
Defined.

(** ** The chunker on ["A" * 4000] *)

(** C2, as stated, fails: on ["A" * 4000] the paragraph pass emits the
    whole text as its only chunk, so the result is not the list of
    windows of the character-based fallback.  (That fallback, were it
    run on this text, would cut [0:3000] and [2400:4000], which overlap
    by 600 characters.) *)
Lemma C2_fallback_not_taken :
  (len A4000 > MAX_CHUNK_SIZE)%Z
  /\ split_text_into_chunks isprintable_latin1 A4000 = [A4000]
  /\ split_text_into_chunks isprintable_latin1 A4000 <> character_chunks A4000
  /\ map (window_bounds (len A4000)) (range0 (len A4000) (MAX_CHUNK_SIZE - CHUNK_OVERLAP))
     = [(0, 3000); (2400, 4000)]%Z.
Proof.
  assert (H : split_text_into_chunks isprintable_latin1 A4000 = [A4000])
    by (vm_compute; reflexivity).
  split; [vm_compute; reflexivity|].
  split; [exact H|]. split; [|vm_compute; reflexivity].
  assert (H2 : length (character_chunks A4000) = 2%nat)
    by (vm_compute; reflexivity).
  rewrite H. intros E. rewrite <- E in H2. discriminate H2.
Qed.

(** C2 (amended): for the text ["A" * 4000], [split_text_into_chunks]
    does not enter the fixed-size windowing fallback; the text is one
    paragraph, which the paragraph pass emits unsplit, and the result is
    the one-element list holding all 4000 characters. *)
Theorem C2_A4000_single_chunk (isprintable : char -> bool) :
  isprintable 65%Z = true ->
  split_text_into_chunks isprintable A4000 = [A4000]
  /\ paragraph_chunks (clean_text isprintable A4000) = [A4000].
Proof.
  intros H65.
  assert (Hext : forall c, In c A4000 -> isprintable c = isprintable_latin1 c).
  { intros c Hc. apply repeat_spec in Hc. subst c. now rewrite H65. }
  rewrite (split_text_into_chunks_ext isprintable isprintable_latin1 A4000 Hext).
  rewrite (clean_text_ext isprintable isprintable_latin1 A4000 Hext).
  split; vm_compute; reflexivity.
Qed.

Lemma C2_A4000_single_chunk_witness :
  isprintable_latin1 65%Z = true
  /\ split_text_into_chunks isprintable_latin1 A4000 = [A4000].
Proof.
  split; [reflexivity|].
  exact (proj1 (C2_A4000_single_chunk isprintable_latin1 eq_refl)).
Defined.

(** ** Character preservation of the paragraph pass *)

(** C3, as stated, fails: a cleaned text of two paragraphs of 2000
    characters separated by a blank line is cut into the two paragraphs;
    the chunks hold no separator, and their concatenation is three
    characters shorter than the text. *)
Lemma C3_separator_lost :
  clean_text isprintable_latin1 two_paragraphs = two_paragraphs
  /\ split_text_into_chunks isprintable_latin1 two_paragraphs
     = [repeat 97%Z 2000; repeat 98%Z 2000]
  /\ concat (split_text_into_chunks isprintable_latin1 two_paragraphs)
     <> two_paragraphs.
Proof.
  assert (H : split_text_into_chunks isprintable_latin1 two_paragraphs
              = [repeat 97%Z 2000; repeat 98%Z 2000])
    by (vm_compute; reflexivity).
  split; [vm_compute; reflexivity|]. split; [exact H|].
  assert (H2 : len two_paragraphs = 4003%Z) by (vm_compute; reflexivity).
  assert (H3 : len (concat (split_text_into_chunks isprintable_latin1 two_paragraphs))
               = 4000%Z)
    by (vm_compute; reflexivity).
  intros E. rewrite E, H2 in H3. discriminate H3.
Qed.

(** C3 (amended): for every text T, [split_text_into_chunks] returns
    the cleaned text or the result of the paragraph pass (never of the
    windowing fallback).  The returned chunks regroup the stripped,
    non-empty paragraphs of the cleaned text without changing any:
    joined by blank lines, the chunks are the paragraphs joined by blank
    lines.  Hence the concatenation of the chunks, whitespace characters
    deleted, is exactly the cleaned text with its whitespace deleted,
    which is the sequence of printable non-whitespace characters of T in
    their order.  The whitespace between and around paragraphs and the
    characters that cleaning drops are not reproduced. *)
Theorem C3_chunks_keep_printable_content (isprintable : char -> bool) (T : text) :
  split_text_into_chunks isprintable T
  = (if (len (clean_text isprintable T) <=? MAX_CHUNK_SIZE)%Z
     then [clean_text isprintable T]
     else paragraph_chunks (clean_text isprintable T))
  /\ join blank_line (split_text_into_chunks isprintable T)
     = (if (len (clean_text isprintable T) <=? MAX_CHUNK_SIZE)%Z
        then clean_text isprintable T
        else join blank_line (paragraphs_of (clean_text isprintable T)))
  /\ filter (fun c => negb (isspace c)) (concat (split_text_into_chunks isprintable T))
     = filter (fun c => negb (isspace c)) (clean_text isprintable T)
  /\ filter (fun c => negb (isspace c)) (concat (split_text_into_chunks isprintable T))
     = filter (fun c => negb (isspace c) && isprintable c) T.
Proof.
  split; [apply split_text_into_chunks_paragraph_pass|].
  split; [|split].
  - rewrite split_text_into_chunks_paragraph_pass.
    destruct (len (clean_text isprintable T) <=? MAX_CHUNK_SIZE)%Z;
      [reflexivity | apply paragraph_chunks_join].
  - apply split_text_into_chunks_content.
  - now rewrite split_text_into_chunks_content, clean_text_content.
Qed.

(** ** Short texts *)

(** C4, as stated, fails: the text is cleaned before its length is
    tested, so the single chunk is the cleaned text.  A text with a
    doubled space, and a text that is itself an output of [clean_text],
    are both returned changed. *)
Lemma C4_short_text_is_cleaned :
  (len (py "a  b") <= MAX_CHUNK_SIZE)%Z
  /\ split_text_into_chunks isprintable_latin1 (py "a  b") = [py "a b"]
  /\ split_text_into_chunks isprintable_latin1 (py "a  b") <> [py "a  b"]
  /\ clean_text isprintable_latin1 (py "a" ++ [NL; 13%Z; NL] ++ py "b")
     = py "a" ++ [NL; NL] ++ py "b"
  /\ split_text_into_chunks isprintable_latin1 (py "a" ++ [NL; NL] ++ py "b")
     <> [py "a" ++ [NL; NL] ++ py "b"].
Proof.
  repeat split; try (vm_compute; reflexivity);
    try (vm_compute; discriminate).
Qed.

(** C4 (amended): for every text T with length at most 3000,
    [split_text_into_chunks(T)] is the one-element list
    [[clean_text(T)]]; it is [[T]] when T is a fixed point of
    [clean_text]. *)
Theorem C4_short_text_single_cleaned_chunk (isprintable : char -> bool) (T : text) :
  (len T <= MAX_CHUNK_SIZE)%Z ->
  split_text_into_chunks isprintable T = [clean_text isprintable T]
  /\ (clean_text isprintable T = T -> split_text_into_chunks isprintable T = [T]).
Proof.
  intros Hlen.
  assert (H : split_text_into_chunks isprintable T = [clean_text isprintable T]).
  { unfold split_text_into_chunks.
    pose proof (clean_text_length isprintable T) as Hc.
    destruct (Z.leb_spec (len (clean_text isprintable T)) MAX_CHUNK_SIZE);
      [reflexivity | lia]. }
  split; [exact H|]. intros Hfix. now rewrite H, Hfix.
Qed.

Lemma C4_short_text_single_cleaned_chunk_witness :
  (len (py "a  b") <= MAX_CHUNK_SIZE)%Z
  /\ split_text_into_chunks isprintable_latin1 (py "a  b")
     = [clean_text isprintable_latin1 (py "a  b")].
Proof.
  split; [vm_compute; discriminate|].
  apply (proj1 (C4_short_text_single_cleaned_chunk isprintable_latin1 (py "a  b")
                  ltac:(vm_compute; discriminate))).
Defined.

(** ** Idempotence of the normalizer *)

(** C5, as stated, fails: the carriage return between two newlines is
    dropped after the newline runs were collapsed, which leaves a run of
    two newlines that a second pass collapses. *)
Lemma C5_clean_text_not_idempotent :
  clean_text isprintable_latin1 (clean_text isprintable_latin1 crlf_text)
  <> clean_text isprintable_latin1 crlf_text.
Proof. vm_compute. discriminate. Qed.

(** C5 (amended): [clean_text(clean_text(x)) == clean_text(x)] for every
    string x all of whose characters are printable or newline (the
    filter step then drops nothing); for every string x whatsoever a
    third pass changes nothing,
    [clean_text(clean_text(clean_text(x))) == clean_text(clean_text(x))]. *)
Theorem C5_clean_text_idempotent_on_kept (isprintable : char -> bool) (x : text) :
  (forallb (fun c => isprintable c || (c =? NL)%Z) x = true ->
   clean_text isprintable (clean_text isprintable x) = clean_text isprintable x)
  /\ clean_text isprintable (clean_text isprintable (clean_text isprintable x))
     = clean_text isprintable (clean_text isprintable x).
Proof.
  split.
  - apply clean_text_idempotent_kept.
  - apply clean_text_idempotent_kept, clean_text_kept.
Qed.

Lemma C5_clean_text_idempotent_on_kept_witness :
  forallb (fun c => isprintable_latin1 c || (c =? NL)%Z)
          (py "  a   b " ++ [NL; NL; NL] ++ py " c") = true
  /\ clean_text isprintable_latin1
       (clean_text isprintable_latin1 (py "  a   b " ++ [NL; NL; NL] ++ py " c"))
     = clean_text isprintable_latin1 (py "  a   b " ++ [NL; NL; NL] ++ py " c").
Proof.
  split; [reflexivity|].
  apply (proj1 (C5_clean_text_idempotent_on_kept isprintable_latin1
                  (py "  a   b " ++ [NL; NL; NL] ++ py " c"))).
  reflexivity.
Defined.

(** ** The embedder against its reference definition *)



(** ** Keyword-overlap retrieval *)

(** C7, as stated, fails: the sort key counts the entries of the
    keyword list found in the chunk, and the list repeats a word the
    question repeats.  For the question "tax tax tax growth profit" the
    chunk that holds one distinct keyword has key 3 and is ranked before
    the chunk that holds two distinct keywords, whose key is 2. *)
Lemma C7_repeated_keyword_counts_again :
  extract_keywords lower_ascii tax_question
  = [py "tax"; py "tax"; py "tax"; py "growth"; py "profit"]
  /\ top_chunks lower_ascii (extract_keywords lower_ascii tax_question)
       (relevant_chunks_of lower_ascii (extract_keywords lower_ascii tax_question)
          (scope_chunks tax_db None))
     = [py "Tax law"; py "growth and profit"]
  /\ distinct_matches lower_ascii (extract_keywords lower_ascii tax_question)
       (py "Tax law", 1%Z) = 1%Z
  /\ distinct_matches lower_ascii (extract_keywords lower_ascii tax_question)
       (py "growth and profit", 1%Z) = 2%Z
  /\ ~ descending Z.ltb
         (distinct_matches lower_ascii (extract_keywords lower_ascii tax_question))
         (ranked_chunks lower_ascii (extract_keywords lower_ascii tax_question)
            (relevant_chunks_of lower_ascii (extract_keywords lower_ascii tax_question)
               (scope_chunks tax_db None))).
Proof.
  repeat split; try (vm_compute; reflexivity).
  assert (E : ranked_chunks lower_ascii (extract_keywords lower_ascii tax_question)
                (relevant_chunks_of lower_ascii
                   (extract_keywords lower_ascii tax_question)
                   (scope_chunks tax_db None))
              = [(py "Tax law", 1%Z); (py "growth and profit", 1%Z)])
    by (vm_compute; reflexivity).
  rewrite E. intros H. inversion H as [|? ? _ Hall]; subst.
  inversion Hall as [|? ? Hlt _]; subst.
  vm_compute in Hlt. discriminate Hlt.
Qed.

(** C7 (amended): in the single-document and in the cross-document
    scope alike, the keywords are the words of the lower-cased question
    that are not stop words and are longer than 2 characters, one entry
    per occurrence in the question; the retained chunks are exactly the
    chunks in scope whose lower-cased text contains some keyword; they
    are ranked, stably and in descending order, by the number of entries
    of the keyword list found in the chunk, which is the number of
    distinct matching keywords when the question repeats no keyword; the
    texts of the first 8 are joined by the delimiter as the primary
    context.  For the question "revenue growth", a chunk containing both
    keywords is ranked before a chunk containing only "revenue",
    however often "revenue" occurs in it. *)
Theorem C7_keyword_overlap_retrieval
  (lower : text -> text) (db : Db) (question : text) (pdf_id : option Z) :
  let keywords := extract_keywords lower question in
  let scope := scope_chunks db pdf_id in
  let relevant := relevant_chunks_of lower keywords scope in
  let ranked := ranked_chunks lower keywords relevant in
  (forall w, In w keywords
             <-> In w (split (lower question)) /\ ~ In w stop_words /\ (len w > 2)%Z)
  /\ (forall w, In w keywords ->
                count_occ (list_eq_dec Z.eq_dec) keywords w
                = count_occ (list_eq_dec Z.eq_dec) (split (lower question)) w)
  /\ (forall c, In c scope ->
        (In (chunk_text c, chunk_pdf_id c) relevant
         <-> exists k, In k keywords /\ contains k (lower (chunk_text c)) = true))
  /\ (forall r, In r relevant ->
        exists c, In c scope /\ r = (chunk_text c, chunk_pdf_id c))
  /\ Permutation relevant ranked
  /\ descending Z.ltb (relevance lower keywords) ranked
  /\ (forall a b, relevance lower keywords a = relevance lower keywords b ->
                  before a b relevant -> before a b ranked)
  /\ (forall chunk, relevance lower keywords chunk
                    = Z.of_nat (length (matching_keywords lower keywords (fst chunk))))
  /\ (NoDup keywords ->
      forall chunk, relevance lower keywords chunk
                    = distinct_matches lower keywords chunk)
  /\ primary_context lower db question pdf_id
     = join chunk_delimiter (map fst (firstn 8 ranked))
  /\ (lower (py "revenue growth") = py "revenue growth" ->
      forall t1 t2 id1 id2,
        contains (py "revenue") (lower t1) = true ->
        contains (py "growth") (lower t1) = false ->
        contains (py "revenue") (lower t2) = true ->
        contains (py "growth") (lower t2) = true ->
        ranked_chunks lower (extract_keywords lower (py "revenue growth"))
          [(t1, id1); (t2, id2)]
        = [(t2, id2); (t1, id1)]).
Proof.
  intros keywords scope relevant ranked.
  split; [intros w; apply extract_keywords_in|].
  split; [intros w; apply extract_keywords_count|].
  split; [intros c Hc; now apply relevant_chunks_in|].
  split.
  { intros r Hr. unfold relevant, relevant_chunks_of in Hr.
    apply in_map_iff in Hr as [c [<- Hc]]. apply filter_In in Hc as [Hc _].
    now exists c. }
  split; [apply sort_reverse_perm|].
  split; [apply sort_int_descending|].
  split; [intros a b; apply sort_int_before|].
  split; [intros chunk; apply relevance_count|].
  split; [intros Hnd chunk; now apply relevance_distinct|].
  split; [reflexivity|].
  intros Hq t1 t2 id1 id2 Hr1 Hg1 Hr2 Hg2.
  unfold extract_keywords. rewrite Hq.
  change (filter _ (split (py "revenue growth")))
    with [py "revenue"; py "growth"].
  unfold ranked_chunks, sort_reverse, relevance. simpl.
  now rewrite Hr1, Hg1, Hr2, Hg2.
Qed.

Lemma C7_keyword_overlap_retrieval_witness :
  lower_ascii (py "revenue growth") = py "revenue growth"
  /\ ranked_chunks lower_ascii (extract_keywords lower_ascii (py "revenue growth"))
       [(py "Revenue rose. Revenue fell. Revenue is revenue.", 1%Z);
        (py "Growth of revenue", 2%Z)]
     = [(py "Growth of revenue", 2%Z);
        (py "Revenue rose. Revenue fell. Revenue is revenue.", 1%Z)].
Proof.
  split; [reflexivity|].
  apply (proj2 (proj2 (proj2 (proj2 (proj2 (proj2 (proj2 (proj2 (proj2 (proj2
           (C7_keyword_overlap_retrieval lower_ascii empty_db [] None))))))))))
         eq_refl);
    reflexivity.
Defined.

(** ** Stability of the similarity ranking *)



(** ** The configuration check *)

(** C9, as stated, fails: with no setting at all in the environment, a
    follow-up call that carries a previous answer returns a successful
    outcome whose answer is the apology of the follow-up generator, not
    the configuration error. *)
Lemma C9_followup_skips_configuration_check :
  unconfigured empty_environ = true
  /\ sample_answer_question_with_ai empty_environ empty_db
       (py "and then?") None true (Some (py "earlier answer"))
     = Success followup_apology (SourceLabel (py "Follow-up Enhancement")) 0 true
               followup_apology
  /\ sample_answer_question_with_ai empty_environ empty_db
       (py "and then?") None true (Some (py "earlier answer"))
     <> Failure services_not_available.
Proof.
  split; [reflexivity|]. split; [reflexivity|]. discriminate.
Qed.

(** A blank API key passes [llm_available] although the client rejects
    it, and a missing document is then reported. *)
Lemma blank_setting_passes_configuration_check :
  llm_available blank_key_environ = true
  /\ (exists m, _get_azure_config blank_key_environ
                = Raise (AzureOpenAIConfigError m))
  /\ sample_answer_question_with_ai blank_key_environ empty_db
       (py "what?") (Some 7%Z) false None
     = Failure (pdf_not_found 7).
Proof.
  split; [reflexivity|]. split; [eexists; reflexivity | reflexivity].
Qed.

(** C9 (amended): when a required setting (API key, base URL or
    deployment) is unset or empty under every name it is read from, and
    the call is not a follow-up that carries a previous answer,
    [answer_question_with_ai] returns the configuration-error outcome
    for every question and every document scope, before any document is
    looked up, so never a not-found outcome; the client raises its
    configuration error for such an environment as well.  (A follow-up
    call with a previous answer returns a successful outcome carrying
    the apology of the follow-up generator.) *)
Theorem C9_unconfigured_generator_is_reported
  (environ : text -> option text)
  (post : azure_config -> text -> result text)
  (lower : text -> text)
  (followup_prompt : text -> text -> text)
  (chunks_prompt : text -> text -> list text -> text)
  (format_code_blocks add_thinking_effect : text -> text)
  (clean_response : text -> text -> text)
  (detect_simplification_request : text -> bool)
  (simplify_complex_answer : text -> text -> text)
  (is_tech_question : text -> bool)
  (handle_tech_question handle_conversational_query : text -> option response)
  (full_content_answer : text -> list text -> list text -> bool -> result text)
  (db : Db) (question : text) (pdf_id : option Z)
  (is_followup : bool) (previous_answer : option text) :
  unconfigured environ = true ->
  let outcome :=
    answer_question_with_ai environ post lower followup_prompt chunks_prompt
      format_code_blocks add_thinking_effect clean_response
      detect_simplification_request simplify_complex_answer is_tech_question
      handle_tech_question handle_conversational_query full_content_answer
      db question pdf_id is_followup previous_answer in
  (is_followup && negb (falsy previous_answer) = false ->
   outcome = Failure services_not_available
   /\ (forall id, outcome <> Failure (pdf_not_found id))
   /\ outcome <> Failure no_pdfs_uploaded
   /\ outcome <> Failure no_pdf_content_available)
  /\ (is_followup && negb (falsy previous_answer) = true ->
      outcome = Success followup_apology (SourceLabel (py "Follow-up Enhancement"))
                        0 true followup_apology)
  /\ (exists m, _get_azure_config environ = Raise (AzureOpenAIConfigError m)).
Proof.
  intros Hun outcome.
  assert (Hav : llm_available environ = false)
    by (rewrite llm_available_unconfigured, Hun; reflexivity).
  destruct (unconfigured_client_raises environ Hun) as [m Hm].
  split; [|split].
  - intros Hf.
    assert (E : outcome = Failure services_not_available).
    { unfold outcome, answer_question_with_ai. now rewrite Hf, Hav. }
    rewrite E. split; [reflexivity|].
    split; [intros id|split]; intros H;
      apply (f_equal (fun r => match r with
                               | Failure m => nth 0 m 0%Z
                               | Success _ _ _ _ _ => 0%Z
                               end)) in H;
      vm_compute in H; discriminate H.
  - intros Hf. unfold outcome, answer_question_with_ai. rewrite Hf.
    unfold generate_followup_answer, _llm_generate, chat_completion_sync.
    now rewrite Hm.
  - now exists m.
Qed.

Lemma C9_unconfigured_generator_is_reported_witness :
  unconfigured empty_environ = true
  /\ sample_answer_question_with_ai empty_environ tax_db (py "what is tax?")
       (Some 99%Z) false None
     = Failure services_not_available.
Proof.
  split; [reflexivity|].
  apply (proj1 (C9_unconfigured_generator_is_reported
                  empty_environ echo lower_ascii
                  (fun question previous_answer => question ++ previous_answer)
                  (fun question context _ => question ++ context)
                  (fun answer => answer) (fun answer => answer)
                  (fun answer _ => answer) (fun _ => false)
                  (fun answer _ => answer) (fun _ => false)
                  (fun _ => None) (fun _ => None)
                  (fun question _ _ _ => Ok question)
                  tax_db (py "what is tax?") (Some 99%Z) false None eq_refl)).
  reflexivity.
Defined.

(** ** Embeddings that do not deserialize *)

(** C10: in [answer_question], a chunk whose stored embedding does not
    deserialize is left out of the scores and the request goes on: the
    scores, and the answer when another chunk exists, are those of the
    table without that chunk.  When the table is not empty and no stored
    embedding deserializes, the function returns the fixed string
    "I couldn't find any relevant information in the uploaded PDFs.".
    The configured dimension is positive, so that the question itself
    is embedded. *)
Theorem C10_unparsable_embeddings_are_skipped
  (np : Numpy) (cfg : config) (js : Json) (db : Db) (question : text) :
  (0 < EMBEDDING_DIM cfg)%Z ->
  (forall q l1 c l2,
      loads js (embedding c) = None ->
      score_chunk np js q c = None
      /\ score_chunks np js q (l1 ++ c :: l2) = score_chunks np js q (l1 ++ l2))
  /\ (forall l1 c l2,
        pdf_chunks db = l1 ++ c :: l2 -> l1 ++ l2 <> [] ->
        loads js (embedding c) = None ->
        answer_question np cfg js db question
        = answer_question np cfg js (MkDb (pdfs db) (pdf_contents db) (l1 ++ l2))
            question)
  /\ (pdf_chunks db <> [] ->
      Forall (fun c => loads js (embedding c) = None) (pdf_chunks db) ->
      answer_question np cfg js db question = Ok no_relevant_information).
Proof.
  intros HD. destruct (@question_embedding_ok np cfg question HD) as [qe Hq].
  split; [|split].
  - intros q l1 c l2 H. split.
    + now apply score_chunk_unparsable.
    + now apply score_chunks_skip.
  - intros l1 c l2 Hdb Hne Hc.
    rewrite (@answer_question_scored np cfg js db question qe Hq)
      by (rewrite Hdb; now destruct l1).
    rewrite (@answer_question_scored np cfg js
               (MkDb (pdfs db) (pdf_contents db) (l1 ++ l2)) question qe Hq)
      by exact Hne.
    simpl pdf_chunks. rewrite Hdb. unfold top_chunks_of.
    now rewrite (@score_chunks_skip np js qe l1 l2 c Hc).
  - intros Hne Hall.
    rewrite (@answer_question_scored np cfg js db question qe Hq Hne).
    unfold top_chunks_of. now rewrite (@score_chunks_none np js qe _ Hall).
Qed.

Lemma C10_unparsable_embeddings_are_skipped_witness :
  (0 < EMBEDDING_DIM default_config)%Z
  /\ pdf_chunks unparsable_db <> []
  /\ Forall (fun c => loads sample_json (embedding c) = None) (pdf_chunks unparsable_db)
  /\ answer_question sample_numpy default_config sample_json unparsable_db
       (py "what is this?")
     = Ok no_relevant_information.
Proof.
  assert (H1 : (0 < EMBEDDING_DIM default_config)%Z) by reflexivity.
  assert (H2 : pdf_chunks unparsable_db <> []) by discriminate.
  assert (H3 : Forall (fun c => loads sample_json (embedding c) = None)
                 (pdf_chunks unparsable_db))
    by (repeat constructor).
  split; [exact H1|]. split; [exact H2|]. split; [exact H3|].
  exact (proj2 (proj2 (@C10_unparsable_embeddings_are_skipped sample_numpy
                         default_config sample_json unparsable_db
                         (py "what is this?") H1)) H2 H3).
Defined.

(* ================================================================== *)
(** * Part IV: further properties of the code                          *)
(* ================================================================== *)

(** ** Cleaning and chunking *)

Module ChunkShapeFacts.

Section Unicode.

Variable isprintable : char -> bool.

Local Abbreviation clean := (clean_text isprintable).
Local Abbreviation chunk := (split_text_into_chunks isprintable).

Lemma flush_or_append_tidy (st : loop_state) (icb : bool) (p : text) :
  tidy p ->
  strip (current_chunk st) = current_chunk st ->
  Forall tidy (chunks st) ->
  strip (current_chunk (flush_or_append st icb p)) = current_chunk (flush_or_append st icb p)
  /\ current_chunk (flush_or_append st icb p) <> []
  /\ Forall tidy (chunks (flush_or_append st icb p)).
Proof.
  intros [Hp Hne] Hc Hall. unfold flush_or_append.
  destruct ((len (current_chunk st) + len p >? MAX_CHUNK_SIZE)%Z
            && (len (current_chunk st) >=? MIN_CHUNK_SIZE)%Z) eqn:E.
  - simpl. split; [exact Hp|]. split; [exact Hne|].
    apply Forall_app. split; [exact Hall|]. constructor; [|constructor].
    apply andb_true_iff in E as [_ E]. rewrite Hc. split; [exact Hc|].
    intros H0. rewrite H0 in E. discriminate E.
  - cbn [current_chunk chunks].
    destruct (current_chunk st) as [|c cur] eqn:Ecur; cbn [is_empty].
    + now repeat split.
    + split; [|split; [discriminate | exact Hall]].
      apply stripped_app; [exact Hc | discriminate | exact Hp | exact Hne].
Qed.

Lemma loop_body_eq (st : loop_state) (p : text) :
  exists icb, loop_body st p = flush_or_append st icb p.
Proof.
  unfold loop_body.
  match goal with |- context [if ?b then flush_or_append st ?i p else _] =>
    exists i; now destruct b end.
Qed.

Lemma loop_tidy (ps : list text) :
  forall st,
    Forall tidy ps ->
    strip (current_chunk st) = current_chunk st ->
    Forall tidy (chunks st) ->
    let st' := fold_left loop_body ps st in
    strip (current_chunk st') = current_chunk st'
    /\ Forall tidy (chunks st')
    /\ (ps <> [] -> current_chunk st' <> []).
Proof.
  induction ps as [|p ps IH]; intros st Hps Hc Hall; simpl.
  - now repeat split.
  - inversion Hps as [|? ? Hp Hps']; subst.
    destruct (loop_body_eq st p) as [icb E]. rewrite E.
    destruct (@flush_or_append_tidy st icb p Hp Hc Hall) as [H1 [H2 H3]].
    destruct (IH _ Hps' H1 H3) as [K1 [K2 K3]].
    split; [exact K1|]. split; [exact K2|]. intros _.
    destruct ps as [|q ps']; [exact H2 | apply K3; discriminate].
Qed.

Lemma paragraph_chunks_tidy (t : text) : Forall tidy (paragraph_chunks t).
Proof.
  unfold paragraph_chunks.
  destruct (@loop_tidy (paragraphs_of t) (LoopState [] [] false)
              (paragraphs_stripped t) eq_refl (Forall_nil _)) as [H1 [H2 _]].
  set (st' := fold_left loop_body (paragraphs_of t) (LoopState [] [] false)) in *.
  destruct (current_chunk st') as [|c cur] eqn:E; simpl; [exact H2|].
  apply Forall_app. split; [exact H2|]. constructor; [|constructor].
  rewrite H1. split; [exact H1 | discriminate].
Qed.

(** Sizes *)

Lemma len_app (a b : text) : len (a ++ b) = (len a + len b)%Z.
Proof. unfold len. rewrite length_app. lia. Qed.

Lemma len_strip_le (s : text) : (len (strip s) <= len s)%Z.
Proof. unfold len. pose proof (strip_length s). lia. Qed.

Lemma flush_or_append_bound (L : Z) (st : loop_state) (icb : bool) (p : text) :
  (len p <= L)%Z ->
  (len (current_chunk st) <= bound L)%Z ->
  Forall (fun c => (len c <= bound L)%Z) (chunks st) ->
  (len (current_chunk (flush_or_append st icb p)) <= bound L)%Z
  /\ Forall (fun c => (len c <= bound L)%Z) (chunks (flush_or_append st icb p)).
Proof.
  intros Hp Hc Hall. unfold flush_or_append.
  assert (H0 : (0 <= len (current_chunk st))%Z) by (unfold len; lia).
  destruct ((len (current_chunk st) + len p >? MAX_CHUNK_SIZE)%Z
            && (len (current_chunk st) >=? MIN_CHUNK_SIZE)%Z) eqn:E; simpl.
  - split; [unfold bound, MIN_CHUNK_SIZE in *; lia|].
    apply Forall_app. split; [exact Hall|]. constructor; [|constructor].
    pose proof (len_strip_le (current_chunk st)). lia.
  - split; [|exact Hall].
    destruct (current_chunk st) as [|c cur] eqn:Ecur; simpl is_empty; cbv iota.
    + unfold bound, MIN_CHUNK_SIZE. lia.
    + rewrite len_app.
      assert (E2 : len (NL :: NL :: p) = (2 + len p)%Z)
        by (unfold len; simpl length; lia).
      rewrite E2.
      apply andb_false_iff in E. unfold bound, MAX_CHUNK_SIZE, MIN_CHUNK_SIZE in *.
      destruct E as [E|E];
        [rewrite Z.gtb_ltb in E; apply Z.ltb_ge in E
        | rewrite Z.geb_leb in E; apply Z.leb_gt in E]; lia.
Qed.

Lemma loop_bound (L : Z) (ps : list text) :
  forall st,
    Forall (fun p => (len p <= L)%Z) ps ->
    (len (current_chunk st) <= bound L)%Z ->
    Forall (fun c => (len c <= bound L)%Z) (chunks st) ->
    let st' := fold_left loop_body ps st in
    (len (current_chunk st') <= bound L)%Z
    /\ Forall (fun c => (len c <= bound L)%Z) (chunks st').
Proof.
  induction ps as [|p ps IH]; intros st Hps Hc Hall; simpl; [now split|].
  inversion Hps as [|? ? Hp Hps']; subst.
  destruct (loop_body_eq st p) as [icb E]. rewrite E.
  destruct (@flush_or_append_bound L st icb p Hp Hc Hall) as [H1 H2].
  exact (IH _ Hps' H1 H2).
Qed.

Lemma paragraph_chunks_bound (L : Z) (t : text) :
  Forall (fun p => (len p <= L)%Z) (paragraphs_of t) ->
  Forall (fun c => (len c <= bound L)%Z) (paragraph_chunks t).
Proof.
  intros Hps. unfold paragraph_chunks.
  assert (H0 : (len (current_chunk (LoopState [] [] false)) <= bound L)%Z)
    by (unfold bound, MAX_CHUNK_SIZE, MIN_CHUNK_SIZE, len; cbn [current_chunk length]; lia).
  destruct (@loop_bound L (paragraphs_of t) (LoopState [] [] false)
              Hps H0 (Forall_nil _)) as [H1 H2].
  clear H0.
  set (st' := fold_left loop_body (paragraphs_of t) (LoopState [] [] false)) in *.
  destruct (current_chunk st') as [|c cur] eqn:E; simpl; [exact H2|].
  apply Forall_app. split; [exact H2|]. constructor; [|constructor].
  pose proof (len_strip_le (c :: cur)). lia.
Qed.

Lemma split_text_into_chunks_nonempty (t : text) : chunk t <> [].
Proof.
  rewrite split_text_into_chunks_paragraph_pass.
  destruct (Z.leb_spec (len (clean t)) MAX_CHUNK_SIZE) as [Hle|Hgt]; [discriminate|].
  apply paragraph_chunks_clean_nonempty. intros E. rewrite E in Hgt.
  unfold MAX_CHUNK_SIZE, len in Hgt. simpl in Hgt. lia.
Qed.

End Unicode.

End ChunkShapeFacts.

Import ChunkShapeFacts.

(** X1: [clean_text] returns a text in normal form.  The result has no
    surrounding whitespace; each of its characters is printable or a
    newline and occurs in the input; it is not longer than the
    input. *)
Theorem clean_text_normal_form (isprintable : char -> bool) (t : text) :
  let c := clean_text isprintable t in
  strip c = c
  /\ Forall (fun ch => isprintable ch = true \/ ch = NL) c
  /\ incl c t
  /\ (len c <= len t)%Z.
Proof.
  intros c. split; [apply clean_text_stripped|]. split.
  - pose proof (clean_text_kept isprintable t) as H.
    apply Forall_forall. intros ch Hin.
    rewrite forallb_forall in H. specialize (H ch Hin).
    apply orb_true_iff in H as [H|H]; [now left | right; now apply Z.eqb_eq].
  - split; [|apply clean_text_length].
    unfold c, clean_text. intros ch Hin.
    destruct (strip_split (filter (fun c0 => isprintable c0 || (c0 =? NL)%Z)
                             (sub_runs SP (sub_runs NL t)))) as [p [q [E _]]].
    assert (H : In ch (filter (fun c0 => isprintable c0 || (c0 =? NL)%Z)
                         (sub_runs SP (sub_runs NL t)))).
    { rewrite E. apply in_or_app. right. apply in_or_app. now left. }
    apply filter_In in H as [H _].
    now apply sub_runs_incl, sub_runs_incl in H.
Qed.

(** X2: the shape of the chunks.  [split_text_into_chunks] returns at
    least one chunk, and no chunk has surrounding whitespace.  When the
    cleaned text is longer than [MAX_CHUNK_SIZE], no chunk is empty; a
    text that cleans to the empty text gives the single empty chunk. *)
Theorem split_text_into_chunks_shape (isprintable : char -> bool) (t : text) :
  let cs := split_text_into_chunks isprintable t in
  cs <> []
  /\ Forall (fun c => strip c = c) cs
  /\ ((len (clean_text isprintable t) > MAX_CHUNK_SIZE)%Z -> Forall (fun c => c <> []) cs)
  /\ (clean_text isprintable t = [] -> cs = [[]]).
Proof.
  intros cs. unfold cs. rewrite split_text_into_chunks_paragraph_pass.
  destruct (Z.leb_spec (len (clean_text isprintable t)) MAX_CHUNK_SIZE) as [Hle|Hgt].
  - split; [discriminate|]. split.
    + constructor; [apply clean_text_stripped | constructor].
    + split; [intros; lia | intros ->; reflexivity].
  - assert (Hne : clean_text isprintable t <> []).
    { intros E. rewrite E in Hgt. unfold MAX_CHUNK_SIZE, len in Hgt. simpl in Hgt. lia. }
    split; [now apply paragraph_chunks_clean_nonempty|].
    pose proof (paragraph_chunks_tidy (clean_text isprintable t)) as H.
    split; [eapply Forall_impl; [|exact H]; now intros c [Hc _]|].
    split; [intros _; eapply Forall_impl; [|exact H]; now intros c [_ Hc]|].
    intros E. contradiction.
Qed.

(** X3: the size of the chunks.  [MAX_CHUNK_SIZE] is not a bound on
    the chunks: a paragraph is never cut, and a chunk shorter than
    [MIN_CHUNK_SIZE] takes the next paragraph whatever its length.  If
    no paragraph of the cleaned text has more than [L] characters, no
    chunk has more than the greater of [MAX_CHUNK_SIZE + 2] and
    [L + MIN_CHUNK_SIZE + 1]. *)
Theorem split_text_into_chunks_size (isprintable : char -> bool) (t : text) (L : Z) :
  Forall (fun p => (len p <= L)%Z) (paragraphs_of (clean_text isprintable t)) ->
  Forall (fun c => (len c <= Z.max (MAX_CHUNK_SIZE + 2) (L + MIN_CHUNK_SIZE + 1))%Z)
         (split_text_into_chunks isprintable t).
Proof.
  intros H. rewrite split_text_into_chunks_paragraph_pass.
  destruct (Z.leb_spec (len (clean_text isprintable t)) MAX_CHUNK_SIZE) as [Hle|Hgt].
  - constructor; [lia | constructor].
  - now apply paragraph_chunks_bound.
Qed.

Lemma split_text_into_chunks_size_witness :
  Forall (fun p => (len p <= 2000)%Z)
         (paragraphs_of (clean_text isprintable_latin1 two_paragraphs))
  /\ Forall (fun c => (len c <= 3002)%Z)
            (split_text_into_chunks isprintable_latin1 two_paragraphs).
Proof.
  assert (H : Forall (fun p => (len p <= 2000)%Z)
                (paragraphs_of (clean_text isprintable_latin1 two_paragraphs))).
  { apply Forall_forall. intros p Hp.
    assert (E : forallb (fun p => (len p <=? 2000)%Z)
                  (paragraphs_of (clean_text isprintable_latin1 two_paragraphs)) = true)
      by (vm_compute; reflexivity).
    rewrite forallb_forall in E. apply Z.leb_le. now apply E. }
  split; [exact H|].
  exact (@split_text_into_chunks_size isprintable_latin1 two_paragraphs 2000 H).
Defined.

(** ** Python strings: prefixes, occurrences and separators *)

Module PyStrExtFacts.

Lemma startswith_app (p s : text) : startswith p (p ++ s) = true.
Proof. induction p as [|a p IH]; simpl; [reflexivity|]. now rewrite Z.eqb_refl. Qed.

Lemma startswith_split (p s : text) :
  startswith p s = true -> s = p ++ skipn (length p) s.
Proof.
  revert s. induction p as [|a p IH]; intros [|b s] H; simpl in *;
    try reflexivity; try discriminate.
  apply andb_true_iff in H as [H1 H2]. apply Z.eqb_eq in H1. subst b.
  f_equal. now apply IH.
Qed.

Lemma startswith_length (p s : text) :
  startswith p s = true -> (length p <= length s)%nat.
Proof.
  intros H. rewrite (startswith_split _ _ H), length_app. lia.
Qed.

Lemma startswith_more (p s t : text) :
  startswith p s = true -> startswith p (s ++ t) = true.
Proof.
  intros H. rewrite (startswith_split _ _ H), <- app_assoc. apply startswith_app.
Qed.

Lemma startswith_less (p s t : text) :
  (length p <= length s)%nat -> startswith p (s ++ t) = startswith p s.
Proof.
  revert s. induction p as [|a p IH]; intros [|b s] H; simpl in *;
    try reflexivity; try lia.
  rewrite IH by lia. reflexivity.
Qed.

Lemma skipn_app_le (A : Type) (k : nat) (a b : list A) :
  (k <= length a)%nat -> skipn k (a ++ b) = skipn k a ++ b.
Proof.
  intros H. rewrite skipn_app. replace (k - length a)%nat with 0%nat by lia.
  reflexivity.
Qed.

(** [s.find(sub)] is [-1] or an index at which [sub] starts, and [sub]
    starts at no earlier index. *)
Lemma find_from_range (sub s : text) (i : Z) :
  find_from sub s i = (-1)%Z \/ (i <= find_from sub s i)%Z.
Proof.
  revert i. induction s as [|c s IH]; intros i; simpl.
  - destruct (startswith sub []); [right; lia | now left].
  - destruct (startswith sub (c :: s)); [right; lia|].
    destruct (IH (i + 1)%Z) as [H|H]; [now left | right; lia].
Qed.

Lemma find_from_none_before (sub s : text) (i : Z) (n : nat) :
  (0 <= i)%Z ->
  find_from sub s i = (i + Z.of_nat n)%Z ->
  forall k, (k < n)%nat -> startswith sub (skipn k s) = false.
Proof.
  revert i n. induction s as [|c s IH]; intros i n Hi H k Hk.
  - simpl in H. destruct (startswith sub []) eqn:E; [lia|]. lia.
  - simpl in H. destruct (startswith sub (c :: s)) eqn:E; [lia|].
    destruct n as [|n]; [lia|].
    destruct k as [|k]; [exact E|]. simpl.
    apply (IH (i + 1)%Z n); [lia | rewrite H; lia | lia].
Qed.

Lemma contains_occurs (sub s : text) :
  contains sub s = true ->
  exists k, (k <= length s)%nat /\ startswith sub (skipn k s) = true.
Proof.
  induction s as [|c s IH]; simpl.
  - rewrite orb_false_r. intros H. exists 0%nat. now split.
  - intros H. apply orb_true_iff in H as [H|H].
    + exists 0%nat. split; [lia | exact H].
    + destruct (IH H) as [k [Hk Hs]]. exists (S k). split; [lia | exact Hs].
Qed.

Lemma contains_app (pre sub rest : text) : contains sub (pre ++ sub ++ rest) = true.
Proof.
  induction pre as [|c pre IH].
  - simpl app. destruct (sub ++ rest) eqn:E; simpl.
    + destruct sub; [reflexivity | discriminate E].
    + rewrite <- E, startswith_app. reflexivity.
  - simpl. rewrite IH. apply orb_true_r.
Qed.

(** The piece in front of the first separator. *)
Lemma split_on_first (sep pre rest : text) :
  sep <> [] ->
  (forall k, (k < length pre)%nat ->
             startswith sep (skipn k (pre ++ sep ++ rest)) = false) ->
  hd [] (split_on sep (pre ++ sep ++ rest)) = pre.
Proof.
  intros Hsep. unfold split_on.
  induction pre as [|c pre IH]; intros H.
  - simpl app. destruct sep as [|a sep]; [contradiction|].
    change ((a :: sep) ++ rest) with (a :: (sep ++ rest)).
    cbn [split_on_go].
    assert (E : startswith (a :: sep) (a :: (sep ++ rest)) = true)
      by (exact (startswith_app (a :: sep) rest)).
    rewrite E. now destruct (split_on_go _ _ _).
  - cbn [app split_on_go].
    assert (E : startswith sep (c :: pre ++ sep ++ rest) = false)
      by (apply (H 0%nat); simpl; lia).
    rewrite E.
    assert (K : forall k, (k < length pre)%nat ->
                          startswith sep (skipn k (pre ++ sep ++ rest)) = false).
    { intros k Hk. apply (H (S k)). simpl. lia. }
    specialize (IH K). destruct (split_on_go sep (pre ++ sep ++ rest) 0) as [p ps].
    simpl in *. now f_equal.
Qed.

Lemma text_eqb_refl (s : text) : text_eqb s s = true.
Proof. now apply text_eqb_eq. Qed.

Lemma endswith_app (suf s : text) : endswith suf (s ++ suf) = true.
Proof.
  unfold endswith. rewrite length_app.
  replace (length s + length suf - length suf)%nat with (length s) by lia.
  rewrite skipn_app, skipn_all, Nat.sub_diag. simpl.
  rewrite text_eqb_refl, andb_true_r. apply Nat.leb_le. lia.
Qed.

Lemma drop_last_app (suf s : text) : drop_last (length suf) (s ++ suf) = s.
Proof.
  unfold drop_last. rewrite length_app.
  replace (length s + length suf - length suf)%nat with (length s) by lia.
  rewrite firstn_app, firstn_all, Nat.sub_diag. simpl. apply app_nil_r.
Qed.

Lemma rstrip_chars_snoc (chars s : text) (c : char) :
  rstrip_chars chars (s ++ [c])
  = if existsb (Z.eqb c) chars then rstrip_chars chars s else s ++ [c].
Proof.
  induction s as [|a s IH]; simpl.
  - now destruct (existsb (Z.eqb c) chars).
  - rewrite IH. destruct (existsb (Z.eqb c) chars); [reflexivity|].
    now destruct s.
Qed.

Lemma rstrip_chars_keeps (chars s : text) (c : char) :
  existsb (Z.eqb c) chars = false -> rstrip_chars chars (s ++ [c]) = s ++ [c].
Proof. intros H. now rewrite rstrip_chars_snoc, H. Qed.

Lemma rstrip_stripped (s : text) : rstrip s = s -> rstrip (lstrip s) = lstrip s.
Proof.
  induction s as [|c s IH]; [reflexivity|]. intros H. simpl lstrip.
  destruct (isspace c) eqn:E; [|exact H].
  apply IH. simpl in H. destruct (rstrip s) eqn:Er.
  - rewrite E in H. discriminate H.
  - now injection H.
Qed.

Lemma strip_snoc (s : text) (c : char) :
  isspace c = false -> strip (s ++ [c]) = lstrip s ++ [c].
Proof.
  intros H. unfold strip. rewrite lstrip_app_nonspace by exact H.
  apply rstrip_app_fixed; [simpl; now rewrite H | discriminate].
Qed.

Lemma strip_fixed_ends (s : text) (c : char) :
  match s ++ [c] with [] => True | a :: _ => isspace a = false end ->
  isspace c = false -> strip (s ++ [c]) = s ++ [c].
Proof.
  intros H1 H2. unfold strip.
  rewrite (@lstrip_fixed (s ++ [c]) H1).
  apply rstrip_app_fixed; [simpl; now rewrite H2 | discriminate].
Qed.

End PyStrExtFacts.

Import PyStrExtFacts.

(** ** The request URL *)

Module UrlFacts.

Local Abbreviation sep := deployments_path.

Lemma stripped_lstrip (s : text) : strip s = s -> lstrip s = s.
Proof. intros H. apply lstrip_fixed. now apply stripped_head. Qed.

(** The last character [quote_plus] writes is neither whitespace nor a
    slash. *)
Lemma unreserved_plain (b : Z) :
  unreserved b = true -> isspace b = false /\ (b =? 47)%Z = false.
Proof.
  unfold unreserved, isspace. intros H.
  rewrite !orb_true_iff, !andb_true_iff, !Z.leb_le, !Z.eqb_eq in H.
  split.
  - apply not_true_iff_false. intros K.
    rewrite !orb_true_iff, !andb_true_iff, !Z.leb_le, !Z.eqb_eq in K. lia.
  - apply Z.eqb_neq. lia.
Qed.

Lemma hex_digit_plain (d : Z) :
  (0 <= d < 16)%Z -> isspace (hex_digit d) = false /\ (hex_digit d =? 47)%Z = false.
Proof.
  intros H. unfold hex_digit, isspace.
  destruct (Z.ltb_spec d 10); split;
    try (apply Z.eqb_neq; lia);
    apply not_true_iff_false; intros K;
    rewrite !orb_true_iff, !andb_true_iff, !Z.leb_le, !Z.eqb_eq in K; lia.
Qed.

Local Abbreviation plain_end s :=
  (s = [] \/ exists w c, s = w ++ [c] /\ isspace c = false /\ (c =? 47)%Z = false).

Lemma quote_byte_end (b : Z) :
  exists w c, quote_byte b = w ++ [c] /\ isspace c = false /\ (c =? 47)%Z = false.
Proof.
  unfold quote_byte. destruct (unreserved b) eqn:E.
  - exists [], b. split; [reflexivity | now apply unreserved_plain].
  - destruct (b =? 32)%Z.
    + exists [], 43%Z. now repeat split.
    + exists [37%Z; hex_digit (b / 16)], (hex_digit (b mod 16)).
      split; [reflexivity|]. apply hex_digit_plain. apply Z.mod_pos_bound. lia.
Qed.

Lemma flat_map_quote_end (bytes : list Z) : plain_end (flat_map quote_byte bytes).
Proof.
  induction bytes as [|b bytes IH]; [now left|]. right. simpl.
  destruct IH as [E|[w [c [E H]]]].
  - rewrite E, app_nil_r. apply quote_byte_end.
  - rewrite E. exists (quote_byte b ++ w), c. split; [now rewrite app_assoc | exact H].
Qed.

Lemma quote_plus_end (s q : text) : quote_plus s = Ok q -> plain_end q.
Proof.
  unfold quote_plus. destruct (utf8_encode s) as [bytes|e]; [|discriminate].
  simpl. intros H. injection H as <-. apply flat_map_quote_end.
Qed.

Lemma urlencode_api_version (v : text) :
  urlencode [(py "api-version", v)]
  = bind (quote_plus v) (fun q => Ok (py "api-version=" ++ q)).
Proof.
  unfold urlencode. cbn [traverse fst snd].
  assert (E : quote_plus (py "api-version") = Ok (py "api-version"))
    by (vm_compute; reflexivity).
  rewrite E. cbn [bind]. destruct (quote_plus v) as [q|e]; [|reflexivity].
  reflexivity.
Qed.

Section Root.

Variable root : text.
Hypothesis Hroot : resource_root root = true.

Lemma root_stripped : strip root = root.
Proof.
  unfold resource_root in Hroot. rewrite !andb_true_iff in Hroot.
  now apply text_eqb_eq.
Qed.

Lemma root_no_slash : rstrip_chars (py "/") root = root.
Proof.
  unfold resource_root in Hroot. rewrite !andb_true_iff in Hroot.
  now apply text_eqb_eq.
Qed.

Lemma root_no_openai : endswith (py "/openai") root = false.
Proof.
  unfold resource_root in Hroot. rewrite !andb_true_iff in Hroot.
  now apply negb_true_iff.
Qed.

Lemma root_first (k : nat) :
  (k < length root)%nat -> startswith sep (skipn k (root ++ sep)) = false.
Proof.
  unfold resource_root in Hroot. rewrite !andb_true_iff in Hroot.
  destruct Hroot as [_ H]. apply Z.eqb_eq in H. unfold str_find, len in H.
  now apply (@find_from_none_before sep (root ++ sep) 0 (length root)).
Qed.

Lemma root_first_more (rest : text) (k : nat) :
  (k < length root)%nat -> startswith sep (skipn k (root ++ sep ++ rest)) = false.
Proof.
  intros Hk. rewrite app_assoc, skipn_app_le by (rewrite length_app; lia).
  rewrite startswith_less; [now apply root_first|].
  rewrite length_skipn, length_app. lia.
Qed.

(** No occurrence of the path in a text that is a prefix of
    [root ++ sep] without the last character of [sep]. *)
Lemma root_prefix_free (s t : text) :
  root ++ sep = s ++ t -> t <> [] -> (length root <= length s)%nat ->
  contains sep s = false.
Proof.
  intros E Ht Hs. apply not_true_iff_false. intros H.
  apply contains_occurs in H as [k [Hk Hk']].
  pose proof (startswith_length _ _ Hk') as Hl. rewrite length_skipn in Hl.
  assert (Hlen : (length root + length sep = length s + length t)%nat)
    by (rewrite <- !length_app; now f_equal).
  assert (Ht' : (0 < length t)%nat) by (destruct t; [contradiction | simpl; lia]).
  assert (Hkr : (k < length root)%nat) by lia.
  pose proof (root_first Hkr) as Hf. rewrite E, skipn_app_le in Hf by exact Hk.
  now rewrite (startswith_more _ _ t Hk') in Hf.
Qed.

Lemma root_free : contains sep root = false.
Proof.
  apply (@root_prefix_free root sep); [reflexivity | discriminate | lia].
Qed.

Lemma root_openai_free : contains sep (root ++ py "/openai") = false.
Proof.
  apply (@root_prefix_free (root ++ py "/openai") (py "/deployments/")).
  - now rewrite <- app_assoc.
  - discriminate.
  - rewrite length_app. lia.
Qed.

Lemma root_head (s : text) (c : char) :
  isspace c = false ->
  match (root ++ c :: s) with [] => True | a :: _ => isspace a = false end.
Proof.
  intros H. pose proof (stripped_head root_stripped) as K.
  destruct root; [exact H | exact K].
Qed.

Lemma normalised_root : normalised_base root = root.
Proof.
  unfold normalised_base. rewrite root_stripped, root_no_slash, root_free.
  now rewrite root_no_openai.
Qed.

Lemma normalised_slash : normalised_base (root ++ py "/") = root.
Proof.
  unfold normalised_base. change (root ++ py "/") with (root ++ [47%Z]).
  rewrite strip_snoc by reflexivity. rewrite (stripped_lstrip root_stripped).
  rewrite rstrip_chars_snoc.
  change (existsb (Z.eqb 47) (py "/")) with true. cbv iota.
  rewrite root_no_slash, root_free. now rewrite root_no_openai.
Qed.

Lemma openai_stripped : strip (root ++ py "/openai") = root ++ py "/openai".
Proof.
  change (root ++ py "/openai") with (root ++ py "/opena" ++ [105%Z]).
  rewrite app_assoc. apply strip_fixed_ends; [|reflexivity].
  rewrite <- app_assoc. now apply (@root_head (py "opena" ++ [105%Z]) 47%Z).
Qed.

Lemma openai_no_slash :
  rstrip_chars (py "/") (root ++ py "/openai") = root ++ py "/openai".
Proof.
  change (root ++ py "/openai") with (root ++ py "/opena" ++ [105%Z]).
  rewrite app_assoc. now apply rstrip_chars_keeps.
Qed.

Lemma normalised_openai : normalised_base (root ++ py "/openai") = root.
Proof.
  unfold normalised_base.
  rewrite openai_stripped, openai_no_slash, root_openai_free.
  rewrite (endswith_app (py "/openai") root).
  apply (drop_last_app (py "/openai") root).
Qed.

Lemma normalised_openai_slash : normalised_base (root ++ py "/openai/") = root.
Proof.
  unfold normalised_base.
  change (root ++ py "/openai/") with (root ++ py "/openai" ++ [47%Z]).
  rewrite app_assoc.
  rewrite strip_snoc by reflexivity.
  assert (E : lstrip (root ++ py "/openai") = root ++ py "/openai").
  { apply lstrip_fixed. now apply (@root_head (py "openai") 47%Z). }
  rewrite E, rstrip_chars_snoc.
  change (existsb (Z.eqb 47) (py "/")) with true. cbv iota.
  rewrite openai_no_slash, root_openai_free.
  rewrite (endswith_app (py "/openai") root).
  apply (drop_last_app (py "/openai") root).
Qed.

(** A base URL that continues the root with the path of a deployment
    and ends in a character that is neither whitespace nor a slash. *)
Lemma normalised_deeper (w : text) (c : char) :
  isspace c = false -> (c =? 47)%Z = false ->
  normalised_base (root ++ sep ++ w ++ [c]) = root.
Proof.
  intros Hc1 Hc2. unfold normalised_base.
  assert (E1 : strip (root ++ sep ++ w ++ [c]) = root ++ sep ++ w ++ [c]).
  { rewrite !app_assoc. apply strip_fixed_ends; [|exact Hc1].
    rewrite <- !app_assoc. now apply (@root_head (py "openai/deployments/" ++ w ++ [c]) 47%Z). }
  rewrite E1.
  assert (E2 : rstrip_chars (py "/") (root ++ sep ++ w ++ [c]) = root ++ sep ++ w ++ [c]).
  { rewrite !app_assoc. apply rstrip_chars_keeps. cbn. now rewrite Hc2. }
  rewrite E2, contains_app.
  rewrite split_on_first;
    [now rewrite root_no_openai | discriminate | intros k Hk; now apply root_first_more].
Qed.

End Root.

End UrlFacts.

Import UrlFacts.

(** X4: the request URL is built from the resource root, however the
    base URL spells it.  Take a root in normal form ([resource_root]):
    it has no surrounding whitespace, ends neither in "/" nor in
    "/openai", and the first occurrence of "/openai/deployments/" in the
    root followed by "/openai/deployments/" is the one that is appended
    (so the root neither holds that path nor ends in
    "/openai/deployments").  For such a root the URL is the root
    followed by "/openai/deployments/", the deployment,
    "/chat/completions?api-version=" and the quoted API version; the
    same URL is built from the root with a trailing slash, with
    "/openai" or "/openai/" appended, and from a URL the function built
    itself: fed back as base URL, its output is normalised to the same
    root. *)
Theorem azure_url_normalisation (root deployment api_version : text) :
  resource_root root = true ->
  let url := _build_azure_chat_completions_url in
  url root deployment api_version
  = bind (quote_plus api_version) (fun version =>
      Ok (root ++ py "/openai/deployments/" ++ deployment
          ++ py "/chat/completions?api-version=" ++ version))
  /\ url (root ++ py "/") deployment api_version = url root deployment api_version
  /\ url (root ++ py "/openai") deployment api_version
     = url root deployment api_version
  /\ url (root ++ py "/openai/") deployment api_version
     = url root deployment api_version
  /\ (forall u d v, url root deployment api_version = Ok u ->
                    url u d v = url root d v).
Proof.
  intros Hroot url. unfold url, _build_azure_chat_completions_url.
  rewrite (@normalised_root root Hroot), (@normalised_slash root Hroot),
    (@normalised_openai root Hroot), (@normalised_openai_slash root Hroot).
  split.
  { rewrite urlencode_api_version. destruct (quote_plus api_version); [|reflexivity].
    cbn [bind]. now rewrite <- !app_assoc. }
  split; [reflexivity|]. split; [reflexivity|]. split; [reflexivity|].
  intros u d v Hu. rewrite urlencode_api_version in Hu.
  destruct (quote_plus api_version) as [q|e] eqn:Eq; [|discriminate Hu].
  cbn [bind] in Hu.
  assert (Hu' : u = (root ++ deployments_path ++ deployment ++ py "/chat/completions")
                    ++ py "?" ++ py "api-version=" ++ q)
    by (injection Hu as Hu; symmetry; exact Hu).
  rewrite Hu'. clear Hu Hu'.
  assert (E : normalised_base
                ((root ++ deployments_path ++ deployment ++ py "/chat/completions")
                 ++ py "?" ++ py "api-version=" ++ q) = root).
  { destruct (quote_plus_end _ Eq) as [->|[w [c [-> [Hc1 Hc2]]]]].
    - rewrite app_nil_r.
      change (py "api-version=") with (py "api-version" ++ [61%Z]).
      rewrite <- !app_assoc.
      rewrite (app_assoc deployment), (app_assoc (deployment ++ _)),
        (app_assoc ((deployment ++ _) ++ _)).
      now apply (@normalised_deeper root Hroot).
    - rewrite <- !app_assoc.
      rewrite (app_assoc deployment), (app_assoc (deployment ++ _)),
        (app_assoc ((deployment ++ _) ++ _)), (app_assoc (((deployment ++ _) ++ _) ++ _)).
      now apply (@normalised_deeper root Hroot). }
  now rewrite E.
Qed.

Lemma azure_url_normalisation_witness :
  resource_root (py "https://example.test") = true
  /\ _build_azure_chat_completions_url (py "https://example.test/openai/")
       (py "gpt") (py "2024-02-01")
     = Ok (py "https://example.test/openai/deployments/gpt/chat/completions?api-version=2024-02-01").
Proof.
  assert (H : resource_root (py "https://example.test") = true)
    by (vm_compute; reflexivity).
  split; [exact H|].
  destruct (@azure_url_normalisation (py "https://example.test") (py "gpt")
              (py "2024-02-01") H) as [K1 [_ [_ [K2 _]]]].
  rewrite K1 in K2. exact K2.
Defined.

(** ** The client configuration *)

Module ConfigFacts.

Section Environment.

Variable environ : text -> option text.

(** A value [_env_first] returns is the stripped value of one of the
    names, and it is not empty. *)
Lemma env_first_usable (names : list text) (v : text) :
  _env_first environ names = Some v ->
  v <> [] /\ strip v = v
  /\ exists name raw, In name names /\ environ name = Some raw /\ v = strip raw.
Proof.
  induction names as [|name rest IH]; simpl; [discriminate|].
  destruct (environ name) as [raw|] eqn:E.
  - destruct (strip raw) as [|c r] eqn:Es; simpl.
    + intros H. destruct (IH H) as [H1 [H2 [n [w [H3 H4]]]]].
      repeat split; trivial. exists n, w. split; [now right | exact H4].
    + intros H. injection H as <-. split; [discriminate|].
      split; [rewrite <- Es; apply strip_idem|].
      exists name, raw. split; [now left | split; [exact E | now symmetry]].
  - intros H. destruct (IH H) as [H1 [H2 [n [w [H3 H4]]]]].
    repeat split; trivial. exists n, w. split; [now right | exact H4].
Qed.

Lemma strip_nil_of_nil (raw : text) : raw = [] -> strip raw = [].
Proof. now intros ->. Qed.

(** A setting for which [_env_first] finds a value is not absent for
    [_llm_configured]. *)
Lemma env_first_present (names : list text) (v : text) :
  _env_first environ names = Some v -> setting_absent environ names = false.
Proof.
  intros H. destruct (env_first_usable names H) as [Hne [_ [name [raw [Hin [E Hv]]]]]].
  unfold setting_absent. apply not_true_iff_false. intros Hall.
  rewrite forallb_forall in Hall. specialize (Hall name Hin).
  rewrite E in Hall. simpl in Hall. destruct raw; [|discriminate].
  now subst v.
Qed.

Lemma falsy_value (o : option text) (v : text) :
  o = Some v -> v <> [] -> falsy o = false /\ value o = v.
Proof. intros -> H. destruct v; [contradiction | now split]. Qed.

End Environment.

End ConfigFacts.

Import ConfigFacts.

Lemma get_azure_config_cases (environ : text -> option text) :
  match _env_first environ api_key_names, _env_first environ base_url_names,
        _env_first environ deployment_names with
  | Some k, Some b, Some d =>
      _get_azure_config environ
      = Ok (MkAzureConfig k b
              (match _env_first environ api_version_names with
               | Some v => v
               | None => py "2024-02-01"
               end) d)
  | _, _, _ => exists m, _get_azure_config environ = Raise (AzureOpenAIConfigError m)
  end.
Proof.
  unfold _get_azure_config.
  change [py "LLM_API_KEY"; py "AZURE_OPENAI_API_KEY"; py "OPENAI_API_KEY"]
    with api_key_names.
  change [py "LLM_AZURE_BASE_URL"; py "AZURE_OPENAI_ENDPOINT"; py "AZURE_OPENAI_BASE_URL"]
    with base_url_names.
  change [py "LLM_AZURE_API_VERSION"; py "AZURE_OPENAI_API_VERSION"]
    with api_version_names.
  change [py "LLM_AZURE_DEPLOYMENT"; py "AZURE_OPENAI_DEPLOYMENT"]
    with deployment_names.
  destruct (_env_first environ api_version_names) as [v|] eqn:Ev;
  destruct (_env_first environ api_key_names) as [k|] eqn:Ek;
  destruct (_env_first environ base_url_names) as [b|] eqn:Eb;
  destruct (_env_first environ deployment_names) as [d|] eqn:Ed;
  try (destruct (env_first_usable _ _ Ev) as [Hv _]);
  try (destruct (env_first_usable _ _ Ek) as [Hk _]);
  try (destruct (env_first_usable _ _ Eb) as [Hb _]);
  try (destruct (env_first_usable _ _ Ed) as [Hd _]);
  try (destruct v; [contradiction|]);
  try (destruct k; [contradiction|]);
  try (destruct b; [contradiction|]);
  try (destruct d; [contradiction|]);
  simpl; try reflexivity; eexists; reflexivity.
Qed.

Lemma get_azure_config_missing (environ : text -> option text) (e : exn) :
  _get_azure_config environ = Raise e ->
  exists missing,
    e = AzureOpenAIConfigError (config_error_message missing)
    /\ missing <> []
    /\ forall name,
         In name missing
         <-> (name = py "LLM_API_KEY" /\ _env_first environ api_key_names = None)
             \/ (name = py "LLM_AZURE_BASE_URL"
                 /\ _env_first environ base_url_names = None)
             \/ (name = py "LLM_AZURE_DEPLOYMENT"
                 /\ _env_first environ deployment_names = None).
Proof.
  unfold _get_azure_config.
  change [py "LLM_API_KEY"; py "AZURE_OPENAI_API_KEY"; py "OPENAI_API_KEY"]
    with api_key_names.
  change [py "LLM_AZURE_BASE_URL"; py "AZURE_OPENAI_ENDPOINT"; py "AZURE_OPENAI_BASE_URL"]
    with base_url_names.
  change [py "LLM_AZURE_DEPLOYMENT"; py "AZURE_OPENAI_DEPLOYMENT"]
    with deployment_names.
  generalize (_env_first environ [py "LLM_AZURE_API_VERSION"; py "AZURE_OPENAI_API_VERSION"]).
  intros ov.
  destruct (_env_first environ api_key_names) as [k|] eqn:Ek;
  destruct (_env_first environ base_url_names) as [b|] eqn:Eb;
  destruct (_env_first environ deployment_names) as [d|] eqn:Ed;
  try (destruct (env_first_usable _ _ Ek) as [Hk _]);
  try (destruct (env_first_usable _ _ Eb) as [Hb _]);
  try (destruct (env_first_usable _ _ Ed) as [Hd _]);
  try (destruct k; [contradiction|]);
  try (destruct b; [contradiction|]);
  try (destruct d; [contradiction|]);
  simpl; intros H; try discriminate H; injection H as <-;
  eexists; (split; [reflexivity|]); (split; [discriminate|]);
  intros name; simpl; split;
  try (intros [<-|[<-|[<-|[]]]]); try (intros [<-|[<-|[]]]); try (intros [<-|[]]);
  try (left; split; [reflexivity|]; reflexivity);
  try (right; left; split; [reflexivity|]; reflexivity);
  try (right; right; split; [reflexivity|]; reflexivity);
  intros [[-> H]|[[-> H]|[-> H]]]; try discriminate H; auto.
Qed.

(** X5: [_get_azure_config] returns four values that are not empty and
    carry no surrounding whitespace, each the first usable value among
    the variables of its setting, with "2024-02-01" for an API version
    that is not set; or it raises [AzureOpenAIConfigError] with a
    message that lists exactly the required settings, among
    LLM_API_KEY, LLM_AZURE_BASE_URL and LLM_AZURE_DEPLOYMENT, for which
    no variable holds a usable value. *)
Theorem get_azure_config_outcome (environ : text -> option text) :
  match _get_azure_config environ with
  | Ok cfg =>
      Forall (fun v => v <> [] /\ strip v = v)
             [api_key cfg; base_url cfg; api_version cfg; deployment cfg]
      /\ _env_first environ api_key_names = Some (api_key cfg)
      /\ _env_first environ base_url_names = Some (base_url cfg)
      /\ _env_first environ deployment_names = Some (deployment cfg)
      /\ match _env_first environ api_version_names with
         | Some v => api_version cfg = v
         | None => api_version cfg = py "2024-02-01"
         end
  | Raise e =>
      exists missing,
        e = AzureOpenAIConfigError (config_error_message missing)
        /\ missing <> []
        /\ forall name,
             In name missing
             <-> (name = py "LLM_API_KEY"
                  /\ _env_first environ api_key_names = None)
                 \/ (name = py "LLM_AZURE_BASE_URL"
                     /\ _env_first environ base_url_names = None)
                 \/ (name = py "LLM_AZURE_DEPLOYMENT"
                     /\ _env_first environ deployment_names = None)
  end.
Proof.
  destruct (_get_azure_config environ) as [cfg|e] eqn:E;
    [|now apply get_azure_config_missing].
  pose proof (get_azure_config_cases environ) as H.
  destruct (_env_first environ api_key_names) as [k|] eqn:Ek;
    [|destruct H as [m H]; rewrite H in E; discriminate E].
  destruct (_env_first environ base_url_names) as [b|] eqn:Eb;
    [|destruct H as [m H]; rewrite H in E; discriminate E].
  destruct (_env_first environ deployment_names) as [d|] eqn:Ed;
    [|destruct H as [m H]; rewrite H in E; discriminate E].
  destruct (env_first_usable _ _ Ek) as [Hk1 [Hk2 _]].
  destruct (env_first_usable _ _ Eb) as [Hb1 [Hb2 _]].
  destruct (env_first_usable _ _ Ed) as [Hd1 [Hd2 _]].
  destruct (_env_first environ api_version_names) as [v|] eqn:Ev;
    rewrite H in E; injection E as <-; unfold api_key, base_url, api_version, deployment.
  - destruct (env_first_usable _ _ Ev) as [Hv1 [Hv2 _]].
    split; [repeat constructor; trivial | repeat split; trivial].
  - split; [repeat constructor; trivial; discriminate | repeat split; trivial].
Qed.

(** X6: a configuration the client accepts passes the check of
    [llm_available]: whenever [_get_azure_config] returns,
    [llm_available] is true. *)
Theorem accepted_configuration_is_available (environ : text -> option text)
  (cfg : azure_config) :
  _get_azure_config environ = Ok cfg -> llm_available environ = true.
Proof.
  intros E. pose proof (get_azure_config_cases environ) as H.
  destruct (_env_first environ api_key_names) as [k|] eqn:Ek;
    [|destruct H as [m H]; rewrite H in E; discriminate E].
  destruct (_env_first environ base_url_names) as [b|] eqn:Eb;
    [|destruct H as [m H]; rewrite H in E; discriminate E].
  destruct (_env_first environ deployment_names) as [d|] eqn:Ed;
    [|destruct H as [m H]; rewrite H in E; discriminate E].
  rewrite llm_available_unconfigured. unfold unconfigured.
  change [py "LLM_API_KEY"; py "AZURE_OPENAI_API_KEY"; py "OPENAI_API_KEY"]
    with api_key_names.
  change [py "LLM_AZURE_BASE_URL"; py "AZURE_OPENAI_ENDPOINT"; py "AZURE_OPENAI_BASE_URL"]
    with base_url_names.
  change [py "LLM_AZURE_DEPLOYMENT"; py "AZURE_OPENAI_DEPLOYMENT"]
    with deployment_names.
  now rewrite (env_first_present _ _ Ek), (env_first_present _ _ Eb),
    (env_first_present _ _ Ed).
Qed.

Lemma accepted_configuration_is_available_witness :
  _get_azure_config configured_environ
  = Ok (MkAzureConfig (py "secret") (py "https://example.test/openai/")
          (py "2024-02-01") (py "gpt"))
  /\ llm_available configured_environ = true.
Proof.
  assert (E : _get_azure_config configured_environ
              = Ok (MkAzureConfig (py "secret") (py "https://example.test/openai/")
                      (py "2024-02-01") (py "gpt")))
    by (vm_compute; reflexivity).
  split; [exact E|].
  exact (@accepted_configuration_is_available configured_environ _ E).
Defined.

(** ** The tables: keys, insertion and deletion *)

Module StoreFacts.

Lemma next_id_above (ids : list Z) (i : Z) : In i ids -> (i < next_id ids)%Z.
Proof.
  unfold next_id. induction ids as [|j ids IH]; cbn [fold_right In]; [contradiction|].
  intros [->|H]; [lia | specialize (IH H); lia].
Qed.

Lemma next_id_fresh (ids : list Z) : ~ In (next_id ids) ids.
Proof. intros H. apply next_id_above in H. lia. Qed.

Lemma find_app (A : Type) (f : A -> bool) (l1 l2 : list A) :
  find f (l1 ++ l2) = match find f l1 with
                      | Some x => Some x
                      | None => find f l2
                      end.
Proof. induction l1 as [|x l1 IH]; simpl; [reflexivity|]. now destruct (f x). Qed.

Lemma find_none_iff (A : Type) (f : A -> bool) (l : list A) :
  find f l = None <-> forall x, In x l -> f x = false.
Proof.
  split; [apply find_none|].
  induction l as [|x l IH]; simpl; [reflexivity|]. intros H.
  rewrite (H x (or_introl eq_refl)). apply IH. intros y Hy. apply H. now right.
Qed.

Lemma filter_none (A : Type) (f : A -> bool) (l : list A) :
  (forall x, In x l -> f x = false) -> filter f l = [].
Proof.
  induction l as [|x l IH]; simpl; [reflexivity|]. intros H.
  rewrite (H x (or_introl eq_refl)). apply IH. intros y Hy. apply H. now right.
Qed.

Lemma filter_all (A : Type) (f : A -> bool) (l : list A) :
  (forall x, In x l -> f x = true) -> filter f l = l.
Proof.
  induction l as [|x l IH]; simpl; [reflexivity|]. intros H.
  rewrite (H x (or_introl eq_refl)). f_equal. apply IH. intros y Hy. apply H. now right.
Qed.

Lemma find_filter_other (A : Type) (f g : A -> bool) (l : list A) :
  (forall x, f x = true -> g x = true) ->
  find f (filter g l) = find f l.
Proof.
  intros H. induction l as [|x l IH]; simpl; [reflexivity|].
  destruct (g x) eqn:Eg; simpl.
  - now destruct (f x).
  - destruct (f x) eqn:Ef; [|exact IH]. rewrite (H x Ef) in Eg. discriminate Eg.
Qed.

Lemma filter_filter_other (A : Type) (f g : A -> bool) (l : list A) :
  (forall x, f x = true -> g x = true) ->
  filter f (filter g l) = filter f l.
Proof.
  intros H. induction l as [|x l IH]; simpl; [reflexivity|].
  destruct (g x) eqn:Eg; simpl.
  - destruct (f x); [f_equal|]; exact IH.
  - destruct (f x) eqn:Ef; [|exact IH]. rewrite (H x Ef) in Eg. discriminate Eg.
Qed.

Lemma filter_idem (A : Type) (f : A -> bool) (l : list A) :
  filter f (filter f l) = filter f l.
Proof. apply filter_filter_other. auto. Qed.

Lemma find_pdf_id (db : Db) (id : Z) (pdf : PDF) :
  find_pdf db id = Some pdf -> pdf_id pdf = id /\ In pdf (pdfs db).
Proof.
  intros H. apply find_some in H as [H1 H2]. split; [now apply Z.eqb_eq | exact H1].
Qed.

Lemma find_pdf_none (db : Db) (id : Z) :
  find_pdf db id = None <-> ~ In id (map pdf_id (pdfs db)).
Proof.
  unfold find_pdf. rewrite find_none_iff. split.
  - intros H Hin. apply in_map_iff in Hin as [p [<- Hp]].
    specialize (H p Hp). rewrite Z.eqb_refl in H. discriminate H.
  - intros H p Hp. apply Z.eqb_neq. intros <-. apply H. now apply in_map.
Qed.

Lemma add_chunks_ids (pdf first : Z) (rows : list (text * Z * text)) :
  map chunk_id (add_chunks pdf first rows)
  = map (fun k => (first + Z.of_nat k)%Z) (seq 0 (length rows)).
Proof.
  revert first. induction rows as [|[[t i] e] rows IH]; intros first; [reflexivity|].
  simpl. f_equal; [f_equal; lia|].
  rewrite IH, <- seq_shift, map_map. apply map_ext. intros k. lia.
Qed.

Lemma add_chunks_texts (pdf first : Z) (rows : list (text * Z * text)) :
  map (fun c => (chunk_text c, chunk_index c)) (add_chunks pdf first rows)
  = map fst rows.
Proof.
  revert first. induction rows as [|[[t i] e] rows IH]; intros first; [reflexivity|].
  simpl. f_equal. apply IH.
Qed.

Lemma add_chunks_pdf (pdf first : Z) (rows : list (text * Z * text)) :
  Forall (fun c => chunk_pdf_id c = pdf) (add_chunks pdf first rows).
Proof.
  apply Forall_forall. intros c Hc. now apply add_chunks_in in Hc as [Hc _].
Qed.

Lemma NoDup_shifted (first : Z) (n : nat) :
  NoDup (map (fun k => (first + Z.of_nat k)%Z) (seq 0 n)).
Proof.
  pose proof (seq_NoDup n 0) as H. induction H as [|k l Hk Hl IH]; simpl; constructor.
  - intros Hin. apply in_map_iff in Hin as [j [Ej Hj]].
    assert (j = k) by lia. now subst j.
  - exact IH.
Qed.

Section Save.

Variable js : Json.
Variable chunker : text -> result (list text).
Variable embedder : list text -> result (list ndarray).

Local Abbreviation save := (save_pdf_to_db js chunker embedder).

Lemma save_keeps_foreign_keys (db : Db) (o s t : text) :
  foreign_keys db -> foreign_keys (fst (save db o s t)).
Proof.
  intros [H1 H2]. unfold foreign_keys, save_pdf_to_db. simpl.
  rewrite map_app. split.
  - apply Forall_app. split.
    + eapply Forall_impl; [|exact H1]. intros c Hc. apply in_or_app. now left.
    + constructor; [|constructor]. apply in_or_app. right. now left.
  - apply Forall_app. split.
    + eapply Forall_impl; [|exact H2]. intros c Hc. apply in_or_app. now left.
    + unfold new_chunks. eapply Forall_impl; [|apply add_chunks_pdf].
      intros c ->. apply in_or_app. right. now left.
Qed.

Lemma save_keeps_primary_keys (db : Db) (o s t : text) :
  primary_keys db -> primary_keys (fst (save db o s t)).
Proof.
  intros [H1 H2]. unfold primary_keys, save_pdf_to_db. simpl.
  rewrite !map_app. split.
  - apply NoDup_app; [exact H1 | repeat constructor; intros [] |].
    intros i Hi [<-|[]]. now apply next_id_fresh in Hi.
  - unfold new_chunks. rewrite add_chunks_ids.
    apply NoDup_app; [exact H2 | apply NoDup_shifted |].
    intros i Hi Hin. apply next_id_above in Hi.
    apply in_map_iff in Hin as [k [<- _]]. lia.
Qed.

End Save.

Lemma db_delete_foreign_keys (pdf : PDF) (db : Db) :
  foreign_keys db -> foreign_keys (db_delete pdf db).
Proof.
  intros [H1 H2]. unfold foreign_keys, db_delete. simpl. split.
  - apply Forall_forall. intros c Hc. apply filter_In in Hc as [Hc Hne].
    rewrite Forall_forall in H1. specialize (H1 c Hc).
    apply in_map_iff in H1 as [p [Ep Hp]]. apply in_map_iff. exists p.
    split; [exact Ep|]. apply filter_In. split; [exact Hp|]. now rewrite Ep.
  - apply Forall_forall. intros c Hc. apply filter_In in Hc as [Hc Hne].
    rewrite Forall_forall in H2. specialize (H2 c Hc).
    apply in_map_iff in H2 as [p [Ep Hp]]. apply in_map_iff. exists p.
    split; [exact Ep|]. apply filter_In. split; [exact Hp|]. now rewrite Ep.
Qed.

Lemma NoDup_map_filter (A B : Type) (f : A -> B) (g : A -> bool) (l : list A) :
  NoDup (map f l) -> NoDup (map f (filter g l)).
Proof.
  induction l as [|x l IH]; simpl; [trivial|]. intros H.
  inversion H as [|? ? Hx Hl]; subst. destruct (g x); simpl; [|now apply IH].
  constructor; [|now apply IH]. intros Hin. apply Hx.
  apply in_map_iff in Hin as [y [Ey Hy]]. apply filter_In in Hy as [Hy _].
  rewrite <- Ey. now apply in_map.
Qed.

Lemma db_delete_primary_keys (pdf : PDF) (db : Db) :
  primary_keys db -> primary_keys (db_delete pdf db).
Proof.
  intros [H1 H2]. unfold primary_keys, db_delete. simpl.
  split; now apply NoDup_map_filter.
Qed.

(** The database after a deletion: the rows of the document are
    filtered out of the three tables. *)
Lemma delete_pdf_database (st : storage) (id : Z) (pdf : PDF) :
  find_pdf (database st) id = Some pdf ->
  database (fst (delete_pdf st id)) = db_delete pdf (database st)
  /\ uploads (fst (delete_pdf st id))
     = filter (fun f => negb (text_eqb f (upload_path (stored_filename pdf))))
              (uploads st)
  /\ snd (delete_pdf st id)
     = MkResponse 200
         (Deleted (py "PDF '" ++ original_filename pdf
                   ++ py "' successfully deleted") id).
Proof.
  intros H. destruct (find_pdf_id _ _ H) as [Hid _].
  unfold delete_pdf. rewrite H. cbv zeta.
  set (db1 := db_delete pdf _).
  assert (E1 : db1 = db_delete pdf (database st)).
  { unfold db1, db_delete. simpl. rewrite Hid. now rewrite !filter_idem. }
  assert (E2 : find_pdf db1 id = None).
  { rewrite E1. apply find_pdf_none. unfold db_delete. simpl. intros Hin.
    apply in_map_iff in Hin as [p [Ep Hp]]. apply filter_In in Hp as [_ Hp].
    rewrite Ep, Hid, Z.eqb_refl in Hp. discriminate Hp. }
  rewrite E2. cbn [fst snd database uploads]. split; [exact E1|]. split; [|reflexivity].
  destruct (existsb _ (uploads st)) eqn:Ex; [reflexivity|].
  symmetry. apply filter_all. intros f Hf.
  destruct (text_eqb f (upload_path (stored_filename pdf))) eqn:Ef; [|reflexivity].
  apply text_eqb_eq in Ef. subst f.
  assert (K : existsb (text_eqb (upload_path (stored_filename pdf))) (uploads st) = true)
    by (apply existsb_text_eqb; exact Hf).
  rewrite K in Ex. discriminate Ex.
Qed.

(** The tables after a save, filtered by the new id, are the tables
    before the save. *)
Lemma save_pdf_to_db_roundtrip_lookup (js : Json)
  (chunker : text -> result (list text))
  (embedder : list text -> result (list ndarray)) (db : Db) (o s t : text) :
  foreign_keys db ->
  let saved := save_pdf_to_db js chunker embedder db o s t in
  find_pdf (fst saved) (snd saved) = Some (MkPDF (snd saved) o s)
  /\ filter (fun p => negb (pdf_id p =? snd saved)%Z) (pdfs (fst saved)) = pdfs db
  /\ filter (fun c => negb (content_pdf_id c =? snd saved)%Z) (pdf_contents (fst saved))
     = pdf_contents db
  /\ filter (fun c => negb (chunk_pdf_id c =? snd saved)%Z) (pdf_chunks (fst saved))
     = pdf_chunks db.
Proof.
  intros [F1 F2] saved. unfold saved, save_pdf_to_db. cbn [fst snd pdfs pdf_contents pdf_chunks].
  set (n := next_id (map pdf_id (pdfs db))).
  assert (Hn : forall i, In i (map pdf_id (pdfs db)) -> negb (i =? n)%Z = true).
  { intros i Hi. apply negb_true_iff, Z.eqb_neq. intros ->.
    now apply next_id_fresh in Hi. }
  split.
  { unfold find_pdf. cbn [pdfs]. rewrite find_app.
    assert (E : find (fun p => (pdf_id p =? n)%Z) (pdfs db) = None)
      by (apply (proj2 (find_pdf_none db n)), next_id_fresh).
    rewrite E. cbn [find pdf_id]. now rewrite Z.eqb_refl. }
  rewrite !filter_app. cbn [filter pdf_id content_pdf_id].
  rewrite Z.eqb_refl. cbn [negb]. rewrite !app_nil_r.
  split; [apply filter_all; intros p Hp; apply Hn; now apply in_map|].
  split.
  { apply filter_all. intros c Hc. apply Hn.
    rewrite Forall_forall in F1. now apply F1. }
  rewrite (@filter_none _ _ (new_chunks js chunker embedder db o t)).
  - rewrite app_nil_r. apply filter_all. intros c Hc. apply Hn.
    rewrite Forall_forall in F2. now apply F2.
  - intros c Hc. unfold new_chunks in Hc. apply add_chunks_in in Hc as [Hc _].
    fold n in Hc. rewrite Hc, Z.eqb_refl. reflexivity.
Qed.

End StoreFacts.

Import StoreFacts.

(** X7: a saved document can be looked up.  On tables that respect the
    foreign keys, [save_pdf_to_db] returns an id that no document had;
    after the call the document, its content row and its chunks are
    found under that id, and every lookup under another id gives what
    it gave before. *)
Theorem save_pdf_to_db_lookup (js : Json) (chunker : text -> result (list text))
  (embedder : list text -> result (list ndarray)) (db : Db) (o s t : text) :
  foreign_keys db ->
  let db' := fst (save_pdf_to_db js chunker embedder db o s t) in
  let id := snd (save_pdf_to_db js chunker embedder db o s t) in
  find_pdf db id = None
  /\ find_pdf db' id = Some (MkPDF id o s)
  /\ find_content db' id = Some (MkPDFContent id (stored_text o t))
  /\ chunks_of db' id = new_chunks js chunker embedder db o t
  /\ (forall j, j <> id ->
        find_pdf db' j = find_pdf db j
        /\ find_content db' j = find_content db j
        /\ chunks_of db' j = chunks_of db j).
Proof.
  intros [F1 F2] db' id. unfold db', id, save_pdf_to_db. cbn [fst snd].
  set (n := next_id (map pdf_id (pdfs db))).
  assert (Hfresh : find_pdf db n = None)
    by (apply find_pdf_none, next_id_fresh).
  assert (Hc : find_content db n = None).
  { unfold find_content. apply find_none_iff. intros c Hc.
    apply Z.eqb_neq. intros E. rewrite Forall_forall in F1.
    specialize (F1 c Hc). rewrite E in F1. now apply next_id_fresh in F1. }
  assert (Hk : chunks_of db n = []).
  { unfold chunks_of. apply filter_none. intros c Hc'.
    apply Z.eqb_neq. intros E. rewrite Forall_forall in F2.
    specialize (F2 c Hc'). rewrite E in F2. now apply next_id_fresh in F2. }
  split; [exact Hfresh|].
  unfold find_pdf, find_content, chunks_of in *. cbn [pdfs pdf_contents pdf_chunks].
  rewrite !find_app, filter_app, Hfresh, Hc, Hk. cbn [find pdf_id content_pdf_id].
  rewrite Z.eqb_refl. split; [reflexivity|]. split; [reflexivity|]. split.
  - cbn [app]. apply filter_all. intros c Hin. apply Z.eqb_eq.
    unfold new_chunks in Hin. now apply add_chunks_in in Hin as [Hin _].
  - intros j Hj. assert (E : (n =? j)%Z = false) by (apply Z.eqb_neq; lia).
    rewrite !find_app, filter_app. cbn [find pdf_id content_pdf_id]. rewrite E.
    split; [now destruct (find (fun p : PDF => (pdf_id p =? j)%Z) (pdfs db))|].
    split; [now destruct (find (fun c : PDFContent => (content_pdf_id c =? j)%Z)
                            (pdf_contents db))|].
    rewrite (@filter_none _ _ (new_chunks js chunker embedder db o t)).
    + apply app_nil_r.
    + intros c Hin. unfold new_chunks in Hin.
      apply add_chunks_in in Hin as [Hin _]. fold n in Hin. rewrite Hin. exact E.
Qed.

Lemma save_pdf_to_db_lookup_witness :
  foreign_keys empty_db
  /\ find_pdf (fst (save_pdf_to_db_app isprintable_latin1 sample_numpy default_config
                      sample_json empty_db (py "a.pdf") (py "stored-a")
                      (py "hello world"))) 1
     = Some (MkPDF 1 (py "a.pdf") (py "stored-a")).
Proof.
  assert (H : foreign_keys empty_db) by (split; constructor).
  split; [exact H|].
  exact (proj1 (proj2 (@save_pdf_to_db_lookup sample_json
                         (app_chunker isprintable_latin1)
                         (app_embedder sample_numpy default_config)
                         empty_db (py "a.pdf") (py "stored-a") (py "hello world") H))).
Defined.

(** X8: [save_pdf_to_db] and [DELETE /pdf/{pdf_id}] keep the constraints
    of the schema: if every content row and every chunk refers to a
    document, and no two documents and no two chunks share an id, the
    same holds after either operation. *)
Theorem schema_constraints_are_kept (js : Json)
  (chunker : text -> result (list text))
  (embedder : list text -> result (list ndarray))
  (st : storage) (o s t : text) (id : Z) :
  foreign_keys (database st) -> primary_keys (database st) ->
  (foreign_keys (fst (save_pdf_to_db js chunker embedder (database st) o s t))
   /\ primary_keys (fst (save_pdf_to_db js chunker embedder (database st) o s t)))
  /\ (foreign_keys (database (fst (delete_pdf st id)))
      /\ primary_keys (database (fst (delete_pdf st id)))).
Proof.
  intros F P. split.
  - split; [now apply save_keeps_foreign_keys | now apply save_keeps_primary_keys].
  - destruct (find_pdf (database st) id) as [pdf|] eqn:E.
    + destruct (delete_pdf_database st id E) as [-> _].
      split; [now apply db_delete_foreign_keys | now apply db_delete_primary_keys].
    + unfold delete_pdf. rewrite E. now split.
Qed.

Lemma schema_constraints_are_kept_witness :
  foreign_keys empty_db /\ primary_keys empty_db
  /\ foreign_keys db_after_first_save /\ primary_keys db_after_first_save.
Proof.
  assert (F : foreign_keys (database (MkStorage empty_db []))) by (split; constructor).
  assert (P : primary_keys (database (MkStorage empty_db []))) by (split; constructor).
  split; [exact F|]. split; [exact P|].
  exact (proj1 (@schema_constraints_are_kept sample_json
                  (app_chunker isprintable_latin1)
                  (app_embedder sample_numpy default_config)
                  (MkStorage empty_db []) (py "a.pdf") (py "stored-a")
                  (py "hello world") 1 F P)).
Defined.

Module SaveFacts.

Lemma traverse_length (A B : Type) (f : A -> result B) (xs : list A) (ys : list B) :
  traverse f xs = Ok ys -> length ys = length xs.
Proof.
  revert ys. induction xs as [|x xs IH]; simpl; intros ys H.
  - now injection H as <-.
  - destruct (f x) as [y|e]; [|discriminate H]. simpl in H.
    destruct (traverse f xs) as [ys'|e]; [|discriminate H]. simpl in H.
    injection H as <-. simpl. f_equal. now apply IH.
Qed.

Lemma get_embeddings_length (np : Numpy) (cfg : config) (texts : list text)
  (d : option Z) (es : list ndarray) :
  get_embeddings np cfg texts d = Ok es -> length es = length texts.
Proof.
  unfold get_embeddings, get_external_embeddings, get_simple_embeddings.
  destruct (USE_EXTERNAL_EMBEDDINGS cfg).
  - destruct (traverse _ texts) as [r|e] eqn:E.
    + intros H. injection H as <-. now apply traverse_length in E.
    + intros H. discriminate H.
  - apply traverse_length.
Qed.

Lemma combine_fst (A B : Type) (l1 : list A) (l2 : list B) :
  length l1 = length l2 -> map fst (combine l1 l2) = l1.
Proof.
  revert l2. induction l1 as [|a l1 IH]; intros [|b l2] H; simpl in *;
    try discriminate; [reflexivity|]. f_equal. apply IH. lia.
Qed.

Lemma combine_snd (A B : Type) (l1 : list A) (l2 : list B) :
  length l1 = length l2 -> map snd (combine l1 l2) = l2.
Proof.
  revert l2. induction l1 as [|a l1 IH]; intros [|b l2] H; simpl in *;
    try discriminate; [reflexivity|]. f_equal. apply IH. lia.
Qed.

Lemma enumerate_fst (A : Type) (l : list A) :
  map fst (enumerate l) = map Z.of_nat (seq 0 (length l)).
Proof.
  unfold enumerate. apply combine_fst. now rewrite length_map, length_seq.
Qed.

Lemma enumerate_snd (A : Type) (l : list A) : map snd (enumerate l) = l.
Proof.
  unfold enumerate. apply combine_snd. now rewrite length_map, length_seq.
Qed.

Lemma enumerate_length (A : Type) (l : list A) : length (enumerate l) = length l.
Proof.
  unfold enumerate. rewrite length_combine, length_map, length_seq. lia.
Qed.

(** The rows written for the chunks of a text, with the embedder of the
    application: the chunks in order, numbered from 0. *)
Lemma chunk_rows_app (js : Json) (np : Numpy) (cfg : config)
  (chunker : text -> result (list text)) (t : text) (chunks : list text) :
  chunker t = Ok chunks ->
  map (fun row => (snd (fst row), fst (fst row)))
      (chunk_rows js chunker (app_embedder np cfg) t)
  = enumerate chunks.
Proof.
  intros E. unfold chunk_rows. rewrite E. unfold app_embedder.
  destruct (get_embeddings np cfg chunks None) as [es|e] eqn:Ee.
  - apply get_embeddings_length in Ee.
    rewrite map_map.
    assert (K : forall (l : list (Z * (text * ndarray))),
               map (fun x => (snd (fst (let '(i, (chunk, e)) := x in
                                        (chunk, i, dumps js (tolist e)))),
                              fst (fst (let '(i, (chunk, e)) := x in
                                        (chunk, i, dumps js (tolist e))))))
                   l
               = map (fun x => (fst x, fst (snd x))) l).
    { intros l. apply map_ext. now intros [i [c e]]. }
    rewrite K. clear K. unfold enumerate.
    rewrite length_combine, Ee, Nat.min_id.
    set (idx := map Z.of_nat (seq 0 (length chunks))).
    assert (Hl : length idx = length chunks)
      by (unfold idx; now rewrite length_map, length_seq).
    clearbody idx. clear E. revert idx es Hl Ee.
    induction chunks as [|c chunks IH]; intros [|i idx] [|e es] Hl Ee;
      simpl in *; try discriminate; [reflexivity|].
    f_equal. apply IH; lia.
  - rewrite map_map. simpl. unfold enumerate.
    set (idx := map Z.of_nat (seq 0 (length chunks))).
    clearbody idx. clear E Ee. revert idx.
    induction chunks as [|c chunks IH]; intros [|i idx]; simpl; try reflexivity.
    f_equal. apply IH.
Qed.

End SaveFacts.

Import SaveFacts.

(** X9: with the chunker and the embedder of the application,
    [save_pdf_to_db] stores the chunks [split_text_into_chunks] returns
    for the stored text, in order and numbered from 0, whether the
    embedder returns or raises; at least one chunk is stored, all under
    the id of the document, with ids that follow the greatest chunk id
    of the table. *)
Theorem save_pdf_to_db_stores_the_chunks (isprintable : char -> bool) (np : Numpy)
  (cfg : config) (js : Json) (db : Db) (o t : text) :
  let chunks := split_text_into_chunks isprintable (stored_text o t) in
  let added := new_chunks js (app_chunker isprintable) (app_embedder np cfg) db o t in
  map chunk_text added = chunks
  /\ map chunk_index added = map Z.of_nat (seq 0 (length chunks))
  /\ added <> []
  /\ Forall (fun c => chunk_pdf_id c = next_id (map pdf_id (pdfs db))) added
  /\ map chunk_id added
     = map (fun k => (next_id (map chunk_id (pdf_chunks db)) + Z.of_nat k)%Z)
           (seq 0 (length chunks)).
Proof.
  intros chunks added.
  assert (R : map (fun row => (snd (fst row), fst (fst row)))
                (chunk_rows js (app_chunker isprintable) (app_embedder np cfg)
                   (stored_text o t))
              = enumerate chunks) by (now apply chunk_rows_app).
  assert (T : map (fun c => (chunk_index c, chunk_text c)) added = enumerate chunks).
  { rewrite <- R. unfold added, new_chunks.
    rewrite <- (map_map fst (fun p : text * Z => (snd p, fst p))).
    rewrite <- add_chunks_texts with (pdf := next_id (map pdf_id (pdfs db)))
                                     (first := next_id (map chunk_id (pdf_chunks db))).
    rewrite map_map. reflexivity. }
  assert (L : length added = length chunks).
  { rewrite <- (length_map (fun c => (chunk_index c, chunk_text c))), T.
    apply enumerate_length. }
  split.
  { rewrite <- (enumerate_snd chunks), <- T, map_map. reflexivity. }
  split.
  { rewrite <- (enumerate_fst chunks), <- T, map_map. reflexivity. }
  split.
  { intros E. rewrite E in L. simpl in L.
    pose proof (split_text_into_chunks_nonempty isprintable (stored_text o t)) as Hne.
    fold chunks in Hne. apply Hne. symmetry in L. now apply length_zero_iff_nil in L. }
  split; [apply add_chunks_pdf|].
  unfold added, new_chunks. rewrite add_chunks_ids.
  unfold added, new_chunks in L. rewrite add_chunks_length in L. now rewrite L.
Qed.

(** X10: [DELETE /pdf/{pdf_id}] on a document that exists answers 200 and
    removes the document, its content rows, its chunks and its file;
    the rows of the other documents and the other files stay as they
    were.  On an id that no document has it answers 404 and changes
    nothing. *)
Theorem delete_pdf_removes_the_document (st : storage) (id : Z) :
  let st' := fst (delete_pdf st id) in
  let db := database st in
  let db' := database st' in
  match find_pdf db id with
  | Some pdf =>
      status_code (snd (delete_pdf st id)) = 200%Z
      /\ find_pdf db' id = None
      /\ find_content db' id = None
      /\ chunks_of db' id = []
      /\ ~ In (upload_path (stored_filename pdf)) (uploads st')
      /\ (forall j, j <> id ->
            find_pdf db' j = find_pdf db j
            /\ find_content db' j = find_content db j
            /\ chunks_of db' j = chunks_of db j)
      /\ (forall f, f <> upload_path (stored_filename pdf) ->
            (In f (uploads st') <-> In f (uploads st)))
  | None =>
      delete_pdf st id = (st, MkResponse 404 (Message (py "PDF not found")))
  end.
Proof.
  intros st' db db'. destruct (find_pdf db id) as [pdf|] eqn:E;
    [|unfold delete_pdf; fold db; now rewrite E].
  destruct (delete_pdf_database st id E) as [Hdb [Hup Hr]].
  destruct (find_pdf_id _ _ E) as [Hid _].
  unfold db', st'. rewrite Hdb, Hup, Hr. fold db. cbn [status_code].
  unfold find_pdf, find_content, chunks_of, db_delete.
  cbn [pdfs pdf_contents pdf_chunks]. rewrite Hid.
  split; [reflexivity|]. split.
  { apply find_none_iff. intros p Hp. apply filter_In in Hp as [_ Hp].
    now apply negb_true_iff in Hp. }
  split.
  { apply find_none_iff. intros p Hp. apply filter_In in Hp as [_ Hp].
    now apply negb_true_iff in Hp. }
  split.
  { apply filter_none. intros p Hp. apply filter_In in Hp as [_ Hp].
    now apply negb_true_iff in Hp. }
  split.
  { intros Hin. apply filter_In in Hin as [_ Hin].
    apply negb_true_iff in Hin.
    assert (K : text_eqb (upload_path (stored_filename pdf))
                  (upload_path (stored_filename pdf)) = true)
      by (now apply text_eqb_eq).
    rewrite K in Hin. discriminate Hin. }
  split.
  { intros j Hj.
    assert (K : forall x y : Z, (x =? j)%Z = true -> y = x -> negb (y =? id)%Z = true).
    { intros x y Hx ->. apply Z.eqb_eq in Hx. subst x.
      apply negb_true_iff, Z.eqb_neq. exact Hj. }
    split; [apply find_filter_other; intros p Hp; now apply (K _ _ Hp)|].
    split; [apply find_filter_other; intros p Hp; now apply (K _ _ Hp)|].
    apply filter_filter_other. intros p Hp. now apply (K _ _ Hp). }
  intros f Hf. rewrite filter_In. split; [now intros [H _]|].
  intros H. split; [exact H|]. apply negb_true_iff.
  destruct (text_eqb f (upload_path (stored_filename pdf))) eqn:Ef; [|reflexivity].
  apply text_eqb_eq in Ef. contradiction.
Qed.

(** X11: saving a document and deleting it again is a round trip.  On
    tables that respect the foreign keys, and with a stored file name
    that no upload has yet, [delete_pdf] on the id [save_pdf_to_db]
    returned gives back the three tables and the uploaded files as they
    were before the save. *)
Theorem save_then_delete_is_a_round_trip (js : Json)
  (chunker : text -> result (list text))
  (embedder : list text -> result (list ndarray))
  (st : storage) (o s t : text) :
  foreign_keys (database st) ->
  ~ In (upload_path s) (uploads st) ->
  let saved := save_pdf_to_db js chunker embedder (database st) o s t in
  fst (delete_pdf (MkStorage (fst saved) (uploads st ++ [upload_path s])) (snd saved))
  = st.
Proof.
  intros F Hs saved.
  destruct (@save_pdf_to_db_roundtrip_lookup js chunker embedder (database st) o s t F)
    as [Hfind [Hp [Hc Hk]]].
  fold saved in Hfind, Hp, Hc, Hk.
  destruct (delete_pdf_database (MkStorage (fst saved) (uploads st ++ [upload_path s]))
              (snd saved) Hfind) as [Hdb [Hup _]].
  cbn [database uploads stored_filename] in Hdb, Hup.
  destruct (fst (delete_pdf _ _)) as [db' up'].
  cbn [database uploads] in Hdb, Hup. subst db' up'.
  destruct st as [db up]. cbn [database uploads] in *. f_equal.
  - unfold db_delete. cbn [pdf_id]. rewrite Hp, Hc, Hk. now destruct db.
  - rewrite filter_app. cbn [filter].
    assert (K : text_eqb (upload_path s) (upload_path s) = true)
      by (now apply text_eqb_eq).
    rewrite K. cbn [negb]. rewrite app_nil_r. apply filter_all. intros f Hf.
    apply negb_true_iff. destruct (text_eqb f (upload_path s)) eqn:Ef; [|reflexivity].
    apply text_eqb_eq in Ef. subst f. contradiction.
Qed.

Lemma save_then_delete_is_a_round_trip_witness :
  foreign_keys (database (MkStorage empty_db []))
  /\ ~ In (upload_path (py "stored-a")) (uploads (MkStorage empty_db []))
  /\ fst (delete_pdf (MkStorage db_after_first_save [upload_path (py "stored-a")]) 1)
     = MkStorage empty_db [].
Proof.
  assert (F : foreign_keys (database (MkStorage empty_db []))) by (split; constructor).
  assert (H : ~ In (upload_path (py "stored-a")) (uploads (MkStorage empty_db [])))
    by (intros []).
  split; [exact F|]. split; [exact H|].
  exact (@save_then_delete_is_a_round_trip sample_json
           (app_chunker isprintable_latin1)
           (app_embedder sample_numpy default_config)
           (MkStorage empty_db []) (py "a.pdf") (py "stored-a") (py "hello world")
           F H).
Defined.

Module SearchFacts.

Lemma In_firstn (A : Type) (n : nat) (l : list A) (x : A) :
  In x (firstn n l) -> In x l.
Proof.
  intros H. rewrite <- (firstn_skipn n l). apply in_or_app. now left.
Qed.

Section Services.

Variable np : Numpy.
Variable cfg : config.
Variable js : Json.

Lemma search_results_from_chunks (db : Db) (q : ndarray) (r : search_result) :
  In r (search_results np js db q) ->
  exists chunk score,
    In chunk (pdf_chunks db)
    /\ score_chunk np js q chunk = Some score
    /\ float_gt score threshold = true
    /\ r = search_result_of db chunk score.
Proof.
  unfold search_results. intros H. apply in_flat_map in H as [chunk [Hc H]].
  destruct (score_chunk np js q chunk) as [score|] eqn:E; [|contradiction].
  destruct (float_gt score threshold) eqn:Et; [|contradiction].
  destruct H as [<-|[]]. now exists chunk, score.
Qed.

Lemma search_pdfs_found (db : Db) (query : text) (top : list search_result) (total : Z) :
  search_pdfs np cfg js db query = Found top total ->
  exists q,
    top = firstn 10 (rank_results (search_results np js db q))
    /\ total = Z.of_nat (length (search_results np js db q))
    /\ (3 <= len query)%Z.
Proof.
  unfold search_pdfs.
  destruct (is_empty query || (len query <? 3)%Z) eqn:Eq; [discriminate|].
  apply orb_false_iff in Eq as [_ Eq]. apply Z.ltb_ge in Eq.
  destruct (get_embeddings np cfg [query] None) as [[|q qs]|e]; try discriminate.
  destruct (pdf_chunks db); [discriminate|].
  intros H. injection H as <- <-. exists q. split; [reflexivity|].
  split; [|exact Eq]. unfold rank_results. now rewrite sort_reverse_length.
Qed.

End Services.

End SearchFacts.

Import SearchFacts.

(** X12: what [/search] returns.  Every result has a score above 0.3 and
    comes from a stored chunk; at most 10 results are returned,
    [total_results] counts not fewer than those; a result shows at most 203 characters of its chunk, the
    whole chunk when that has at most 200 characters. *)
Theorem search_pdfs_results (np : Numpy) (cfg : config) (js : Json) (db : Db)
  (query : text) :
  match search_pdfs np cfg js db query with
  | Found top total =>
      (length top <= 10)%nat
      /\ (Z.of_nat (length top) <= total)%Z
      /\ Forall (fun r =>
                   float_gt (result_score r) threshold = true
                   /\ (len (result_chunk_text r) <= 203)%Z
                   /\ exists chunk,
                        In chunk (pdf_chunks db)
                        /\ result_pdf_id r = chunk_pdf_id chunk
                        /\ result_chunk_index r = chunk_index chunk
                        /\ ((len (chunk_text chunk) <= 200)%Z ->
                            result_chunk_text r = chunk_text chunk)) top
  | _ => True
  end.
Proof.
  destruct (search_pdfs np cfg js db query) as [m| |top total|e] eqn:E; trivial.
  apply search_pdfs_found in E as [q [-> [-> _]]].
  split; [apply firstn_le_length|]. split.
  { rewrite length_firstn. unfold rank_results. rewrite sort_reverse_length. lia. }
  apply Forall_forall. intros r Hr. apply In_firstn in Hr.
  apply (Permutation_in _ (Permutation_sym (sort_reverse_perm SFltb result_score _)))
    in Hr.
  apply search_results_from_chunks in Hr as [chunk [score [Hc [_ [Hs ->]]]]].
  unfold search_result_of. cbn [result_score result_chunk_text result_pdf_id
                                 result_chunk_index].
  split; [exact Hs|]. split.
  - destruct (Z.gtb_spec (len (chunk_text chunk)) 200) as [Hgt|Hle]; [|lia].
    unfold len, slice. rewrite length_app, length_firstn. simpl length. lia.
  - exists chunk. repeat split; trivial. intros Hle.
    destruct (Z.gtb_spec (len (chunk_text chunk)) 200) as [Hgt|_]; [lia | reflexivity].
Qed.

(** X13: a deleted document is not searched any more.  After
    [DELETE /pdf/{pdf_id}] on a document that exists, no result of
    [/search] refers to that document. *)
Theorem deleted_pdf_is_not_searched (np : Numpy) (cfg : config) (js : Json)
  (st : storage) (id : Z) (query : text) :
  find_pdf (database st) id <> None ->
  match search_pdfs np cfg js (database (fst (delete_pdf st id))) query with
  | Found top _ => Forall (fun r => result_pdf_id r <> id) top
  | _ => True
  end.
Proof.
  intros Hex. destruct (find_pdf (database st) id) as [pdf|] eqn:E; [|contradiction].
  destruct (delete_pdf_database st id E) as [Hdb _].
  destruct (find_pdf_id _ _ E) as [Hid _].
  destruct (search_pdfs _ _ _ _ query) as [m| |top total|e] eqn:Es; trivial.
  apply search_pdfs_found in Es as [q [-> _]].
  apply Forall_forall. intros r Hr. apply In_firstn in Hr.
  apply (Permutation_in _ (Permutation_sym (sort_reverse_perm SFltb result_score _)))
    in Hr.
  apply search_results_from_chunks in Hr as [chunk [score [Hc [_ [_ ->]]]]].
  cbn [search_result_of result_pdf_id]. rewrite Hdb in Hc.
  unfold db_delete in Hc. cbn [pdf_chunks] in Hc. apply filter_In in Hc as [_ Hc].
  apply negb_true_iff, Z.eqb_neq in Hc. now rewrite Hid in Hc.
Qed.

Lemma deleted_pdf_is_not_searched_witness :
  find_pdf (database (MkStorage db_after_second_save [])) 1 <> None
  /\ match search_pdfs sample_numpy default_config sample_json
             (database (fst (delete_pdf (MkStorage db_after_second_save []) 1)))
             (py "hello")
     with
     | Found top _ => Forall (fun r => result_pdf_id r <> 1%Z) top
     | _ => True
     end.
Proof.
  assert (H : find_pdf (database (MkStorage db_after_second_save [])) 1 <> None)
    by (vm_compute; discriminate).
  split; [exact H|].
  exact (@deleted_pdf_is_not_searched sample_numpy default_config sample_json
           (MkStorage db_after_second_save []) 1 (py "hello") H).
Defined.

(** ** The routes *)

Module RouteFacts.

Lemma cache_get_stored (keep : text * (response * float) -> bool) (key : text)
  (entry : response * float) (c : cache) :
  keep (key, entry) = true ->
  (forall k e, keep (k, e) = keep (key, e)) ->
  cache_get key (filter keep (cache_set key entry c)) = Some entry.
Proof.
  intros Hk Hext. unfold cache_get.
  induction c as [|[k e] c IH]; simpl.
  - rewrite Hk. simpl. assert (K : text_eqb key key = true) by (now apply text_eqb_eq).
    now rewrite K.
  - destruct (text_eqb k key) eqn:E; simpl.
    + rewrite Hext, Hk. simpl. now rewrite E.
    + destruct (keep (k, e)); simpl; [rewrite E|]; exact IH.
Qed.

Lemma cache_set_in (key : text) (entry : response * float) (c : cache)
  (ke : text * (response * float)) :
  In ke (cache_set key entry c) -> ke = (fst ke, entry) \/ In ke c.
Proof.
  induction c as [|[k e] c IH]; simpl.
  - intros [<-|[]]. now left.
  - destruct (text_eqb k key); simpl.
    + intros [<-|H]; [now left | right; now right].
    + intros [<-|H]; [right; now left|].
      destruct (IH H) as [H1|H1]; [now left | right; now right].
Qed.

Section Service.

Variable np : Numpy.
Variable cfg : config.
Variable js : Json.
Variable environ : text -> option text.
Variable post : azure_config -> text -> result text.
Variable lower : text -> text.
Variable choice : list text -> text.
Variable followup_prompt : text -> text -> text.
Variable chunks_prompt : text -> text -> list text -> text.
Variable simplify_prompt : text -> text -> text.
Variable clean_response : text -> text -> text.
Variable handle_tech_question : text -> option response.
Variable handle_conversational_query : text -> option response.
Variable full_content_answer : text -> list text -> list text -> bool -> result text.
Variable int_of_str : text -> option Z.

Local Abbreviation service :=
  (ai environ post lower choice followup_prompt chunks_prompt simplify_prompt
      clean_response handle_tech_question handle_conversational_query
      full_content_answer).

Lemma ai_unconfigured (db : Db) (question : text) (pdf_id : option Z) :
  unconfigured environ = true ->
  service db question pdf_id false None = Failure services_not_available.
Proof.
  intros H. unfold ai, answer_question_with_ai. cbn [andb].
  now rewrite llm_available_unconfigured, H.
Qed.

Lemma ai_followup (db : Db) (question previous_answer : text) (pdf_id : option Z) :
  previous_answer <> [] ->
  service db question pdf_id true (Some previous_answer)
  = let improved_answer :=
      generate_followup_answer environ post followup_prompt format_code_blocks
        (add_thinking_effect choice) question previous_answer in
    Success improved_answer (SourceLabel (py "Follow-up Enhancement")) 0 true
            improved_answer.
Proof.
  intros H. unfold ai, answer_question_with_ai.
  destruct previous_answer; [contradiction | reflexivity].
Qed.

Lemma followup_unconfigured (question previous_answer : text) :
  unconfigured environ = true ->
  generate_followup_answer environ post followup_prompt format_code_blocks
    (add_thinking_effect choice) question previous_answer
  = followup_apology.
Proof.
  intros H. unfold generate_followup_answer, _llm_generate, chat_completion_sync.
  destruct (unconfigured_client_raises environ H) as [m ->]. reflexivity.
Qed.

Lemma ask_ai_checks_message (st : storage) (question : text) (pdf_id : option Z)
  (r : JSONResponse) :
  ask_ai_checks lower st question pdf_id = Some r -> status_code r <> 200%Z.
Proof.
  unfold ask_ai_checks.
  destruct pdf_id as [id|].
  - destruct (find_pdf (database st) id) as [pdf|].
    + destruct (_ && _); [intros H; injection H as <-; discriminate|].
      destruct (_ && _); [intros H; injection H as <-; discriminate|].
      discriminate.
    + destruct (existsb _ tech_keywords); [discriminate|].
      intros H; injection H as <-; discriminate.
  - destruct (_ && _); [|discriminate].
    intros H; injection H as <-; discriminate.
Qed.

Lemma ask_ai_failure_status_values (message : text) :
  ask_ai_failure_status lower message <> 200%Z.
Proof.
  unfold ask_ai_failure_status.
  destruct (no_content_message lower message); [discriminate|].
  destruct (contains _ message); discriminate.
Qed.

End Service.

End RouteFacts.

Import RouteFacts.

Section RouteTheorems.

Variable np : Numpy.
Variable cfg : config.
Variable js : Json.
Variable environ : text -> option text.
Variable post : azure_config -> text -> result text.
Variable lower : text -> text.
Variable choice : list text -> text.
Variable followup_prompt : text -> text -> text.
Variable chunks_prompt : text -> text -> list text -> text.
Variable simplify_prompt : text -> text -> text.
Variable clean_response : text -> text -> text.
Variable handle_tech_question : text -> option response.
Variable handle_conversational_query : text -> option response.
Variable full_content_answer : text -> list text -> list text -> bool -> result text.
Variable int_of_str : text -> option Z.

Local Abbreviation ask :=
  (ask_question np cfg js environ post lower choice followup_prompt chunks_prompt
     simplify_prompt clean_response handle_tech_question
     handle_conversational_query full_content_answer int_of_str).

Local Abbreviation follow_up :=
  (ask_followup_question environ post lower choice followup_prompt chunks_prompt
     simplify_prompt clean_response handle_tech_question
     handle_conversational_query full_content_answer int_of_str).

Local Abbreviation ask_ai :=
  (ask_question_ai environ post lower choice followup_prompt chunks_prompt
     simplify_prompt clean_response handle_tech_question
     handle_conversational_query full_content_answer int_of_str).

(** X14: without a configured LLM, [/ask] answers with the standard QA.
    For a question that is not empty and a [pdf_id] that is absent or
    converts to a number, the reply is the answer of [answer_question]
    with status 200, or status 500 when [answer_question] raises; it
    is never the configuration error of the service, and the [pdf_id]
    plays no part in it. *)
Theorem ask_without_llm_is_standard_qa (db : Db) (question : text)
  (pdf_id : option json_id) :
  unconfigured environ = true ->
  question <> [] ->
  converted int_of_str pdf_id <> None ->
  ask db question pdf_id
  = match answer_question np cfg js db question with
    | Ok answer => MkResponse 200 (StandardQA question answer)
    | Raise e =>
        MkResponse 500 (Message (py "Error processing question: " ++ exn_message e))
    end.
Proof.
  intros Hu Hq Hid. unfold ask_question.
  destruct question as [|c question']; [contradiction|]. cbn [is_empty].
  destruct (converted int_of_str pdf_id) as [id|]; [|contradiction].
  now rewrite ai_unconfigured.
Qed.

(** X15: [/follow-up] answers whatever the configuration and the
    documents.  For a question and a previous answer that are not
    empty, a [pdf_id] that is absent or converts to a number, and a
    service that returns in time, the reply has status 200 and carries
    the text of [generate_followup_answer] with the source
    "Follow-up Enhancement"; the database is not consulted; without a
    configured LLM the text is the fixed apology. *)
Theorem followup_always_answers (db : Db) (question previous_answer : text)
  (pdf_id : option json_id) :
  question <> [] ->
  previous_answer <> [] ->
  converted int_of_str pdf_id <> None ->
  let improved_answer :=
    generate_followup_answer environ post followup_prompt format_code_blocks
      (add_thinking_effect choice) question previous_answer in
  follow_up db question previous_answer pdf_id false
  = MkResponse 200
      (Service (Success improved_answer (SourceLabel (py "Follow-up Enhancement"))
                        0 true improved_answer))
  /\ (unconfigured environ = true -> improved_answer = followup_apology).
Proof.
  intros Hq Hp Hid improved_answer. split.
  - unfold ask_followup_question.
    destruct question as [|c question']; [contradiction|]. cbn [is_empty].
    destruct previous_answer as [|d previous']; [contradiction|]. cbn [is_empty].
    destruct (converted int_of_str pdf_id) as [id|]; [|contradiction].
    now rewrite ai_followup.
  - intros Hu. now apply followup_unconfigured.
Qed.

(** X16: an answer of [/ask-ai] is served again from the cache.  If a
    request that the cache did not serve got status 200 with a
    response of the service, and the entry written for it outlived the
    cleanup of that request, then a request with the same question and
    the same [pdf_id] made while the entry is younger than 300 seconds
    gets the same response and leaves the cache as it is, whatever has
    become of the documents and of the files, and whether or not the
    service would answer in time. *)
Theorem ask_ai_answer_is_cached (c c' : cache) (clk clk' : clock)
  (st st' : storage) (question : text) (pdf_id : option json_id)
  (timed_out timed_out' : bool) (answer_data : response) :
  cached_response c clk (cache_key question pdf_id) = None ->
  ask_ai c clk st question pdf_id timed_out
  = (c', MkResponse 200 (Service answer_data)) ->
  younger (at_cleanup clk) (at_store clk) 600 = true ->
  younger (at_lookup clk') (at_store clk) 300 = true ->
  ask_ai c' clk' st' question pdf_id timed_out'
  = (c', MkResponse 200 (Service answer_data)).
Proof.
  intros Hmiss Hfirst Hkeep Hyoung.
  assert (Hc' : c' = store_and_clean c clk (cache_key question pdf_id) answer_data).
  { unfold ask_question_ai in Hfirst. rewrite Hmiss in Hfirst.
    destruct (is_empty question); [discriminate Hfirst|].
    destruct (converted int_of_str pdf_id) as [id|]; [|discriminate Hfirst].
    destruct (ask_ai_checks lower st _ id) as [r|] eqn:Ec.
    { injection Hfirst as _ Hr. apply ask_ai_checks_message in Ec.
      rewrite Hr in Ec. now contradiction Ec. }
    destruct timed_out; [discriminate Hfirst|].
    destruct (ai _ _ _ _ _ _ _ _ _ _ _ _ _ _ _ _) as [a s n b p|m] eqn:Ea.
    - injection Hfirst as <- <-. reflexivity.
    - injection Hfirst as _ Hs _.
      now apply (@ask_ai_failure_status_values lower) in Hs. }
  unfold ask_question_ai, cached_response. rewrite Hc'. unfold store_and_clean.
  rewrite cache_get_stored; [now rewrite Hyoung | exact Hkeep | reflexivity].
Qed.

(** X17: what [/ask-ai] does to its cache.  A request leaves the cache
    as it is unless it answers with status 200 a response of the
    service that the cache did not hold, and then the cache is the old
    one with that response stored under the key of the request, minus
    the entries that are 600 seconds old or older at the cleanup: a
    failure is never stored, and after a store every entry is younger
    than 600 seconds. *)
Theorem ask_ai_cache_discipline (c : cache) (clk : clock) (st : storage)
  (question : text) (pdf_id : option json_id) (timed_out : bool) :
  let c' := fst (ask_ai c clk st question pdf_id timed_out) in
  let r := snd (ask_ai c clk st question pdf_id timed_out) in
  (c' = c
   \/ exists a s n b p,
        r = MkResponse 200 (Service (Success a s n b p))
        /\ c' = store_and_clean c clk (cache_key question pdf_id) (Success a s n b p)
        /\ Forall (fun ke => younger (at_cleanup clk) (snd (snd ke)) 600 = true) c')
  /\ (Forall (fun ke => exists a s n b p, fst (snd ke) = Success a s n b p) c ->
      Forall (fun ke => exists a s n b p, fst (snd ke) = Success a s n b p) c').
Proof.
  intros c' r. unfold c', r, ask_question_ai.
  destruct (cached_response c clk _) as [cached|]; [split; [now left | trivial]|].
  destruct (is_empty question); [split; [now left | trivial]|].
  destruct (converted int_of_str pdf_id) as [id|]; [|split; [now left | trivial]].
  destruct (ask_ai_checks lower st _ id) as [r0|]; [split; [now left | trivial]|].
  destruct timed_out; [split; [now left | trivial]|].
  destruct (ai _ _ _ _ _ _ _ _ _ _ _ _ _ _ _ _) as [a s n b p|m];
    [|split; [now left | trivial]].
  cbn [fst snd]. split.
  - right. exists a, s, n, b, p. split; [reflexivity|]. split; [reflexivity|].
    unfold store_and_clean. apply Forall_forall. intros ke Hke.
    now apply filter_In in Hke as [_ Hke].
  - intros Hall. unfold store_and_clean. apply Forall_forall. intros ke Hke.
    apply filter_In in Hke as [Hke _]. apply cache_set_in in Hke as [Hke|Hke].
    + rewrite Hke. cbn [fst snd]. now exists a, s, n, b, p.
    + rewrite Forall_forall in Hall. now apply Hall.
Qed.

End RouteTheorems.

Lemma ask_without_llm_is_standard_qa_witness :
  unconfigured empty_environ = true
  /\ py "ab" <> []
  /\ converted reject_strings (Some (IdInt 7)) <> None
  /\ sample_ask empty_environ tie_db (py "ab") (Some (IdInt 7))
     = match answer_question sample_numpy two_dimensions sample_json tie_db (py "ab") with
       | Ok answer => MkResponse 200 (StandardQA (py "ab") answer)
       | Raise e =>
           MkResponse 500 (Message (py "Error processing question: " ++ exn_message e))
       end.
Proof.
  assert (H1 : unconfigured empty_environ = true) by reflexivity.
  assert (H2 : py "ab" <> []) by discriminate.
  assert (H3 : converted reject_strings (Some (IdInt 7)) <> None) by discriminate.
  split; [exact H1|]. split; [exact H2|]. split; [exact H3|].
  exact (@ask_without_llm_is_standard_qa sample_numpy two_dimensions sample_json
           empty_environ echo lower_ascii first_choice two_part_prompt
           context_prompt two_part_prompt keep_answer decline decline
           repeat_question reject_strings tie_db (py "ab") (Some (IdInt 7))
           H1 H2 H3).
Defined.

Lemma followup_always_answers_witness :
  py "why?" <> []
  /\ py "because" <> []
  /\ converted reject_strings None <> None
  /\ sample_follow_up empty_environ empty_db (py "why?") (py "because") None false
     = MkResponse 200
         (Service (Success followup_apology (SourceLabel (py "Follow-up Enhancement"))
                           0 true followup_apology)).
Proof.
  assert (H1 : py "why?" <> []) by discriminate.
  assert (H2 : py "because" <> []) by discriminate.
  assert (H3 : converted reject_strings None <> None) by discriminate.
  split; [exact H1|]. split; [exact H2|]. split; [exact H3|].
  destruct (@followup_always_answers empty_environ echo lower_ascii first_choice
              two_part_prompt context_prompt two_part_prompt keep_answer decline
              decline repeat_question reject_strings empty_db (py "why?")
              (py "because") None H1 H2 H3) as [K1 K2].
  rewrite (K2 eq_refl) in K1. exact K1.
Defined.

Lemma ask_ai_answer_is_cached_witness :
  let first := sample_ask_ai configured_environ [] first_clock first_store
                 (py "hello  there") (Some (IdInt 1)) false in
  cached_response [] first_clock (cache_key (py "hello  there") (Some (IdInt 1))) = None
  /\ status_code (snd first) = 200%Z
  /\ younger (at_cleanup first_clock) (at_store first_clock) 600 = true
  /\ younger (at_lookup later_clock) (at_store first_clock) 300 = true
  /\ sample_ask_ai empty_environ (fst first) later_clock (MkStorage empty_db [])
       (py "hello  there") (Some (IdInt 1)) true
     = first.
Proof.
  intros first.
  assert (H1 : cached_response [] first_clock
                 (cache_key (py "hello  there") (Some (IdInt 1))) = None)
    by reflexivity.
  assert (H3 : younger (at_cleanup first_clock) (at_store first_clock) 600 = true)
    by (vm_compute; reflexivity).
  assert (H4 : younger (at_lookup later_clock) (at_store first_clock) 300 = true)
    by (vm_compute; reflexivity).
  assert (H2 : exists a, first = (fst first, MkResponse 200 (Service a))).
  { eexists. vm_compute. reflexivity. }
  destruct H2 as [a H2].
  split; [exact H1|]. split; [now rewrite H2|]. split; [exact H3|].
  split; [exact H4|].
  rewrite H2 at 2.
  exact (@ask_ai_answer_is_cached configured_environ echo lower_ascii first_choice
           two_part_prompt context_prompt two_part_prompt keep_answer decline
           decline repeat_question reject_strings [] (fst first) first_clock
           later_clock first_store (MkStorage empty_db []) (py "hello  there")
           (Some (IdInt 1)) false true a H1 H2 H3 H4).
Defined.

(** ** Lines: [split] and [join] *)

Module LineFacts.

Lemma split_on_go_skip (sep : text) (s : text) :
  forall k, (k <= length s)%nat ->
            split_on_go sep s k = split_on_go sep (skipn k s) 0.
Proof.
  induction s as [|c r IH]; intros k Hk.
  - now destruct k.
  - destruct k as [|k]; [reflexivity|]. simpl in Hk. cbn [split_on_go skipn].
    apply IH. lia.
Qed.

(** The pieces and the separators between them make up the text. *)
Lemma split_on_go_pieces (sep : text) :
  sep <> [] ->
  forall n s, (length s <= n)%nat ->
    fst (split_on_go sep s 0) ++ concat (map (app sep) (snd (split_on_go sep s 0)))
    = s.
Proof.
  intros Hsep. induction n as [|n IH]; intros s Hn.
  - destruct s; [reflexivity | simpl in Hn; lia].
  - destruct s as [|c r]; [reflexivity|]. simpl in Hn.
    cbn [split_on_go]. destruct (startswith sep (c :: r)) eqn:E.
    + pose proof (startswith_split _ _ E) as Hs.
      pose proof (startswith_length _ _ E) as Hl.
      destruct sep as [|a sep']; [contradiction|].
      cbn [length] in *. replace (S (length sep') - 1)%nat with (length sep') by lia.
      rewrite split_on_go_skip by (simpl in Hl; lia).
      cbn [skipn] in Hs.
      destruct (split_on_go (a :: sep') (skipn (length sep') r) 0) as [p ps] eqn:G.
      cbn [fst snd map concat].
      assert (K := IH (skipn (length sep') r)).
      rewrite G in K. cbn [fst snd] in K.
      rewrite <- app_assoc, K by (rewrite length_skipn; lia).
      now rewrite <- Hs.
    + destruct (split_on_go sep r 0) as [p ps] eqn:G. cbn [fst snd].
      assert (K := IH r). rewrite G in K. cbn [fst snd] in K.
      rewrite <- app_comm_cons, K by lia. reflexivity.
Qed.

Lemma join_pieces (sep p : text) (ps : list text) :
  join sep (p :: ps) = p ++ concat (map (app sep) ps).
Proof.
  revert p. induction ps as [|q ps IH]; intros p.
  - simpl. now rewrite app_nil_r.
  - change (join sep (p :: q :: ps)) with (p ++ sep ++ join sep (q :: ps)).
    rewrite IH. cbn [map concat]. now rewrite <- app_assoc.
Qed.

(** [sep.join(s.split(sep)) == s]. *)
Lemma join_split_on (sep s : text) : sep <> [] -> join sep (split_on sep s) = s.
Proof.
  intros Hsep. unfold split_on.
  pose proof (@split_on_go_pieces sep Hsep (length s) s (le_n _)) as H.
  destruct (split_on_go sep s 0) as [p ps]. now rewrite join_pieces.
Qed.

Lemma contains_more (sub s t : text) :
  contains sub s = true -> contains sub (s ++ t) = true.
Proof.
  induction s as [|c r IH]; intros H.
  - simpl in H. rewrite orb_false_r in H. destruct sub; [|discriminate].
    destruct t; reflexivity.
  - cbn [contains] in H. apply orb_true_iff in H as [H|H].
    + rewrite <- app_comm_cons. cbn [contains].
      change (c :: r ++ t) with ((c :: r) ++ t).
      now rewrite (startswith_more _ _ t H).
    + rewrite <- app_comm_cons. cbn [contains]. rewrite (IH H). apply orb_true_r.
Qed.

Lemma contains_later (sub p s : text) :
  contains sub s = true -> contains sub (p ++ s) = true.
Proof.
  intros H. induction p as [|c p IH]; [exact H|].
  rewrite <- app_comm_cons. cbn [contains]. rewrite IH. apply orb_true_r.
Qed.

Lemma join_in (sep l : text) (parts : list text) :
  In l parts -> exists pre post, join sep parts = pre ++ l ++ post.
Proof.
  induction parts as [|p ps IH]; [contradiction|]. intros [->|H].
  - exists [], (concat (map (app sep) ps)). now rewrite join_pieces.
  - destruct (IH H) as [pre [post E]]. destruct ps as [|q ps]; [contradiction|].
    change (join sep (p :: q :: ps)) with (p ++ sep ++ join sep (q :: ps)).
    rewrite E. exists (p ++ sep ++ pre), post. now rewrite <- !app_assoc.
Qed.

(** What occurs in a line occurs in the text. *)
Lemma contains_line (sep sub s l : text) :
  sep <> [] -> In l (split_on sep s) -> contains sub l = true ->
  contains sub s = true.
Proof.
  intros Hsep Hin H. destruct (join_in sep _ _ Hin) as [pre [post E]].
  rewrite (join_split_on s Hsep) in E. rewrite E.
  apply contains_later. now apply contains_more.
Qed.

Lemma startswith_contains (sub s : text) :
  startswith sub s = true -> contains sub s = true.
Proof. intros H. destruct s; simpl in *; now rewrite H. Qed.

Lemma fold_left_invariant (S A : Type) (step : S -> A -> S)
  (inv : list A -> S -> Prop) :
  (forall seen st x, inv seen st -> inv (seen ++ [x]) (step st x)) ->
  forall l seen st, inv seen st -> inv (seen ++ l) (fold_left step l st).
Proof.
  intros Hstep. induction l as [|x l IH]; intros seen st H.
  - now rewrite app_nil_r.
  - cbn [fold_left]. change (x :: l) with ([x] ++ l). rewrite app_assoc.
    apply IH. now apply Hstep.
Qed.

Lemma strip_nonblank (c : char) (s : text) :
  isspace c = false -> is_empty (strip (c :: s)) = false.
Proof.
  intros H. unfold strip. cbn [lstrip]. rewrite H.
  now rewrite rstrip_cons_nonspace.
Qed.

End LineFacts.

Import LineFacts.

(** ** Code-block markers *)

Module MarkFacts.

(** What [mark_line] and [format_line] keep while they pass over the
    lines: the lines other than markers are the lines read, and the
    markers written so far are even in number exactly when no block is
    open. *)
Local Abbreviation marked marker seen st :=
  (filter (fun l => negb (marker l)) (fst st)
   = filter (fun l : text => negb (marker l)) seen
   /\ exists k, length (fst st)
                = Nat.add (Nat.add (length seen) (Nat.mul 2%nat k))
                          (if snd st then 1%nat else 0%nat)).

Local Abbreviation is_fence := (fun l => text_eqb l fence).
Local Abbreviation is_code_fence := (startswith code_fence).

Lemma mark_line_marked (seen : list text) (st : list text * bool) (line : text) :
  marked is_fence seen st -> marked is_fence (seen ++ [line]) (mark_line st line).
Proof.
  destruct st as [out flag]. cbn [fst snd]. intros [Hf [k Hk]].
  assert (Efence : negb (text_eqb fence fence) = false) by reflexivity.
  unfold mark_line.
  destruct (looks_like_code line), flag; cbn [negb andb fst snd];
    try destruct (is_empty (strip line)); cbn [fst snd];
    rewrite ?filter_app, ?length_app; cbn [filter length]; rewrite ?Efence, ?Hf;
    rewrite ?app_nil_r; (split; [reflexivity|]);
    solve [exists k; lia | exists (S k); lia].
Qed.

Lemma processed_lines_marked (page_text : text) :
  filter (fun l => negb (text_eqb l fence)) (processed_lines_of page_text)
  = filter (fun l => negb (text_eqb l fence)) (split_on [NL] page_text)
  /\ exists k, length (processed_lines_of page_text)
               = (length (split_on [NL] page_text) + 2 * k)%nat.
Proof.
  unfold processed_lines_of.
  pose proof (@fold_left_invariant _ _ mark_line
                (fun seen st => marked is_fence seen st)
                mark_line_marked (split_on [NL] page_text) [] ([], false)) as H.
  cbn [app] in H.
  destruct (fold_left mark_line (split_on [NL] page_text) ([], false))
    as [out flag].
  cbn [fst snd] in H. destruct H as [Hf [k Hk]].
  { split; [reflexivity | exists 0%nat; reflexivity]. }
  destruct flag.
  - rewrite filter_app, length_app. cbn [filter length]. 
    change (negb (text_eqb fence fence)) with false. cbv iota.
    rewrite app_nil_r. split; [exact Hf | exists (S k); lia].
  - split; [exact Hf | exists k; lia].
Qed.

Lemma opening_fence_is_fence (line : text) :
  startswith code_fence (opening_fence line) = true.
Proof.
  unfold opening_fence.
  repeat match goal with |- context [if ?b then _ else _] => destruct b end;
    reflexivity.
Qed.

Lemma format_line_marked (seen : list text) (st : list text * bool) (line : text) :
  marked is_code_fence seen st ->
  marked is_code_fence (seen ++ [line]) (format_line st line).
Proof.
  destruct st as [out flag]. cbn [fst snd]. intros [Hf [k Hk]].
  assert (Efence : negb (startswith code_fence code_fence) = false) by reflexivity.
  pose proof (opening_fence_is_fence line) as Eopen.
  unfold format_line.
  destruct (is_code_line line), flag; cbn [negb andb fst snd];
    destruct (ends_block line); cbn [fst snd];
    rewrite ?filter_app, ?length_app; cbn [filter length];
    rewrite ?Efence, ?Eopen, ?Hf; cbn [negb];
    rewrite ?app_nil_r; (split; [reflexivity|]);
    solve [exists k; lia | exists (S k); lia].
Qed.

Lemma formatted_lines_marked (lines : list text) :
  filter (fun l => negb (startswith code_fence l)) (formatted_lines_of lines)
  = filter (fun l => negb (startswith code_fence l)) lines
  /\ exists k, length (formatted_lines_of lines) = (length lines + 2 * k)%nat.
Proof.
  unfold formatted_lines_of.
  pose proof (@fold_left_invariant _ _ format_line
                (fun seen st => marked is_code_fence seen st)
                format_line_marked lines [] ([], false)) as H.
  cbn [app] in H.
  destruct (fold_left format_line lines ([], false)) as [out flag].
  cbn [fst snd] in H. destruct H as [Hf [k Hk]].
  { split; [reflexivity | exists 0%nat; reflexivity]. }
  destruct flag.
  - rewrite filter_app, length_app. cbn [filter length].
    change (negb (startswith code_fence code_fence)) with false. cbv iota.
    rewrite app_nil_r. split; [exact Hf | exists (S k); lia].
  - split; [exact Hf | exists k; lia].
Qed.

(** No line of a text without a fence starts with one. *)
Lemma lines_without_fence (answer : text) :
  contains code_fence answer = false ->
  filter (fun l => negb (startswith code_fence l)) (split_on [NL] answer)
  = split_on [NL] answer.
Proof.
  intros H. apply filter_all. intros l Hl. apply negb_true_iff.
  apply not_true_iff_false. intros K. apply startswith_contains in K.
  rewrite (@contains_line [NL] code_fence answer l) in H;
    [discriminate | discriminate | exact Hl | exact K].
Qed.

End MarkFacts.

Import MarkFacts.

(** X18: the text taken from a file is never blank.  Whatever is found
    on disk and whatever the PDF libraries do, [extract_text_from_pdf]
    returns a text with a character that is not whitespace: the text of
    the pages, or a message that names the failure.  So the text
    [save_pdf_to_db] stores for an upload is the returned text itself,
    a failure message included, never the placeholder it keeps for a
    blank extraction. *)
Theorem extract_text_from_pdf_is_never_blank (f : pdf_file) (original_filename : text) :
  is_empty (strip (extract_text_from_pdf f)) = false
  /\ stored_text original_filename (extract_text_from_pdf f)
     = extract_text_from_pdf f.
Proof.
  assert (H : is_empty (strip (extract_text_from_pdf f)) = false).
  { unfold extract_text_from_pdf, no_extractable_text, pypdf2_error.
    destruct (file_exists f); cbn [negb]; [|reflexivity].
    destruct (getsize f) as [file_size|m]; [|now apply strip_nonblank].
    destruct (file_size =? 0)%Z; [reflexivity|].
    destruct (PyPDF2 f) as [[pages|m]|];
      [| now apply strip_nonblank | now apply strip_nonblank].
    destruct (Z.of_nat (length pages) =? 0)%Z; [reflexivity|].
    destruct (pages_text pages []) as [t|m]; [|now apply strip_nonblank].
    destruct (is_empty (strip t)) eqn:Et; [|exact Et].
    destruct (pdfplumber f) as [[plumber_pages|m]|];
      [| now apply strip_nonblank | now apply strip_nonblank].
    destruct (plumber_text plumber_pages []) as [all_text|m];
      [|now apply strip_nonblank].
    destruct (is_empty (strip all_text)) eqn:Ea; [|exact Ea].
    now apply strip_nonblank. }
  split; [exact H|]. unfold stored_text. rewrite H.
  destruct (extract_text_from_pdf f); [discriminate H | reflexivity].
Qed.

(** X19: marking the code blocks of a page neither loses nor reorders a
    line.  The lines [extract_text_from_pdf] writes for a page are the
    lines of the page with lines "```" put in between: without the
    lines equal to "```", both are the same list, and the number of
    lines added is even (each block that is opened is closed). *)
Theorem page_marking_keeps_the_lines (page_text : text) :
  let lines := split_on [NL] page_text in
  let processed_lines := processed_lines_of page_text in
  filter (fun l => negb (text_eqb l fence)) processed_lines
  = filter (fun l => negb (text_eqb l fence)) lines
  /\ (exists k, length processed_lines = (length lines + 2 * k)%nat)
  /\ join [NL] lines = page_text.
Proof.
  cbv zeta. destruct (processed_lines_marked page_text) as [H1 H2].
  repeat split; [exact H1 | exact H2 | now apply join_split_on].
Qed.

(** X20: [format_code_blocks] keeps the answer's lines.  An answer that
    holds "```" already is returned with the note on copying appended
    and is otherwise left alone.  An answer without "```" is returned
    as its own lines, in order, with fence lines (lines that start with
    "```") put in between, an even number of them, followed by the note
    only if a fence was put in: it is never shortened, and without the
    fence lines it is the answer again. *)
Theorem format_code_blocks_keeps_the_lines (answer : text) :
  (contains code_fence answer = true ->
   format_code_blocks answer = answer ++ copy_note)
  /\ (contains code_fence answer = false ->
      exists formatted_lines note,
        format_code_blocks answer = join [NL] formatted_lines ++ note
        /\ (note = [] \/ note = copy_note /\ formatted_lines <> split_on [NL] answer)
        /\ filter (fun l => negb (startswith code_fence l)) formatted_lines
           = split_on [NL] answer
        /\ exists k, length formatted_lines
                     = (length (split_on [NL] answer) + 2 * k)%nat).
Proof.
  split; intros H; unfold format_code_blocks.
  - assert (E : existsb (fun indicator => contains indicator answer) code_indicators
                = true).
    { apply existsb_exists. exists code_fence. split; [now left | exact H]. }
    rewrite E, H. cbn [negb]. now rewrite H.
  - assert (Hs : join [NL] (split_on [NL] answer) = answer)
      by (apply join_split_on; discriminate).
    destruct (existsb _ code_indicators).
    + rewrite H. cbn [negb].
      destruct (formatted_lines_marked (split_on [NL] answer)) as [Hf Hk].
      rewrite (lines_without_fence answer H) in Hf.
      exists (formatted_lines_of (split_on [NL] answer)).
      destruct (contains code_fence
                  (join [NL] (formatted_lines_of (split_on [NL] answer)))) eqn:E.
      * exists copy_note. repeat split; [right | exact Hf | exact Hk].
        split; [reflexivity|]. intros K. rewrite K, Hs in E. congruence.
      * exists []. rewrite app_nil_r. repeat split; [now left | exact Hf | exact Hk].
    + exists (split_on [NL] answer), [].
      rewrite app_nil_r, Hs. repeat split; [now left | | exists 0%nat; lia].
      now apply lines_without_fence.
Qed.

(** ** The sample of a long document *)

Module SampleFacts.

Lemma sample_of_long (content : text) :
  (8000 < len content)%Z ->
  sample_of content
  = firstn 3000 content ++ ellipsis_line
    ++ firstn 3000 (skipn (Z.to_nat (len content / 2 - 1500)) content)
    ++ ellipsis_line ++ last_chars 2000 content.
Proof.
  intros H. unfold sample_of. apply Z.gtb_lt in H. rewrite Z.gtb_ltb in *.
  rewrite H. apply Z.ltb_lt in H. unfold slice.
  rewrite Z.max_r by (assert (4000 <= len content / 2)%Z
                        by (apply Z.div_le_lower_bound; lia); lia).
  replace (len content / 2 - 1500 + 3000 - (len content / 2 - 1500))%Z
    with 3000%Z by lia.
  reflexivity.
Qed.

Lemma firstn_app_prefix (n : nat) (l r : text) :
  (n <= length l)%nat -> firstn n (firstn n l ++ r) = firstn n l.
Proof.
  intros H. rewrite firstn_app, firstn_firstn, Nat.min_id, length_firstn.
  replace (n - Nat.min n (length l))%nat with 0%nat by lia.
  cbn [firstn]. now rewrite app_nil_r.
Qed.

Lemma last_chars_app (n : nat) (pre l : text) :
  (n <= length l)%nat -> last_chars n (pre ++ last_chars n l) = last_chars n l.
Proof.
  intros H. unfold last_chars at 1. rewrite skipn_app.
  assert (E : (length (pre ++ last_chars n l) - n = length pre)%nat).
  { rewrite length_app. unfold last_chars. rewrite length_skipn. lia. }
  rewrite E, skipn_all, Nat.sub_diag. reflexivity.
Qed.

Lemma len_ellipsis : length ellipsis_line = 5%nat.
Proof. reflexivity. Qed.

Lemma sample_of_long_len (content : text) :
  (8000 < len content)%Z -> len (sample_of content) = 8010%Z.
Proof.
  intros H. rewrite (sample_of_long content H). unfold len, last_chars in *.
  rewrite !length_app, !length_firstn, !length_skipn, len_ellipsis.
  assert (Z.to_nat (Z.of_nat (length content) / 2 - 1500)
          <= length content - 3000)%nat.
  { assert (Z.of_nat (length content) / 2 <= Z.of_nat (length content) - 4000)%Z
      by (apply Z.div_le_upper_bound; lia). lia. }
  lia.
Qed.

Lemma sample_of_len (content : text) : (len (sample_of content) <= 8010)%Z.
Proof.
  destruct (Z.ltb_spec 8000 (len content)) as [H|H].
  - rewrite (sample_of_long_len content H). lia.
  - unfold sample_of. rewrite Z.gtb_ltb. apply Z.ltb_ge in H. rewrite H.
    apply Z.ltb_ge in H. lia.
Qed.

Lemma len_join (sep : text) (parts : list text) (bound : Z) :
  Forall (fun p => (len p <= bound)%Z) parts ->
  (len (join sep parts) <= (bound + len sep) * len_words parts)%Z.
Proof.
  unfold len, len_words. induction 1 as [|p ps Hp Hps IH]; [simpl; lia|].
  destruct ps as [|q ps]; [cbn [join length]; nia|].
  change (join sep (p :: q :: ps)) with (p ++ sep ++ join sep (q :: ps)).
  rewrite !length_app. cbn [length] in *. nia.
Qed.

End SampleFacts.

Import SampleFacts.

(** X21: the sample of a document.  A document of at most 8000
    characters is passed to the prompt whole.  A longer one is replaced
    by exactly 8010 characters: its first 3000, 3000 from its middle and
    its last 2000, with a line "..." between them (so a document of 8001
    to 8009 characters gets a sample longer than itself).  The context
    built from n documents has at most 8017 n characters. *)
Theorem sample_of_size (content : text) (pdf_contents : list text) :
  ((len content <=? 8000)%Z = true -> sample_of content = content)
  /\ ((8000 <? len content)%Z = true ->
      len (sample_of content) = 8010%Z
      /\ firstn 3000 (sample_of content) = firstn 3000 content
      /\ last_chars 2000 (sample_of content) = last_chars 2000 content)
  /\ (len (full_context pdf_contents) <= 8017 * len_words pdf_contents)%Z.
Proof.
  split; [|split].
  - intros H. unfold sample_of. rewrite Z.gtb_ltb.
    apply Z.leb_le in H. apply Z.ltb_ge in H. now rewrite H.
  - intros H. apply Z.ltb_lt in H.
    split; [now apply sample_of_long_len|].
    rewrite (sample_of_long content H). unfold len in H.
    split.
    + apply firstn_app_prefix. lia.
    + rewrite !app_assoc. apply last_chars_app. lia.
  - unfold full_context.
    pose proof (@len_join chunk_delimiter (map sample_of pdf_contents) 8010) as H.
    unfold len_words in *. rewrite length_map in H.
    change (len chunk_delimiter) with 7%Z in H.
    apply H. apply Forall_forall. intros p Hp. apply in_map_iff in Hp as [c [<- _]].
    apply sample_of_len.
Qed.

(** ** Errors and edges of the embedder *)

(** X22: what [get_embeddings] returns, by the sign of the dimension.
    The dimension is the override unless that is missing or 0, then the
    configured one.  The flag for external embeddings changes nothing:
    the result is that of [get_simple_embeddings].  Without texts the
    result is the empty list.  With texts, a negative dimension raises
    [ValueError]; a dimension of 0 gives empty arrays when every text is
    empty and [ZeroDivisionError] otherwise; a positive dimension gives
    one [float32] array of that length for each text. *)
Theorem get_embeddings_by_dimension (np : Numpy) (cfg : config) (texts : list text)
  (embedding_dim : option Z) :
  let dim := match embedding_dim with
             | Some d => if (d =? 0)%Z then EMBEDDING_DIM cfg else d
             | None => EMBEDDING_DIM cfg
             end in
  let result := get_embeddings np cfg texts embedding_dim in
  result = get_simple_embeddings np texts dim
  /\ (texts = [] -> result = Ok [])
  /\ (texts <> [] -> (dim < 0)%Z -> result = Raise ValueError)
  /\ (dim = 0%Z ->
      result = if forallb is_empty texts
               then Ok (map (fun _ => NdArray float32 []) texts)
               else Raise ZeroDivisionError)
  /\ ((0 < dim)%Z ->
      exists embeddings,
        result = Ok embeddings
        /\ length embeddings = length texts
        /\ Forall (fun v => dt v = float32 /\ len_float (data v) = dim) embeddings).
Proof.
  cbv zeta. set (dim := match embedding_dim with Some _ => _ | None => _ end).
  assert (E : get_embeddings np cfg texts embedding_dim
              = get_simple_embeddings np texts dim).
  { unfold get_embeddings. fold dim. unfold get_external_embeddings.
    destruct (USE_EXTERNAL_EMBEDDINGS cfg); [|reflexivity].
    now destruct (get_simple_embeddings np texts dim). }
  rewrite E. clear E. clearbody dim. split; [reflexivity|]. split; [|split; [|split]].
  - now intros ->.
  - intros Ht Hd. destruct texts as [|t texts]; [contradiction|].
    unfold get_simple_embeddings. cbn [traverse]. unfold simple_embedding, np_zeros.
    apply Z.ltb_lt in Hd. rewrite Hd. reflexivity.
  - intros ->. unfold get_simple_embeddings.
    induction texts as [|t texts IH]; [reflexivity|].
    cbn [traverse forallb map]. unfold simple_embedding at 1.
    cbn [np_zeros Z.ltb Z.compare bind data Z.to_nat repeat].
    change (np_zeros 0) with (Ok (NdArray float32 [])). cbn [bind data].
    destruct t as [|c t].
    + cbn [accumulate bind is_empty andb map]. rewrite IH.
      destruct (float_gt _ zero); destruct (forallb is_empty texts); reflexivity.
    + reflexivity.
  - intros Hd. apply (@get_simple_embeddings_total np dim Hd texts).
Qed.

(** ** The summary of a document *)

Module SummaryFacts.

(** *** The words [re.findall] finds *)

Section Words.

Variable isalnum : char -> bool.

Lemma letters_match_run (s : text) :
  forall k, letters_match isalnum s = Some k ->
            (1 <= k <= length s)%nat /\ forallb ascii_letter (firstn k s) = true.
Proof.
  induction s as [|c r IH]; intros k H; [discriminate|].
  cbn [letters_match] in H. destruct (ascii_letter c) eqn:Ec; [|discriminate].
  destruct (letters_match isalnum r) as [j|] eqn:Er.
  - injection H as <-. destruct (IH j eq_refl) as [Hj Hf].
    cbn [length firstn forallb]. rewrite Ec, Hf. split; [lia | reflexivity].
  - destruct (boundary isalnum (isword isalnum c) r); [|discriminate].
    injection H as <-. cbn [length firstn forallb]. rewrite Ec.
    split; [lia | now destruct r].
Qed.

Lemma findall_go_words (s : text) :
  forall before skip,
    Forall (fun w => (4 <= length w)%nat /\ forallb ascii_letter w = true)
           (findall_go isalnum s before skip).
Proof.
  induction s as [|c r IH]; intros before skip; [constructor|].
  cbn [findall_go]. destruct skip as [|k]; [|apply IH].
  destruct (if boundary isalnum before (c :: r)
            then letters_match isalnum (c :: r) else None) as [k|] eqn:E;
    [|apply IH].
  destruct (4 <=? k)%nat eqn:Ek; [|apply IH].
  constructor; [|apply IH].
  destruct (boundary isalnum before (c :: r)); [|discriminate].
  apply letters_match_run in E as [Hk Hf]. apply Nat.leb_le in Ek.
  rewrite length_firstn. split; [lia | exact Hf].
Qed.

End Words.

(** *** Counting the words *)

Lemma In_existsb (w : text) (l : list text) :
  existsb (text_eqb w) l = true <-> In w l.
Proof.
  rewrite existsb_exists. split.
  - intros [x [Hx E]]. apply text_eqb_eq in E. now subst.
  - intros H. exists w. split; [exact H | now apply text_eqb_eq].
Qed.

Lemma occurrences_nil (w : text) : occurrences w [] = 0%Z.
Proof. reflexivity. Qed.

Lemma occurrences_snoc (w x : text) (ws : list text) :
  occurrences w (ws ++ [x])
  = (occurrences w ws + if text_eqb w x then 1 else 0)%Z.
Proof.
  unfold occurrences, len_words. rewrite filter_app, length_app. cbn [filter].
  destruct (text_eqb w x); cbn [length]; lia.
Qed.

Lemma occurrences_pos (w : text) (ws : list text) :
  In w ws <-> (0 < occurrences w ws)%Z.
Proof.
  unfold occurrences, len_words. split.
  - intros H. assert (K : In w (filter (text_eqb w) ws)).
    { apply filter_In. split; [exact H | now apply text_eqb_eq]. }
    destruct (filter (text_eqb w) ws); [contradiction | cbn [length]; lia].
  - intros H. destruct (filter (text_eqb w) ws) as [|x l] eqn:E;
      [cbn [length] in H; lia|].
    assert (K : In x (filter (text_eqb w) ws)) by (rewrite E; now left).
    apply filter_In in K as [K1 K2]. apply text_eqb_eq in K2. now subst.
Qed.

Lemma occurrences_filter (f : text -> bool) (w : text) (ws : list text) :
  f w = true -> occurrences w (filter f ws) = occurrences w ws.
Proof.
  intros H. unfold occurrences. f_equal.
  induction ws as [|x ws IH]; [reflexivity|]. cbn [filter].
  destruct (f x) eqn:Ex; cbn [filter]; destruct (text_eqb w x) eqn:E;
    rewrite ?IH; try reflexivity.
  apply text_eqb_eq in E. subst. congruence.
Qed.

(** The dictionary [word_freq] after the words [ws] were counted: its
    keys are distinct; its keys are the words of [ws]; each key has the
    number of its occurrences. *)
Local Abbreviation counted word_freq ws :=
  (NoDup (map fst word_freq)
   /\ (forall w, In w (map fst word_freq) <-> In w ws)
   /\ (forall w n, In (w, n) word_freq -> n = occurrences w ws)).

Lemma count_word_keys (word : text) (word_freq : list (text * Z)) :
  map fst (count_word word word_freq)
  = if existsb (text_eqb word) (map fst word_freq)
    then map fst word_freq else map fst word_freq ++ [word].
Proof.
  induction word_freq as [|[w n] rest IH]; [reflexivity|].
  cbn [count_word map fst existsb].
  destruct (text_eqb w word) eqn:E.
  - apply text_eqb_eq in E. subst. now rewrite text_eqb_refl.
  - assert (E' : text_eqb word w = false).
    { apply not_true_iff_false. intros K. apply text_eqb_eq in K. subst.
      now rewrite text_eqb_refl in E. }
    rewrite E'. cbn [orb map fst]. rewrite IH.
    now destruct (existsb (text_eqb word) (map fst rest)).
Qed.

Lemma count_word_in (word : text) (word_freq : list (text * Z)) (w : text) (n : Z) :
  NoDup (map fst word_freq) ->
  In (w, n) (count_word word word_freq) ->
  (w <> word /\ In (w, n) word_freq)
  \/ (w = word /\ (In (w, (n - 1)%Z) word_freq
                   \/ ~ In word (map fst word_freq) /\ n = 1%Z)).
Proof.
  induction word_freq as [|[x m] rest IH]; intros Hnd H.
  - cbn [count_word] in H. destruct H as [H|[]]. injection H as <- <-.
    right. split; [reflexivity|]. right. split; [intros [] | reflexivity].
  - cbn [map fst] in Hnd. inversion Hnd as [|? ? Hx Hrest]; subst.
    cbn [count_word] in H. destruct (text_eqb x word) eqn:E.
    + apply text_eqb_eq in E. subst x. destruct H as [H|H].
      * injection H as <- <-. right. split; [reflexivity|]. left. left.
        f_equal. lia.
      * left. split; [|now right]. intros ->. apply Hx.
        change word with (fst (word, n)). now apply in_map.
    + assert (Hne : x <> word).
      { intros ->. now rewrite text_eqb_refl in E. }
      destruct H as [H|H].
      * injection H as <- <-. left. split; [exact Hne | now left].
      * destruct (IH Hrest H) as [[H1 H2]|[H1 [H2|[H2 H3]]]].
        -- left. split; [exact H1 | now right].
        -- right. split; [exact H1|]. left. now right.
        -- right. split; [exact H1|]. right. split; [|exact H3].
           cbn [map fst]. intros [K|K]; [now apply Hne | now apply H2].
Qed.

Lemma count_word_counted (word : text) (word_freq : list (text * Z)) (ws : list text) :
  counted word_freq ws -> counted (count_word word word_freq) (ws ++ [word]).
Proof.
  intros [Hnd [Hkeys Hn]]. split; [|split].
  - rewrite count_word_keys.
    destruct (existsb (text_eqb word) (map fst word_freq)) eqn:E; [exact Hnd|].
    apply NoDup_app; [exact Hnd | repeat constructor; intros [] |].
    intros w Hw [<-|[]]. apply In_existsb in Hw. congruence.
  - intros w. rewrite count_word_keys, in_app_iff.
    destruct (existsb (text_eqb word) (map fst word_freq)) eqn:E.
    + apply In_existsb in E. rewrite Hkeys. split; [now left|].
      intros [H|[<-|[]]]; [exact H | now apply Hkeys].
    + rewrite in_app_iff, Hkeys. reflexivity.
  - intros w n H. rewrite occurrences_snoc.
    destruct (@count_word_in word word_freq w n Hnd H) as [[H1 H2]|[-> [H2|[H2 ->]]]].
    + assert (E : text_eqb w word = false).
      { apply not_true_iff_false. intros K. now apply text_eqb_eq in K. }
      rewrite E, (Hn _ _ H2). lia.
    + rewrite text_eqb_refl, <- (Hn _ _ H2). lia.
    + rewrite text_eqb_refl.
      assert (K : ~ (0 < occurrences word ws)%Z).
      { intros K. apply occurrences_pos in K. now apply Hkeys in K. }
      unfold occurrences, len_words in *. lia.
Qed.

Local Abbreviation not_ignored :=
  (fun w : text => negb (existsb (text_eqb w) ignored_words)).

Lemma word_freq_counted (words : list text) :
  counted (word_freq_of words) (filter not_ignored words).
Proof.
  unfold word_freq_of.
  pose proof (@fold_left_invariant _ _
                (fun word_freq word =>
                   if negb (existsb (text_eqb word) ignored_words)
                   then count_word word word_freq else word_freq)
                (fun seen st => counted st (filter not_ignored seen))) as H.
  apply (H) with (seen := @nil text) (l := words) (st := @nil (text * Z)).
  - intros seen st x Hinv. rewrite filter_app. cbn [filter].
    destruct (negb (existsb (text_eqb x) ignored_words)).
    + now apply count_word_counted.
    + now rewrite app_nil_r.
  - split; [constructor|]. split; [reflexivity|]. intros w n [].
Qed.

(** *** Sorted lists *)

Lemma StronglySorted_app (A : Type) (R : A -> A -> Prop) (l1 l2 : list A) :
  StronglySorted R (l1 ++ l2) ->
  StronglySorted R l1 /\ forall a b, In a l1 -> In b l2 -> R a b.
Proof.
  induction l1 as [|x l1 IH]; intros H.
  - split; [constructor | intros a b []].
  - rewrite <- app_comm_cons in H. inversion H as [|? ? Hs Hf]; subst.
    destruct (IH Hs) as [H1 H2]. rewrite Forall_app in Hf. destruct Hf as [Hf1 Hf2].
    split; [now constructor|].
    intros a b [<-|Ha] Hb; [|now apply H2].
    rewrite Forall_forall in Hf2. now apply Hf2.
Qed.

Lemma StronglySorted_map (A B : Type) (R : A -> A -> Prop) (Q : B -> B -> Prop)
  (f : A -> B) (l : list A) :
  (forall a b, In a l -> In b l -> R a b -> Q (f a) (f b)) ->
  StronglySorted R l -> StronglySorted Q (map f l).
Proof.
  intros H Hs. induction Hs as [|x l Hs IH Hf]; [constructor|].
  cbn [map]. constructor.
  - apply IH. intros a b Ha Hb. apply H; now right.
  - apply Forall_forall. intros y Hy. apply in_map_iff in Hy as [b [<- Hb]].
    rewrite Forall_forall in Hf. apply H; [now left | now right | now apply Hf].
Qed.

Lemma NoDup_firstn (A : Type) (n : nat) (l : list A) : NoDup l -> NoDup (firstn n l).
Proof.
  intros H. rewrite <- (firstn_skipn n l) in H. now apply NoDup_app_remove_r in H.
Qed.

(** An ascending list is left as it is by [order_by]. *)
Lemma sort_reverse_sorted (A K : Type) (ltb : K -> K -> bool) (key : A -> K)
  (l : list A) :
  descending ltb key l -> sort_reverse ltb key l = l.
Proof.
  unfold descending. induction 1 as [|x l Hs IH Hf]; [reflexivity|].
  cbn [sort_reverse fold_right]. fold (sort_reverse ltb key l). rewrite IH.
  destruct l as [|y r]; [reflexivity|]. cbn [insert_reverse].
  inversion Hf as [|? ? Hy _]; subst. now rewrite Hy.
Qed.

Lemma seq_ascending (start n : nat) :
  StronglySorted (fun a b => (Z.of_nat a >? Z.of_nat b)%Z = false) (seq start n).
Proof.
  revert start. induction n as [|n IH]; intros start; [constructor|].
  cbn [seq]. constructor; [apply IH|].
  apply Forall_forall. intros y Hy. apply in_seq in Hy.
  rewrite Z.gtb_ltb. apply Z.ltb_ge. lia.
Qed.

(** The entries of the sorted dictionary: words of the text that are
    not ignored, each with the number of its occurrences. *)
Lemma sorted_words_entries (words : list text) :
  Forall (fun e => In (fst e) words
                   /\ existsb (text_eqb (fst e)) ignored_words = false
                   /\ snd e = occurrences (fst e) words)
         (sort_reverse Z.ltb snd (word_freq_of words)).
Proof.
  destruct (word_freq_counted words) as [_ [Hkeys Hn]].
  apply (Permutation_Forall (sort_reverse_perm Z.ltb snd (word_freq_of words))).
  apply Forall_forall. intros [w n] Hin. cbn [fst snd].
  assert (Hw : In w (filter not_ignored words)).
  { apply Hkeys. change w with (fst (w, n)). now apply in_map. }
  apply filter_In in Hw as [Hw Hi]. apply negb_true_iff in Hi.
  split; [exact Hw|]. split; [exact Hi|].
  rewrite (Hn _ _ Hin). apply occurrences_filter. now rewrite Hi.
Qed.

Lemma sorted_words_keys (words : list text) :
  NoDup (map fst (sort_reverse Z.ltb snd (word_freq_of words)))
  /\ forall w, In w words -> existsb (text_eqb w) ignored_words = false ->
               In w (map fst (sort_reverse Z.ltb snd (word_freq_of words))).
Proof.
  destruct (word_freq_counted words) as [Hnd [Hkeys _]].
  pose proof (Permutation_map fst
                (sort_reverse_perm Z.ltb snd (word_freq_of words))) as P.
  split.
  - now apply (Permutation_NoDup P).
  - intros w Hw Hi. apply (Permutation_in _ P). apply Hkeys.
    apply filter_In. split; [exact Hw | now rewrite Hi].
Qed.

(** *** The sentences of the text summary *)

Section Sentences.

Variable lower : text -> text.
Variable isalnum : char -> bool.

Local Abbreviation simple := (simplified lower isalnum).

(** What [keep_unique] keeps while it passes over the sentences. *)
Local Abbreviation kept_so_far seen_sentences st :=
  (map simple (snd st) = rev (fst st)
   /\ NoDup (fst st)
   /\ Forall (fun sentence => In sentence seen_sentences
                              /\ (20 < len (simple sentence))%Z) (snd st)
   /\ (snd st = [] ->
       Forall (fun sentence => (len (simple sentence) <= 20)%Z) seen_sentences)).

Lemma keep_unique_kept (done : list text) (st : list text * list text)
  (sentence : text) :
  kept_so_far done st ->
  kept_so_far (done ++ [sentence]) (keep_unique lower isalnum st sentence).
Proof.
  destruct st as [seen unique_sentences]. cbn [fst snd].
  intros [Hmap [Hnd [Hall Hnone]]].
  assert (Hwiden : Forall (fun x => In x (done ++ [sentence])
                                    /\ (20 < len (simple x))%Z) unique_sentences).
  { apply (Forall_impl _ (P := fun x => In x done /\ (20 < len (simple x))%Z));
      [|exact Hall].
    intros x [Hx Hl]. split; [apply in_or_app; now left | exact Hl]. }
  unfold keep_unique.
  destruct (existsb (text_eqb (simple sentence)) seen) eqn:Eseen;
    destruct (len (simple sentence) >? 20)%Z eqn:Elen; cbn [negb andb fst snd];
    rewrite Z.gtb_ltb in Elen.
  - split; [exact Hmap|]. split; [exact Hnd|]. split; [exact Hwiden|].
    intros E. subst unique_sentences. cbn [map] in Hmap.
    destruct seen; [discriminate Eseen|].
    cbn [rev] in Hmap. now destruct (rev seen).
  - split; [exact Hmap|]. split; [exact Hnd|]. split; [exact Hwiden|].
    intros E. apply Forall_app. split; [now apply Hnone|].
    constructor; [|constructor]. apply Z.ltb_ge in Elen. exact Elen.
  - apply Z.ltb_lt in Elen. split.
    { rewrite map_app. cbn [map rev]. now rewrite Hmap. }
    split.
    { constructor; [|exact Hnd]. intros K. apply In_existsb in K. congruence. }
    split.
    { apply Forall_app. split; [exact Hwiden|]. constructor; [|constructor].
      split; [apply in_or_app; right; now left | exact Elen]. }
    intros E. now destruct unique_sentences.
  - split; [exact Hmap|]. split; [exact Hnd|]. split; [exact Hwiden|].
    intros E. apply Forall_app. split; [now apply Hnone|].
    constructor; [|constructor]. apply Z.ltb_ge in Elen. exact Elen.
Qed.

Lemma unique_sentences_kept (sentences : list text) :
  NoDup (map simple (unique_sentences_of lower isalnum sentences))
  /\ Forall (fun sentence => In sentence sentences
                             /\ (20 < len (simple sentence))%Z)
            (unique_sentences_of lower isalnum sentences)
  /\ (unique_sentences_of lower isalnum sentences = [] ->
      Forall (fun sentence => (len (simple sentence) <= 20)%Z) sentences).
Proof.
  unfold unique_sentences_of.
  pose proof (@fold_left_invariant _ _ (keep_unique lower isalnum)
                (fun done st => kept_so_far done st)
                keep_unique_kept sentences [] ([], [])) as H.
  cbn [app] in H.
  destruct (fold_left (keep_unique lower isalnum) sentences ([], []))
    as [seen unique_sentences].
  cbn [fst snd] in *. destruct H as [Hmap [Hnd [Hall Hnone]]].
  { split; [reflexivity|]. split; [constructor|]. split; [constructor|].
    intros _. constructor. }
  split; [|split; [exact Hall | exact Hnone]].
  rewrite Hmap. apply NoDup_rev. exact Hnd.
Qed.

End Sentences.

(** Where the sentences come from. *)
Lemma sentences_of_pieces (chunks : list PDFChunk) (sentence : text) :
  In sentence (sentences_of chunks) ->
  exists chunk piece,
    In chunk chunks /\ In piece (split_on (py ". ") (chunk_text chunk))
    /\ (10 < len (strip piece))%Z /\ sentence = strip piece ++ py ".".
Proof.
  unfold sentences_of. intros H. apply in_flat_map in H as [chunk [Hc H]].
  unfold chunk_sentences in H. apply In_firstn in H.
  apply in_map_iff in H as [piece [<- H]]. apply filter_In in H as [Hp Hl].
  rewrite Z.gtb_ltb in Hl. apply Z.ltb_lt in Hl.
  exists chunk, piece. repeat split; assumption.
Qed.

(** *** The rows of a saved document *)

Lemma StronglySorted_of_map (A B : Type) (R : B -> B -> Prop) (f : A -> B)
  (l : list A) :
  StronglySorted R (map f l) -> StronglySorted (fun a b => R (f a) (f b)) l.
Proof.
  induction l as [|x l IH]; intros H; [constructor|].
  cbn [map] in H. inversion H as [|? ? Hs Hf]; subst.
  constructor; [now apply IH|].
  apply Forall_forall. intros y Hy. rewrite Forall_forall in Hf.
  apply Hf. now apply in_map.
Qed.

Lemma saved_rows (js : Json) (chunker : text -> result (list text))
  (embedder : list text -> result (list ndarray)) (db : Db) (o s t : text) :
  foreign_keys db ->
  let saved := save_pdf_to_db js chunker embedder db o s t in
  find_pdf (fst saved) (snd saved) = Some (MkPDF (snd saved) o s)
  /\ find_content (fst saved) (snd saved)
     = Some (MkPDFContent (snd saved) (stored_text o t))
  /\ chunks_of (fst saved) (snd saved) = new_chunks js chunker embedder db o t.
Proof.
  intros [F1 F2] saved. unfold saved, save_pdf_to_db. cbn [fst snd].
  set (n := next_id (map pdf_id (pdfs db))).
  assert (Hfresh : find_pdf db n = None)
    by (apply find_pdf_none, next_id_fresh).
  assert (Hc : find_content db n = None).
  { unfold find_content. apply find_none_iff. intros c Hc.
    apply Z.eqb_neq. intros E. rewrite Forall_forall in F1.
    specialize (F1 c Hc). rewrite E in F1. now apply next_id_fresh in F1. }
  assert (Hk : chunks_of db n = []).
  { unfold chunks_of. apply filter_none. intros c Hc'.
    apply Z.eqb_neq. intros E. rewrite Forall_forall in F2.
    specialize (F2 c Hc'). rewrite E in F2. now apply next_id_fresh in F2. }
  unfold find_pdf, find_content, chunks_of in *. cbn [pdfs pdf_contents pdf_chunks].
  rewrite !find_app, filter_app, Hfresh, Hc, Hk. cbn [find pdf_id content_pdf_id].
  rewrite Z.eqb_refl. split; [reflexivity|]. split; [reflexivity|].
  cbn [app]. apply filter_all. intros c Hin. apply Z.eqb_eq.
  unfold new_chunks in Hin. now apply add_chunks_in in Hin as [Hin _].
Qed.

(** The chunks written by the application, by index and text. *)
Lemma saved_chunks_enumerate (isprintable : char -> bool) (np : Numpy)
  (cfg : config) (js : Json) (db : Db) (o t : text) :
  map (fun c => (chunk_index c, chunk_text c))
      (new_chunks js (app_chunker isprintable) (app_embedder np cfg) db o t)
  = enumerate (split_text_into_chunks isprintable (stored_text o t)).
Proof.
  rewrite <- (@chunk_rows_app js np cfg (app_chunker isprintable)
                (stored_text o t) _ eq_refl).
  unfold new_chunks.
  rewrite <- (map_map fst (fun p : text * Z => (snd p, fst p))).
  rewrite <- add_chunks_texts with (pdf := next_id (map pdf_id (pdfs db)))
                                   (first := next_id (map chunk_id (pdf_chunks db))).
  rewrite map_map. reflexivity.
Qed.

Lemma saved_chunks_in_order (isprintable : char -> bool) (np : Numpy)
  (cfg : config) (js : Json) (db : Db) (o t : text) :
  order_by_chunk_index
    (new_chunks js (app_chunker isprintable) (app_embedder np cfg) db o t)
  = new_chunks js (app_chunker isprintable) (app_embedder np cfg) db o t.
Proof.
  apply sort_reverse_sorted. unfold descending.
  apply StronglySorted_of_map with (f := chunk_index)
                                   (R := fun a b => (a >? b)%Z = false).
  assert (H : map chunk_index
                 (new_chunks js (app_chunker isprintable) (app_embedder np cfg) db o t)
               = map Z.of_nat
                   (seq 0 (length (split_text_into_chunks isprintable
                                     (stored_text o t))))).
  { rewrite <- enumerate_fst, <- (saved_chunks_enumerate isprintable np cfg js db o t).
    rewrite map_map. reflexivity. }
  rewrite H.
  apply StronglySorted_map
    with (R := fun a b => (Z.of_nat a >? Z.of_nat b)%Z = false);
    [now intros a b _ _ K | apply seq_ascending].
Qed.

End SummaryFacts.

Import SummaryFacts.

(** X23: the keywords of a summary are the most frequent words of the
    text.  The words are the runs of four or more ASCII letters of the
    lowercased text content, without the eleven ignored words.  The
    keywords are at most ten of them, all different, in the order of
    falling frequency; a word that is left out is left out only when
    there are ten keywords, none of them less frequent than it. *)
Theorem keywords_are_the_most_frequent_words (lower : text -> text)
  (isalnum : char -> bool) (text_content : text) :
  let words := findall_words isalnum (lower text_content) in
  let keywords := keywords_of lower isalnum text_content in
  let frequency := fun w => occurrences w words in
  (length keywords <= 10)%nat
  /\ NoDup keywords
  /\ Forall (fun k => In k words /\ ~ In k ignored_words
                      /\ (4 <= length k)%nat /\ forallb ascii_letter k = true)
            keywords
  /\ StronglySorted (fun a b => (frequency b <= frequency a)%Z) keywords
  /\ (forall w, In w words -> ~ In w ignored_words -> ~ In w keywords ->
        length keywords = 10%nat
        /\ Forall (fun k => (frequency w <= frequency k)%Z) keywords).
Proof.
  intros words keywords frequency. unfold keywords, keywords_of. fold words.
  set (sorted_words := sort_reverse Z.ltb snd (word_freq_of words)).
  pose proof (sorted_words_entries words) as Hent. fold sorted_words in Hent.
  destruct (sorted_words_keys words) as [Hnd Hall]. fold sorted_words in Hnd, Hall.
  pose proof (sort_int_descending snd (word_freq_of words)) as Hdesc.
  fold sorted_words in Hdesc. unfold descending in Hdesc.
  rewrite <- (firstn_skipn 10 sorted_words) in Hdesc.
  apply StronglySorted_app in Hdesc as [Hs Hcross].
  assert (Hsub : forall e, In e (firstn 10 sorted_words) -> In e sorted_words).
  { intros e He. rewrite <- (firstn_skipn 10 sorted_words).
    apply in_or_app. now left. }
  rewrite Forall_forall in Hent.
  split; [rewrite length_map; apply firstn_le_length|].
  split; [rewrite <- firstn_map; now apply NoDup_firstn|].
  split.
  { apply Forall_forall. intros k Hk. apply in_map_iff in Hk as [e [<- He]].
    destruct (Hent e (Hsub e He)) as [H1 [H2 _]].
    split; [exact H1|]. split.
    - intros K. apply In_existsb in K. congruence.
    - pose proof (findall_go_words isalnum (lower text_content) false 0) as Hw.
      rewrite Forall_forall in Hw. now apply Hw. }
  split.
  { apply StronglySorted_map with (R := fun a b => (snd a <? snd b)%Z = false);
      [|exact Hs].
    intros a b Ha Hb Hab. unfold frequency.
    destruct (Hent a (Hsub a Ha)) as [_ [_ <-]].
    destruct (Hent b (Hsub b Hb)) as [_ [_ <-]].
    now apply Z.ltb_ge. }
  intros w Hw Hi Hk.
  assert (Hi' : existsb (text_eqb w) ignored_words = false).
  { apply not_true_iff_false. intros K. now apply In_existsb in K. }
  pose proof (Hall w Hw Hi') as Hin. apply in_map_iff in Hin as [e [Ew He]].
  rewrite <- (firstn_skipn 10 sorted_words) in He.
  apply in_app_or in He as [He|He].
  { exfalso. apply Hk. rewrite <- Ew. now apply in_map. }
  split.
  { rewrite length_map, length_firstn.
    destruct (Nat.le_gt_cases (length sorted_words) 10) as [L|L]; [|lia].
    rewrite skipn_all2 in He by exact L. contradiction. }
  apply Forall_forall. intros k Hk'. apply in_map_iff in Hk' as [a [<- Ha]].
  unfold frequency. pose proof (Hcross a e Ha He) as Hae. apply Z.ltb_ge in Hae.
  destruct (Hent a (Hsub a Ha)) as [_ [_ <-]].
  assert (He' : In e sorted_words).
  { rewrite <- (firstn_skipn 10 sorted_words). apply in_or_app. now right. }
  destruct (Hent e He') as [_ [_ E]]. rewrite Ew in E. now rewrite <- E.
Qed.

(** X24: the sentences of the text summary.  The text summary of a
    document with chunks is made of at most five sentences joined by
    spaces.  Each is a piece of a chunk between two ". ", trimmed, of
    more than 10 characters, with a full stop added; reduced to its word
    characters in lower case it has more than 20 characters and differs
    from every other sentence of the summary.  When no sentence of the
    chunks is that long, the summary is the first 300 characters of the
    first chunk followed by "...". *)
Theorem text_summary_sentences (lower : text -> text) (isalnum : char -> bool)
  (first : PDFChunk) (rest : list PDFChunk) :
  let chunks := first :: rest in
  exists summary_sentences,
    text_summary_of lower isalnum first rest
    = match summary_sentences with
      | [] => slice (chunk_text first) 0 300 ++ py "..."
      | _ :: _ => join (py " ") summary_sentences
      end
    /\ (length summary_sentences <= 5)%nat
    /\ NoDup (map (simplified lower isalnum) summary_sentences)
    /\ Forall (fun sentence =>
                 (20 < len (simplified lower isalnum sentence))%Z
                 /\ exists chunk piece,
                      In chunk chunks
                      /\ In piece (split_on (py ". ") (chunk_text chunk))
                      /\ (10 < len (strip piece))%Z
                      /\ sentence = strip piece ++ py ".")
              summary_sentences
    /\ (summary_sentences = [] ->
        Forall (fun sentence => (len (simplified lower isalnum sentence) <= 20)%Z)
               (sentences_of chunks)).
Proof.
  intros chunks.
  destruct (unique_sentences_kept lower isalnum (sentences_of chunks))
    as [Hnd [Hall Hnone]].
  exists (firstn 5 (unique_sentences_of lower isalnum (sentences_of chunks))).
  split.
  { unfold text_summary_of. fold chunks.
    now destruct (firstn 5 (unique_sentences_of lower isalnum (sentences_of chunks))). }
  split; [apply firstn_le_length|].
  split; [rewrite <- firstn_map; now apply NoDup_firstn|].
  split.
  { apply Forall_forall. intros sentence H. apply In_firstn in H.
    rewrite Forall_forall in Hall. destruct (Hall sentence H) as [Hin Hl].
    split; [exact Hl | now apply sentences_of_pieces]. }
  intros E. apply Hnone.
  destruct (unique_sentences_of lower isalnum (sentences_of chunks));
    [reflexivity | discriminate E].
Qed.

(** X25: a saved document has a summary.  After [save_pdf_to_db], on
    tables that respect the foreign keys, [get_pdf_chunks] returns the
    chunks of the stored text in the order of the text, and
    [generate_summary] succeeds under the returned id: it reports the
    file name given at upload, the number of chunks and the length of
    the stored text, with the keywords of the stored text; it is never
    "not found" and never without content. *)
Theorem saved_pdf_has_a_summary (lower : text -> text) (isalnum : char -> bool)
  (upload_date : PDF -> option text) (isprintable : char -> bool) (np : Numpy)
  (cfg : config) (js : Json) (db : Db) (o s t : text) :
  foreign_keys db ->
  let saved := save_pdf_to_db_app isprintable np cfg js db o s t in
  let chunks := split_text_into_chunks isprintable (stored_text o t) in
  map chunk_text (get_pdf_chunks (fst saved) (snd saved)) = chunks
  /\ exists first rest,
       get_pdf_chunks (fst saved) (snd saved) = first :: rest
       /\ generate_summary lower isalnum upload_date (fst saved) (snd saved)
          = FullSummary
              (MkMetadata (snd saved) o (upload_date (MkPDF (snd saved) o s))
                          (len_words chunks))
              (text_summary_of lower isalnum first rest)
              (len (stored_text o t))
              (keywords_of lower isalnum (stored_text o t)).
Proof.
  intros Hfk saved chunks. unfold saved, save_pdf_to_db_app.
  destruct (@saved_rows js (app_chunker isprintable) (app_embedder np cfg)
              db o s t Hfk) as [Hp [Hc Hk]].
  set (sv := save_pdf_to_db js (app_chunker isprintable) (app_embedder np cfg)
               db o s t) in *.
  pose proof (saved_chunks_enumerate isprintable np cfg js db o t) as Hen.
  pose proof (saved_chunks_in_order isprintable np cfg js db o t) as Hord.
  fold chunks in Hen.
  set (added := new_chunks js (app_chunker isprintable) (app_embedder np cfg)
                  db o t) in *.
  assert (Htexts : map chunk_text added = chunks).
  { rewrite <- (enumerate_snd chunks), <- Hen, map_map. reflexivity. }
  assert (Hget : get_pdf_chunks (fst sv) (snd sv) = added).
  { unfold get_pdf_chunks. now rewrite Hk. }
  split; [now rewrite Hget|].
  destruct added as [|first rest] eqn:Ea.
  { exfalso. apply (split_text_into_chunks_nonempty isprintable (stored_text o t)).
    fold chunks. now rewrite <- Htexts. }
  exists first, rest. split; [exact Hget|].
  unfold generate_summary. rewrite Hp, Hc, Hk, Hord.
  cbn [original_filename text_content length]. f_equal. f_equal.
  unfold len_words. rewrite <- Htexts, length_map. reflexivity.
Qed.

Lemma saved_pdf_has_a_summary_witness :
  foreign_keys empty_db
  /\ map chunk_text
       (get_pdf_chunks
          (fst (save_pdf_to_db_app isprintable_latin1 sample_numpy default_config
                  sample_json empty_db (py "b.pdf")
                  (py "stored-b") two_paragraphs))
          (snd (save_pdf_to_db_app isprintable_latin1 sample_numpy default_config
                  sample_json empty_db (py "b.pdf")
                  (py "stored-b") two_paragraphs)))
     = split_text_into_chunks isprintable_latin1
         (stored_text (py "b.pdf") two_paragraphs).
Proof.
  assert (H : foreign_keys empty_db) by (split; constructor).
  split; [exact H|].
  exact (proj1 (@saved_pdf_has_a_summary (fun x => x) isalnum_ascii (fun _ => None)
                  isprintable_latin1 sample_numpy default_config sample_json
                  empty_db (py "b.pdf") (py "stored-b")
                  two_paragraphs H)).
Defined.
